(** * Formatting validator of [app/utils/formatting.py]

    A shallow embedding of the document-formatting validator and the
    properties stated about it.

    Conventions of the model.
    - A Python [str] is a list of Unicode code points ([str := list N]);
      literals are written [U "..."] and decoded from UTF-8.
    - Python's case tables ([lower], [isupper]) are given for the Basic
      Latin and Cyrillic blocks, [\d] and [int] for the ASCII digits; other
      code points are caseless non-digits.
    - A python-docx [Length] is its integer number of EMU; derived
      quantities ([.pt], [.inches]) and line spacings are binary64 floats,
      as in Python.
    - Paragraphs and tables are identified by their position in
      [doc.paragraphs] and [doc.tables].
    - Logging calls have no counterpart.  The validation passes shade the
      offending runs red ([set_red_background]); that marking is write-only
      (no pass reads it back) and the pass models return the error records
      and the classification lists only. *)

From Stdlib Require Import ZArith NArith String Ascii Floats DecimalString Sorted.
From stdpp Require Import gmap strings list.

Set Warnings "-inexact-float".

(** ** Python strings *)

Abbreviation str := (list N).

Module PyStr.

Local Open Scope N_scope.

(** UTF-8 decoding of a literal, byte by byte: [need] continuation bytes
    are still expected and [acc] holds the bits read so far. *)
Fixpoint utf8_go (need : nat) (acc : N) (bs : list N) : str :=
  match bs with
  | [] => []
  | b :: bs' =>
      match need with
      | O =>
          if b <? 128 then b :: utf8_go 0 0 bs'
          else if b <? 224 then utf8_go 1 (b - 192) bs'
          else if b <? 240 then utf8_go 2 (b - 224) bs'
          else utf8_go 3 (b - 240) bs'
      | S n =>
          let acc' := acc * 64 + (b - 128) in
          match n with
          | O => acc' :: utf8_go 0 0 bs'
          | _ => utf8_go n acc' bs'
          end
      end
  end.

Definition U (s : string) : str :=
  utf8_go 0 0 (map N_of_ascii (list_ascii_of_string s)).

Definition between (lo hi c : N) : bool := (lo <=? c) && (c <=? hi).

(** [str.isspace] for one code point; also the class [\s] of [re]. *)
Definition isspace (c : N) : bool :=
  between 9 13 c || between 28 32 c || (c =? 133) || (c =? 160)
  || (c =? 5760) || between 8192 8202 c || (c =? 8232) || (c =? 8233)
  || (c =? 8239) || (c =? 8287) || (c =? 12288).

(** [\d] and the digits accepted by [int]. *)
Definition isdigit (c : N) : bool := between 48 57 c.

(** [[А-Я]] of the caption patterns. *)
Definition is_AYa (c : N) : bool := between 1040 1071 c.

(** [[а-я]] of the list patterns. *)
Definition is_aya (c : N) : bool := between 1072 1103 c.

Definition isupper (c : N) : bool :=
  between 65 90 c || between 1024 1071 c.

Definition lower_cp (c : N) : N :=
  if between 65 90 c then c + 32
  else if between 1040 1071 c then c + 32
  else if between 1024 1039 c then c + 80
  else c.

Definition lower (s : str) : str := map lower_cp s.

Fixpoint drop_while (f : N → bool) (s : str) : str :=
  match s with
  | [] => []
  | c :: s' => if f c then drop_while f s' else s
  end.

Fixpoint take_while (f : N → bool) (s : str) : str :=
  match s with
  | [] => []
  | c :: s' => if f c then c :: take_while f s' else []
  end.

Definition lstrip (s : str) : str := drop_while isspace s.
Definition rstrip (s : str) : str := rev (drop_while isspace (rev s)).
Definition strip (s : str) : str := rstrip (lstrip s).

Definition eqb (s t : str) : bool := bool_decide (s = t).

Fixpoint startswith (s pre : str) : bool :=
  match pre, s with
  | [], _ => true
  | p :: pre', c :: s' => (c =? p) && startswith s' pre'
  | _ :: _, [] => false
  end.

Definition endswith (s suf : str) : bool := startswith (rev s) (rev suf).

(** [sub in s] *)
Fixpoint contains (s sub : str) : bool :=
  startswith s sub ||
  match s with
  | [] => false
  | _ :: s' => contains s' sub
  end.

(** [s[-1]] of a non-empty string *)
Definition last_char (s : str) : option N := last s.

(** [str(n)] for an integer *)
Definition of_Z (z : Z) : str :=
  U (NilZero.string_of_int (Z.to_int z)).

(** [int(s)] for a string of ASCII digits *)
Definition to_Z (s : str) : Z :=
  fold_left (λ acc c, (acc * 10 + Z.of_N (c - 48))%Z) s 0%Z.

(** [sep.join(parts)] *)
Fixpoint join (sep : str) (parts : list str) : str :=
  match parts with
  | [] => []
  | [p] => p
  | p :: ps => p ++ sep ++ join sep ps
  end.

(** [s.split('.')]: the pieces between the separators *)
Fixpoint split_on (sep : N) (s : str) : list str :=
  match s with
  | [] => [[]]
  | c :: s' =>
      if c =? sep then [] :: split_on sep s'
      else match split_on sep s' with
           | [] => [[c]]
           | p :: ps => (c :: p) :: ps
           end
  end.

End PyStr.

Import PyStr.

(** ** The document object model, as python-docx exposes it *)

Module WD_ALIGN_PARAGRAPH.
Inductive t := LEFT | CENTER | RIGHT | JUSTIFY | DISTRIBUTE.
#[global] Instance eq_dec : EqDecision t.
Proof. solve_decision. Defined.
End WD_ALIGN_PARAGRAPH.

(** The value of [paragraph_format.line_spacing]: a float multiple of the
    line height, or a fixed [Length]. *)
Inductive LineSpacing :=
  | Multiple (f : float)
  | Exact (emu : Z).

Record Comment := {
  c_text : str;
  c_author : str;
  c_initials : str
}.

Record Run := {
  r_text : str;
  font_name : option str;
  font_size : option Z;
  font_bold : option bool;
  font_italic : option bool;
  (* [None], [False] or [True]; every other underline style is truthy *)
  font_underline : option bool;
  (* the run holds a [<w:br w:type="page"/>] *)
  r_page_break : bool;
  (* number of red shadings appended by [set_red_background] *)
  r_shd : nat
}.

Record Paragraph := {
  runs : list Run;
  style_name : str;
  alignment : option WD_ALIGN_PARAGRAPH.t;
  first_line_indent : option Z;
  left_indent : option Z;
  right_indent : option Z;
  space_before : option Z;
  space_after : option Z;
  line_spacing : option LineSpacing;
  (* [<w:numPr>]: the numbering id [numId] and the level [ilvl] *)
  numPr : option (str * Z);
  page_break_before : bool;
  comments : list Comment
}.

(** [paragraph.text] *)
Definition text (p : Paragraph) : str := concat (map r_text (runs p)).

Record Cell := { cell_paragraphs : list Paragraph }.

Record Table := {
  t_alignment : option WD_ALIGN_PARAGRAPH.t;
  (* the cells in row-major order; [table.cell(0, 0)] is the first *)
  t_cells : list Cell
}.

(** The value of [get_numbering_formats(doc)]: for a numbering id and a
    level, the number format and the level text template. *)
Definition NumberingFormats : Type := gmap str (gmap Z (str * str)).

(** A child of the document body: the paragraph or the table at a
    position of [doc.paragraphs] or [doc.tables], or another element. *)
Inductive Block :=
  | BlockParagraph (i : nat)
  | BlockTable (j : nat)
  | BlockOther.

#[global] Instance Block_eq_dec : EqDecision Block.
Proof. solve_decision. Defined.

Record Document := {
  paragraphs : list Paragraph;
  tables : list Table;
  (* the children of the body, in document order *)
  body : list Block;
  (* name of the style of a paragraph created without one *)
  default_style_name : str;
  (* the numbering definitions, as [get_numbering_formats] reads them *)
  numbering : NumberingFormats
}.

(** Truth value of an optional flag and of an optional [Length]. *)
Definition truthy (o : option bool) : bool := default false o.
Definition nonzero (o : option Z) : bool :=
  match o with Some z => negb (z =? 0)%Z | None => false end.

(** *** Lengths and floats *)

Definition float_of_Z (z : Z) : float :=
  if (z <? 0)%Z then PrimFloat.opp (PrimFloat.of_uint63 (Uint63.of_Z (- z)))
  else PrimFloat.of_uint63 (Uint63.of_Z z).

Definition pt (emu : Z) : float := (float_of_Z emu / 12700)%float.
Definition inches (emu : Z) : float := (float_of_Z emu / 914400)%float.

(** [a != b] and [a > b] on floats *)
Definition fneq (a b : float) : bool := negb (PrimFloat.eqb a b).
Definition fgt (a b : float) : bool := PrimFloat.ltb b a.

(** [Inches(x)]: the [Length] of [x] inches, truncated to whole EMU;
    [Inches(1.25 * 0.393701)] is 450000 EMU. *)
Definition expected_indent : Z := 450000.

(** ** Error records *)

Module DocumentElementType.
Inductive t := PARAGRAPH | TABLE | PICTURE.
#[global] Instance eq_dec : EqDecision t.
Proof. solve_decision. Defined.
Definition to_nat (x : t) : nat :=
  match x with PARAGRAPH => 0 | TABLE => 1 | PICTURE => 2 end.
Definition of_nat (n : nat) : option t :=
  match n with
  | 0 => Some PARAGRAPH | 1 => Some TABLE | 2 => Some PICTURE | _ => None
  end.
#[global] Instance countable : Countable t.
Proof. by apply (inj_countable to_nat of_nat); intros []. Defined.
End DocumentElementType.

Module DocumentTextElementType.
Inductive t :=
  DEFAULT | HEADING | LIST | LISTING | IMAGE | TEXT | TABLE | CODE
| STRUCTURE.
#[global] Instance eq_dec : EqDecision t.
Proof. solve_decision. Defined.
Definition to_nat (x : t) : nat :=
  match x with
  | DEFAULT => 0 | HEADING => 1 | LIST => 2 | LISTING => 3 | IMAGE => 4
  | TEXT => 5 | TABLE => 6 | CODE => 7 | STRUCTURE => 8
  end.
Definition of_nat (n : nat) : option t :=
  match n with
  | 0 => Some DEFAULT | 1 => Some HEADING | 2 => Some LIST
  | 3 => Some LISTING | 4 => Some IMAGE | 5 => Some TEXT
  | 6 => Some TABLE | 7 => Some CODE | 8 => Some STRUCTURE | _ => None
  end.
#[global] Instance countable : Countable t.
Proof. by apply (inj_countable to_nat of_nat); intros []. Defined.
End DocumentTextElementType.

(** The dictionary built by [add_error]; its keys are ["type"],
    ["message"], ["paragraph_text"], ["index"] and ["element_type"]. *)
Record ErrorRecord := {
  err_type : DocumentTextElementType.t;
  message : str;
  paragraph_text : str;
  index : Z;
  element_type : option DocumentElementType.t
}.

#[global] Instance ErrorRecord_eq_dec : EqDecision ErrorRecord.
Proof. solve_decision. Defined.

(** The [element] argument of [add_error]. *)
Inductive Element :=
  | ElNone
  | ElParagraph (p : Paragraph)
  | ElStr (s : str)
  | ElTable (t : Table).

Definition classify (msg : str) : DocumentTextElementType.t :=
  let m := lower msg in
  if contains m (U "заголов") then DocumentTextElementType.HEADING
  else if contains m (U "спис") then DocumentTextElementType.LIST
  else if contains m (U "листинг") then DocumentTextElementType.LISTING
  else if contains m (U "таблиц") then DocumentTextElementType.TABLE
  else if contains m (U "рисунок") || contains m (U "изображ")
       then DocumentTextElementType.IMAGE
  else if contains m (U "абзац") then DocumentTextElementType.TEXT
  else if contains m (U "код") then DocumentTextElementType.CODE
  else if contains m (U "структурн") || contains m (U "приложен")
       then DocumentTextElementType.STRUCTURE
  else DocumentTextElementType.DEFAULT.

Definition element_text (element : Element) : str :=
  match element with
  | ElParagraph p =>
      match text p with [] => [] | _ :: _ => strip (text p) end
  | ElStr s => s
  | ElNone | ElTable _ => []
  end.

Definition error_dict (msg : str) (element : Element) (idx : option Z)
    (ety : option DocumentElementType.t) : ErrorRecord :=
  {| err_type := classify msg;
     message := msg;
     paragraph_text := element_text element;
     index := default (-1)%Z idx;
     element_type := ety |}.

Definition add_error (errors : list ErrorRecord) (msg : str)
    (element : Element) (idx : option Z)
    (ety : option DocumentElementType.t) : list ErrorRecord :=
  errors ++ [error_dict msg element idx ety].

(** [get_paragraph_index_by_content(doc, doc.paragraphs[target])]: the first
    position holding the target itself or a paragraph with the same
    stripped text and style name; [-1] when there is none. *)
Fixpoint find_index {A} (f : nat → A → bool) (i : nat) (l : list A) : Z :=
  match l with
  | [] => (-1)%Z
  | x :: l' => if f i x then Z.of_nat i else find_index f (S i) l'
  end.

Definition get_paragraph_index_by_content (doc : Document) (target : nat)
    : Z :=
  match paragraphs doc !! target with
  | None => (-1)%Z
  | Some tp =>
      find_index
        (λ i p, bool_decide (i = target)
                || (PyStr.eqb (strip (text p)) (strip (text tp))
                    && PyStr.eqb (style_name p) (style_name tp)))
        0 (paragraphs doc)
  end.

(** *** [remove_duplicate_errors] *)

(** The comparison key: the items of the dictionary sorted by key name,
    without any ["element"] item (the records carry none). *)
Definition ErrorKey : Type :=
  option DocumentElementType.t * Z * str * str * DocumentTextElementType.t.

Definition error_key (e : ErrorRecord) : ErrorKey :=
  (element_type e, index e, message e, paragraph_text e, err_type e).

Fixpoint remove_duplicate_errors_loop (seen : gset ErrorKey)
    (unique_errors errors : list ErrorRecord) : list ErrorRecord :=
  match errors with
  | [] => unique_errors
  | error :: rest =>
      let key := error_key error in
      if decide (key ∈ seen) then
        remove_duplicate_errors_loop seen unique_errors rest
      else
        remove_duplicate_errors_loop ({[key]} ∪ seen)
          (unique_errors ++ [error]) rest
  end.

Definition remove_duplicate_errors (errors : list ErrorRecord)
    : list ErrorRecord :=
  remove_duplicate_errors_loop ∅ [] errors.

(** ** Exceptions *)

Inductive Exception :=
  | PermissionError
  | FileNotFoundError
  | SameFileError
  | PackageNotFoundError
  | IndexError
  | InternalError.

Inductive Result (A : Type) :=
  | Ok (a : A)
  | Raise (e : Exception).
Arguments Ok {A} a.
Arguments Raise {A} e.

#[global] Instance Result_ret : MRet Result := λ A a, Ok a.
#[global] Instance Result_bind : MBind Result := λ A B f m,
  match m with
  | Ok a => f a
  | Raise e => Raise e
  end.

(** ** Annotation of the working copy: [add_comments_to_document] *)

Definition set_red_background (r : Run) : Run :=
  {| r_text := r_text r; font_name := font_name r;
     font_size := font_size r; font_bold := font_bold r;
     font_italic := font_italic r; font_underline := font_underline r;
     r_page_break := r_page_break r; r_shd := S (r_shd r) |}.

Definition set_runs (p : Paragraph) (rs : list Run) : Paragraph :=
  {| runs := rs; style_name := style_name p; alignment := alignment p;
     first_line_indent := first_line_indent p;
     left_indent := left_indent p; right_indent := right_indent p;
     space_before := space_before p; space_after := space_after p;
     line_spacing := line_spacing p; numPr := numPr p;
     page_break_before := page_break_before p; comments := comments p |}.

Definition set_comments (p : Paragraph) (cs : list Comment) : Paragraph :=
  {| runs := runs p; style_name := style_name p; alignment := alignment p;
     first_line_indent := first_line_indent p;
     left_indent := left_indent p; right_indent := right_indent p;
     space_before := space_before p; space_after := space_after p;
     line_spacing := line_spacing p; numPr := numPr p;
     page_break_before := page_break_before p; comments := cs |}.

(** [cell.add_paragraph(style=None)] followed by [para.add_run(s)] *)
Definition new_run (s : str) : Run :=
  {| r_text := s; font_name := None; font_size := None; font_bold := None;
     font_italic := None; font_underline := None; r_page_break := false;
     r_shd := 0 |}.

Definition new_paragraph (style : str) (rs : list Run) : Paragraph :=
  {| runs := rs; style_name := style; alignment := None;
     first_line_indent := None; left_indent := None; right_indent := None;
     space_before := None; space_after := None; line_spacing := None;
     numPr := None; page_break_before := false; comments := [] |}.

Definition set_paragraphs (doc : Document) (ps : list Paragraph) : Document :=
  {| paragraphs := ps; tables := tables doc; body := body doc;
     default_style_name := default_style_name doc;
     numbering := numbering doc |}.

Definition set_tables (doc : Document) (ts : list Table) : Document :=
  {| paragraphs := paragraphs doc; tables := ts; body := body doc;
     default_style_name := default_style_name doc;
     numbering := numbering doc |}.

Definition set_cells (t : Table) (cs : list Cell) : Table :=
  {| t_alignment := t_alignment t; t_cells := cs |}.

(** [0 <= idx < len(l)] and [l[idx]] *)
Definition in_range {A} (idx : Z) (l : list A) : bool :=
  (0 <=? idx)%Z && (idx <? Z.of_nat (length l))%Z.

Section Annotation.

(** The comment-insertion capability of the document provider may fail
    on a paragraph; [add_comment_raises p c] tells when
    [p.add_comment(...)] raises.  A failed insertion leaves the
    paragraph as it was. *)
Variable add_comment_raises : Paragraph → Comment → bool.

Definition add_comment (p : Paragraph) (c : Comment) : Result Paragraph :=
  if add_comment_raises p c then Raise InternalError
  else Ok (set_comments p (comments p ++ [c])).

(** The [TABLE] branch for [table = tables[idx]]: the body of the [try];
    the first component is the table as the body left it, the second
    tells whether an exception reached the [except] clause. *)
Definition comment_table (style : str) (table : Table) (c : Comment)
    : Table * bool :=
  match t_cells table with
  | [] => (table, true)                (* table.cell(0, 0) *)
  | cell :: cells =>
      match cell_paragraphs cell with
      | [] => (table, true)            (* cell.paragraphs[0] *)
      | p0 :: ps =>
          match text p0 with
          | _ :: _ =>
              match add_comment p0 c with
              | Ok p0' =>
                  (set_cells table
                     ({| cell_paragraphs := p0' :: ps |} :: cells), false)
              | Raise _ => (table, true)
              end
          | [] =>
              let para := new_paragraph style [new_run (U "ОШИБКА.")] in
              match add_comment para c with
              | Ok para' =>
                  let para'' :=
                    set_runs para' (map set_red_background (runs para')) in
                  (set_cells table
                     ({| cell_paragraphs := (p0 :: ps) ++ [para''] |}
                      :: cells), false)
              | Raise _ =>
                  (set_cells table
                     ({| cell_paragraphs := (p0 :: ps) ++ [para] |}
                      :: cells), true)
              end
          end
      end
  end.

(** One iteration of [for err in errors]. *)
Definition comment_error (author initials : str) (doc : Document)
    (err : ErrorRecord) : Document :=
  let idx := index err in
  let c := {| c_text := message err; c_author := author;
              c_initials := initials |} in
  match element_type err with
  | Some DocumentElementType.PARAGRAPH =>
      if in_range idx (paragraphs doc) then
        match paragraphs doc !! Z.to_nat idx with
        | Some para =>
            match add_comment para c with
            | Ok para' =>
                set_paragraphs doc
                  (<[Z.to_nat idx := para']> (paragraphs doc))
            | Raise _ => doc
            end
        | None => doc
        end
      else doc
  | Some DocumentElementType.TABLE =>
      if in_range idx (tables doc) then
        match tables doc !! Z.to_nat idx with
        | Some table =>
            set_tables doc
              (<[Z.to_nat idx :=
                   (comment_table (default_style_name doc) table c).1]>
                 (tables doc))
        | None => doc
        end
      else doc
  | _ => doc
  end.

(** The annotated document, before [doc.save]. *)
Definition comment_errors (author initials : str) (doc : Document)
    (errors : list ErrorRecord) : Document :=
  fold_left (comment_error author initials) errors doc.

End Annotation.

(** ** The file system *)

Inductive FileContent :=
  | DocxFile (d : Document)
  | JsonFile (errors : list ErrorRecord)
  | OtherFile (bytes : list N).

(** The files by path, and the paths that another process holds open
    exclusively (opening one of them raises [PermissionError]). *)
Record World := {
  files : gmap str FileContent;
  locked : gset str
}.

Definition set_file (w : World) (path : str) (c : FileContent) : World :=
  {| files := <[path := c]> (files w); locked := locked w |}.

Definition os_path_exists (w : World) (path : str) : bool :=
  bool_decide (is_Some (files w !! path)).

Definition shutil_copyfile (w : World) (src dst : str) : Result World :=
  match files w !! src with
  | None => Raise FileNotFoundError
  | Some c =>
      if decide (src = dst) then Raise SameFileError
      else if decide (src ∈ locked w) then Raise PermissionError
      else if decide (dst ∈ locked w) then Raise PermissionError
      else Ok (set_file w dst c)
  end.

(** [Document(path)] *)
Definition open_document (w : World) (path : str) : Result Document :=
  if decide (path ∈ locked w) then Raise PermissionError
  else match files w !! path with
       | Some (DocxFile d) => Ok d
       | _ => Raise PackageNotFoundError
       end.

(** [doc.save(path)] *)
Definition save_document (w : World) (doc : Document) (path : str)
    : Result World :=
  if decide (path ∈ locked w) then Raise PermissionError
  else Ok (set_file w path (DocxFile doc)).

(** [with open(path, 'w') as f: json.dump(errors, f, ...)] *)
Definition dump_json (w : World) (errors : list ErrorRecord) (path : str)
    : Result World :=
  if decide (path ∈ locked w) then Raise PermissionError
  else Ok (set_file w path (JsonFile errors)).

(** ** The entry point: [check_document_formatting] *)

(** The six validation passes, taken as given: each may raise, returns its
    error records and classification lists (paragraphs by position), and
    leaves the document it was given possibly shaded.  [validate_lists]
    also returns the [code_paragraphs] list it extends in place. *)
Record Passes := {
  check_structural_elements_pass :
    Document →
    Result (list ErrorRecord * list nat * list (nat * list ErrorRecord)
            * list nat * Document);
  check_table_formatting_pass :
    Document → Result (list ErrorRecord * list nat * Document);
  check_image_formatting_pass :
    Document → list nat → Result (list ErrorRecord * list nat * Document);
  check_headings_formatting_pass :
    Document → list nat → list nat → list nat → list nat → list nat →
    Result (list ErrorRecord * list nat * list nat * Document);
  validate_lists_pass :
    Document → list nat → list nat → list nat → list nat → list nat →
    list nat → list nat → list nat →
    Result (list ErrorRecord * list nat * list nat * Document);
  check_general_formatting_pass :
    Document → list nat → list nat → list nat →
    Result (bool * list ErrorRecord * Document)
}.

Definition paragraph_startswith (doc : Document) (pre : str) (i : nat)
    : bool :=
  match paragraphs doc !! i with
  | Some p => startswith (strip (text p)) pre
  | None => false
  end.

(** Lines 3876-3913: the passes in order and the concatenation of their
    error lists. *)
Definition run_passes (P : Passes) (new_doc : Document)
    : Result (list ErrorRecord * Document) :=
  '(structural_errors, structural_paragraphs, listings_info,
    code_paragraphs, new_doc) ← check_structural_elements_pass P new_doc;
  let appendix_paragraphs :=
    filter (λ i, paragraph_startswith new_doc (U "Приложение") i = true)
      structural_paragraphs in
  let listing_paragraphs := map fst listings_info in
  '(table_errors, table_captions, new_doc) ←
    check_table_formatting_pass P new_doc;
  '(image_errors, image_captions, new_doc) ←
    check_image_formatting_pass P new_doc table_captions;
  '(heading_errors, heading_paragraphs, list_candidates, new_doc) ←
    check_headings_formatting_pass P new_doc structural_paragraphs
      appendix_paragraphs listing_paragraphs table_captions image_captions;
  '(list_errors, list_paragraphs, code_paragraphs, new_doc) ←
    validate_lists_pass P new_doc heading_paragraphs list_candidates
      structural_paragraphs appendix_paragraphs listing_paragraphs
      table_captions image_captions code_paragraphs;
  '(general_formatting_issues, general_formatting_errors, new_doc) ←
    check_general_formatting_pass P new_doc
      (table_captions ++ image_captions)
      (heading_paragraphs ++ list_paragraphs ++ structural_paragraphs
       ++ appendix_paragraphs)
      code_paragraphs;
  mret (structural_errors ++ heading_errors ++ list_errors ++ table_errors
        ++ image_errors ++ general_formatting_errors, new_doc).

Section EntryPoint.

Variable add_comment_raises : Paragraph → Comment → bool.
Variable P : Passes.

Definition add_comments_to_document (w : World) (doc : Document)
    (errors : list ErrorRecord) (output_path author initials : str)
    : Result World :=
  save_document w
    (comment_errors add_comment_raises author initials doc errors)
    output_path.

(** The result and the file system the call leaves behind. *)
Definition check_document_formatting (w : World)
    (file_path new_file_path json_file_path : str) : bool * World :=
  if negb (os_path_exists w file_path) then (false, w)
  else
    match shutil_copyfile w file_path new_file_path with
    | Raise _ => (false, w)
    | Ok w =>
        if negb (os_path_exists w new_file_path) then (false, w)
        else
          match open_document w new_file_path with
          | Raise _ => (false, w)
          | Ok new_doc =>
              match run_passes P new_doc with
              | Raise _ => (false, w)
              | Ok (all_errors, new_doc) =>
                  let all_errors := remove_duplicate_errors all_errors in
                  match all_errors with
                  | [] =>
                      match save_document w new_doc new_file_path with
                      | Ok w => (true, w)
                      | Raise _ => (false, w)
                      end
                  | _ :: _ =>
                      match dump_json w all_errors json_file_path with
                      | Raise _ => (false, w)
                      | Ok w =>
                          match
                            add_comments_to_document w new_doc all_errors
                              new_file_path (U "Документёр") (U "F")
                          with
                          | Ok w => (true, w)
                          | Raise _ => (false, w)
                          end
                      end
                  end
              end
          end
    end.

End EntryPoint.

(** ** Sample data *)

Definition times_run (s : str) (size : Z) (bold : option bool) : Run :=
  {| r_text := s; font_name := Some (U "Times New Roman");
     font_size := Some size; font_bold := bold; font_italic := None;
     font_underline := None; r_page_break := false; r_shd := 0 |}.

(** A body-text paragraph: 14 pt, justified, 1.25 cm first-line indent,
    line spacing 1.5. *)
Definition body_paragraph (s : str) : Paragraph :=
  {| runs := [times_run s 177800%Z None]; style_name := U "Normal";
     alignment := Some WD_ALIGN_PARAGRAPH.JUSTIFY;
     first_line_indent := Some 450000%Z; left_indent := None;
     right_indent := None; space_before := None; space_after := None;
     line_spacing := Some (Multiple 1.5); numPr := None;
     page_break_before := false; comments := [] |}.

Definition sample_doc (ps : list Paragraph) : Document :=
  {| paragraphs := ps; tables := [];
     body := map BlockParagraph (seq 0 (length ps));
     default_style_name := U "Normal"; numbering := ∅ |}.

Definition sample_error (msg : str) (idx : Z)
    (ety : option DocumentElementType.t) : ErrorRecord :=
  {| err_type := classify msg; message := msg; paragraph_text := [];
     index := idx; element_type := ety |}.

Definition never_raises (p : Paragraph) (c : Comment) : bool := false.

Definition empty_world : World := {| files := ∅; locked := ∅ |}.

(** Passes that return the given table-pass records and nothing else. *)
Definition constant_passes (table_errors : list ErrorRecord) : Passes :=
  {| check_structural_elements_pass := λ d, Ok ([], [], [], [], d);
     check_table_formatting_pass := λ d, Ok (table_errors, [], d);
     check_image_formatting_pass := λ d _, Ok ([], [], d);
     check_headings_formatting_pass := λ d _ _ _ _ _, Ok ([], [], [], d);
     validate_lists_pass := λ d _ _ _ _ _ _ _ code, Ok ([], [], code, d);
     check_general_formatting_pass := λ d _ _ _, Ok (false, [], d) |}.







(** The record [check_table_formatting] emits for the open continuation
    (line 3295): of table kind, located by the paragraph position. *)
Definition continuation_error : ErrorRecord :=
  error_dict (U "Для таблицы '1' есть продолжение, но нет окончания")
    (ElParagraph (body_paragraph (U "Продолжение таблицы 1")))
    (Some 1%Z) (Some DocumentElementType.TABLE).

Definition world_with (path : str) (doc : Document) : World :=
  {| files := {[path := DocxFile doc]}; locked := ∅ |}.

Definition one_paragraph_doc : Document :=
  sample_doc [body_paragraph (U "Текст")].

Definition located_error : ErrorRecord :=
  sample_error (U "В тексте обнаружены двойные пробелы.") 0%Z
    (Some DocumentElementType.PARAGRAPH).

(** ** Regular expressions

    The fragment of Python's [re] the validator uses, with its
    backtracking semantics: alternatives are tried in order, repetition is
    greedy, and a numbered group records the text it matched last. *)

Module Re.

Inductive t :=
  | Eps
  | Cls (f : N → bool)
  | Seq (a b : t)
  | Alt (a b : t)
  | Star (a : t)
  | Grp (n : nat) (a : t)
  | Eol.

Definition Captures : Type := list (nat * str).

(** [run r s caps k]: match [r] at the head of [s] and hand the rest of
    the input to the continuation [k]; [None] makes the matcher backtrack.
    An iteration of [Star] must consume input. *)
Fixpoint run {A} (r : t) (s : str) (caps : Captures)
    (k : str → Captures → option A) : option A :=
  match r with
  | Eps => k s caps
  | Cls f =>
      match s with
      | c :: s' => if f c then k s' caps else None
      | [] => None
      end
  | Seq a b => run a s caps (λ s' caps', run b s' caps' k)
  | Alt a b =>
      match run a s caps k with
      | Some x => Some x
      | None => run b s caps k
      end
  | Star a =>
      (fix loop (fuel : nat) (s : str) (caps : Captures) : option A :=
         match fuel with
         | O => k s caps
         | S fuel' =>
             match
               run a s caps
                 (λ s' caps',
                    if (length s' <? length s)%nat then loop fuel' s' caps'
                    else None)
             with
             | Some x => Some x
             | None => k s caps
             end
         end) (length s) s caps
  | Grp n a =>
      run a s caps
        (λ s' caps', k s' ((n, take (length s - length s') s) :: caps'))
  | Eol =>
      match s with
      | [] => k s caps
      | [c] => if (c =? 10)%N then k s caps else None
      | _ => None
      end
  end.

Definition Plus (a : t) : t := Seq a (Star a).
Definition Opt (a : t) : t := Alt a Eps.
Definition Chr (c : N) : t := Cls (N.eqb c).

Fixpoint Lit (s : str) : t :=
  match s with
  | [] => Eps
  | c :: s' => Seq (Chr c) (Lit s')
  end.

Fixpoint Rep (n : nat) (a : t) : t :=
  match n with
  | O => Eps
  | S n' => Seq a (Rep n' a)
  end.

(** [\d], [\s], [.], [[А-Я]], [[а-я]] *)
Definition digit : t := Cls isdigit.
Definition space : t := Cls isspace.
Definition any : t := Cls (λ c, negb (c =? 10)%N).
Definition AYa : t := Cls is_AYa.
Definition aya : t := Cls is_aya.

(** The value of [m.group(n)]. *)
Fixpoint group (n : nat) (caps : Captures) : option str :=
  match caps with
  | [] => None
  | (m, g) :: caps' => if (m =? n)%nat then Some g else group n caps'
  end.

(** [re.match(r, s)]: the whole match [m.group(0)] and the groups. *)
Definition match_ (r : t) (s : str) : option (str * Captures) :=
  run r s [] (λ s' caps, Some (take (length s - length s') s, caps)).

(** [re.fullmatch(r, s)] *)
Definition fullmatch (r : t) (s : str) : option Captures :=
  run r s [] (λ s' caps, match s' with [] => Some caps | _ => None end).

(** [re.search(r, s)], as a truth value *)
Fixpoint search (r : t) (s : str) : bool :=
  match match_ r s with
  | Some _ => true
  | None =>
      match s with
      | [] => false
      | _ :: s' => search r s'
      end
  end.

(** [re.sub(r, f, s)] for a pattern that matches no empty string; [f]
    receives the groups of each match. *)
Fixpoint sub_go (fuel : nat) (r : t) (f : Captures → str) (s : str) : str :=
  match fuel with
  | O => s
  | S fuel' =>
      match s with
      | [] => []
      | c :: s' =>
          match match_ r s with
          | Some (g0, caps) =>
              match g0 with
              | [] => c :: sub_go fuel' r f s'
              | _ :: _ => f caps ++ sub_go fuel' r f (drop (length g0) s)
              end
          | None => c :: sub_go fuel' r f s'
          end
      end
  end.

Definition sub (r : t) (f : Captures → str) (s : str) : str :=
  sub_go (length s) r f s.

End Re.

(** ** List prefixes: [validate_prefix_format] *)

Import Re.

Definition paragraph_element (doc : Document) (i : nat) : Element :=
  match paragraphs doc !! i with
  | Some p => ElParagraph p
  | None => ElNone
  end.

(** [s.count(c)] *)
Definition count_char (c : N) (s : str) : nat :=
  length (filter (λ x, x = c) s).

(** Pattern [\d+ \. $] (patterns are spelled token by token) *)
Definition re_prefix_level1 : Re.t :=
  Seq (Plus digit) (Seq (Chr 46) Eol).

(** Pattern [\d+ (?: \. \d+ ){level - 1} $] *)
Definition re_prefix_level (level : nat) : Re.t :=
  Seq (Plus digit) (Seq (Rep (level - 1) (Seq (Chr 46) (Plus digit))) Eol).

Definition invalid_format_message : str :=
  U "В списке используется недопустимый формат. Разрешены только 1 2 3 и т.д.".

(** The [paragraph] argument is the position of the paragraph in
    [doc.paragraphs]; every caller passes one. *)
Definition validate_prefix_format (doc : Document) (prefix : str)
    (fmt : option str) (errors : list ErrorRecord) (full_text : str)
    (paragraph : nat) : list ErrorRecord :=
  let report msg :=
    add_error errors msg (paragraph_element doc paragraph)
      (Some (get_paragraph_index_by_content doc paragraph))
      (Some DocumentElementType.PARAGRAPH) in
  if decide (fmt = Some (U "decimal")) then
    let level :=
      if endswith prefix (U ".") then count_char 46 prefix
      else count_char 46 prefix + 1 in
    if level =? 1 then
      match Re.match_ re_prefix_level1 prefix with
      | Some _ => errors
      | None =>
          report (U "Нумерованный префикс '" ++ prefix
                  ++ U "' в списке первого уровня должен быть в формате 'X.'.")
      end
    else if (level =? 2) || (level =? 3) then
      match Re.match_ (re_prefix_level level) prefix with
      | Some _ => errors
      | None =>
          report (U "Нумерованный префикс '" ++ prefix ++ U "' в списке "
                  ++ PyStr.of_Z (Z.of_nat level)
                  ++ U "-го уровня должен быть в формате '"
                  ++ (if level =? 2 then U "X.Y" else U "X.Y.Z")
                  ++ U "' без завершающей точки.")
      end
    else
      report (U "Нумерованный префикс '" ++ prefix
              ++ U "' имеет недопустимую вложенность. Максимально разрешено 3 уровня.")
  else report invalid_format_message.

(** ** List extraction: [extract_list_items] *)

(** A list item: the prefix, the content and the paragraph position. *)
Definition ListItem : Type := str * str * nat.

Record ExtractState := {
  ex_groups : list (list ListItem);
  ex_resource_groups : list (list ListItem);
  ex_current : list ListItem;
  ex_counters : gmap (str * Z) Z;
  ex_errors : list ErrorRecord;
  ex_is_resource_section : bool
}.

Definition RU_LOWER : list str :=
  map (λ c, [c]) (U "абвгдежиклмнпрстуфхцшщэюя").

Definition ALLOWED_BULLET_CHARS : list str := [[61485%N]].

Definition resources_title : str :=
  U "Перечень использованных информационных ресурсов".

(** An empty paragraph that holds a page break or starts a page. *)
Definition is_page_break (p : Paragraph) : bool :=
  existsb r_page_break (runs p) || page_break_before p.

(** Pattern [^ ( \d+ (?: \. \d+ )* ) \s+ ( .+ )] *)
Definition re_heading : Re.t :=
  Seq (Grp 1 (Seq (Plus digit) (Star (Seq (Chr 46) (Plus digit)))))
    (Seq (Plus space) (Grp 2 (Plus any))).

Definition dot_or_paren (c : N) : bool := (c =? 46)%N || (c =? 41)%N.

(** Pattern [( \d+ | [а-я] ) [.\)] \s* ( .* )] *)
Definition re_manual_list : Re.t :=
  Seq (Grp 1 (Alt (Plus digit) aya))
    (Seq (Cls dot_or_paren) (Seq (Star space) (Grp 2 (Star any)))).

(** Pattern [( \d+ (?: \. \d+ )* [.\)]? | [а-я] \) ) \s* ( .* )] *)
Definition re_numbered_text : Re.t :=
  Seq (Grp 1 (Alt (Seq (Plus digit)
                     (Seq (Star (Seq (Chr 46) (Plus digit)))
                        (Opt (Cls dot_or_paren))))
                (Seq aya (Chr 41))))
    (Seq (Star space) (Grp 2 (Star any))).

(** Pattern [% ( [1-9] \d* )] *)
Definition re_template_field : Re.t :=
  Seq (Chr 37) (Grp 1 (Seq (Cls (between 49 57)) (Star digit))).

(** [num_map.get(nid, {}).get(lvl, {})] *)
Definition fmt_info (num_map : NumberingFormats) (nid : str) (lvl : Z)
    : option (str * str) :=
  num_map !! nid ≫= λ levels, levels !! lvl.

(** The local function [mk]: the rendering of the counter of a level. *)
Definition mk (num_map : NumberingFormats) (counters : gmap (str * Z) Z)
    (nid : str) (i_lvl : Z) : str :=
  let cnt := default 1%Z (counters !! (nid, i_lvl)) in
  let f := default (U "decimal") (fst <$> fmt_info num_map nid i_lvl) in
  if PyStr.eqb f (U "russianLower") then
    default [] (RU_LOWER !! Z.to_nat (Z.modulo (cnt - 1) 25))
  else PyStr.of_Z cnt.

(** [s.rstrip('.')] and [s.lstrip(chars)] *)
Definition rstrip_dots (s : str) : str :=
  rev (drop_while (N.eqb 46) (rev s)).
Definition lstrip_chars (chars : str) (s : str) : str :=
  drop_while (λ c, bool_decide (c ∈ chars)) s.

Definition manual_list_message : str :=
  U "Список использует текстовый набор. Ожидается стандартный стиль списков Word.".

Definition close_group (st : ExtractState) : ExtractState :=
  {| ex_groups :=
       if ex_is_resource_section st then ex_groups st
       else ex_groups st ++ [ex_current st];
     ex_resource_groups :=
       if ex_is_resource_section st
       then ex_resource_groups st ++ [ex_current st]
       else ex_resource_groups st;
     ex_current := []; ex_counters := ∅; ex_errors := ex_errors st;
     ex_is_resource_section := false |}.

Definition set_errors_current (st : ExtractState)
    (errors : list ErrorRecord) (current : list ListItem) : ExtractState :=
  {| ex_groups := ex_groups st; ex_resource_groups := ex_resource_groups st;
     ex_current := current; ex_counters := ex_counters st;
     ex_errors := errors;
     ex_is_resource_section := ex_is_resource_section st |}.

Definition set_counters (st : ExtractState) (counters : gmap (str * Z) Z)
    : ExtractState :=
  {| ex_groups := ex_groups st; ex_resource_groups := ex_resource_groups st;
     ex_current := ex_current st; ex_counters := counters;
     ex_errors := ex_errors st;
     ex_is_resource_section := ex_is_resource_section st |}.

(** The branch of a paragraph without numbering reference. *)
Definition extract_plain (st : ExtractState) (i : nat) (p : Paragraph)
    (full_text : str) : ExtractState :=
  match full_text with
  | [] => st
  | _ :: _ =>
      match Re.match_ re_heading full_text with
      | Some _ => st
      | None =>
          match Re.match_ re_manual_list full_text with
          | Some (g0, caps) =>
              let prefix :=
                default [] (Re.group 1 caps)
                ++ match last g0 with Some c => [c] | None => [] end in
              let text := strip (default [] (Re.group 2 caps)) in
              set_errors_current st
                (add_error (ex_errors st) manual_list_message
                   (ElParagraph p) (Some (Z.of_nat i))
                   (Some DocumentElementType.PARAGRAPH))
                (ex_current st ++ [(prefix, text, i)])
          | None =>
              match ex_current st with
              | [] => st
              | _ :: _ => close_group st
              end
          end
      end
  end.

(** The branch of a paragraph with the numbering reference [(nid, lvl)]. *)
Definition extract_numbered (doc : Document) (st : ExtractState) (i : nat)
    (p : Paragraph) (full_text nid : str) (lvl : Z) : ExtractState :=
  let num_map := numbering doc in
  let key := (nid, lvl) in
  let counters :=
    <[key := (default 0 (ex_counters st !! key) + 1)%Z]> (ex_counters st) in
  let counters :=
    filter (λ kv, ¬ (kv.1.1 = nid ∧ (kv.1.2 > lvl)%Z)) counters in
  let st := set_counters st counters in
  let info := fmt_info num_map nid lvl in
  let fmt := fst <$> info in
  let tpl := default (U "%1") (snd <$> info) in
  if decide (fmt = Some (U "bullet")) then
    let bullet_char := match tpl with [] => [61485%N] | _ :: _ => tpl end in
    let errors :=
      if bool_decide (bullet_char ∈ ALLOWED_BULLET_CHARS) then ex_errors st
      else add_error (ex_errors st)
             (U "Недопустимый маркер в маркированном списке. Ожидается стандартный стиль списков Word: '‒'.")
             (ElParagraph p) (Some (Z.of_nat i))
             (Some DocumentElementType.PARAGRAPH) in
    let prefix := bullet_char in
    let text :=
      strip (lstrip_chars (concat ALLOWED_BULLET_CHARS ++ U "‒") full_text) in
    if ex_is_resource_section st then
      set_errors_current st
        (add_error errors
           (U "В списке ресурсов недопустим маркированный список.Ожидается формат 1 2 3 и т.д.")
           (ElParagraph p) (Some (Z.of_nat i))
           (Some DocumentElementType.PARAGRAPH))
        (ex_current st)
    else set_errors_current st errors (ex_current st ++ [(prefix, text, i)])
  else
    let prefix :=
      Re.sub re_template_field
        (λ caps,
           mk num_map counters nid
             (PyStr.to_Z (default [] (Re.group 1 caps)) - 1)%Z)
        tpl in
    let prefix := if endswith tpl (U ".") then prefix else rstrip_dots prefix in
    let text :=
      match Re.match_ re_numbered_text full_text with
      | Some (_, caps) =>
          match Re.group 2 caps with
          | Some ((_ :: _) as g2) => strip g2
          | _ => strip full_text
          end
      | None => strip full_text
      end in
    let errors :=
      validate_prefix_format doc prefix fmt (ex_errors st) full_text i in
    set_errors_current st errors (ex_current st ++ [(prefix, text, i)]).

(** The body of [for i, p in enumerate(doc.paragraphs)]. *)
Definition extract_step (doc : Document) (st : ExtractState)
    (ip : nat * Paragraph) : ExtractState :=
  let '(i, p) := ip in
  let full_text := strip (text p) in
  if PyStr.eqb full_text [] && is_page_break p then st
  else if PyStr.eqb full_text resources_title then
    match ex_current st with
    | [] =>
        {| ex_groups := ex_groups st;
           ex_resource_groups := ex_resource_groups st;
           ex_current := ex_current st; ex_counters := ex_counters st;
           ex_errors := ex_errors st; ex_is_resource_section := true |}
    | _ :: _ =>
        {| ex_groups := ex_groups st ++ [ex_current st];
           ex_resource_groups := ex_resource_groups st;
           ex_current := []; ex_counters := ∅;
           ex_errors := ex_errors st; ex_is_resource_section := true |}
    end
  else
    match numPr p with
    | None => extract_plain st i p full_text
    | Some (nid, lvl) => extract_numbered doc st i p full_text nid lvl
    end.

Definition extract_init : ExtractState :=
  {| ex_groups := []; ex_resource_groups := []; ex_current := [];
     ex_counters := ∅; ex_errors := []; ex_is_resource_section := false |}.

(** [enumerate(l)] *)
Definition enumerate {A} (l : list A) : list (nat * A) := imap pair l.

Definition extract_list_items (doc : Document)
    : list (list ListItem) * list (list ListItem) * list ErrorRecord :=
  let st := fold_left (extract_step doc) (enumerate (paragraphs doc))
              extract_init in
  let st :=
    match ex_current st with
    | [] => st
    | _ :: _ =>
        {| ex_groups :=
             if ex_is_resource_section st then ex_groups st
             else ex_groups st ++ [ex_current st];
           ex_resource_groups :=
             if ex_is_resource_section st
             then ex_resource_groups st ++ [ex_current st]
             else ex_resource_groups st;
           ex_current := ex_current st; ex_counters := ex_counters st;
           ex_errors := ex_errors st;
           ex_is_resource_section := ex_is_resource_section st |}
    end in
  (ex_groups st, ex_resource_groups st, ex_errors st).

(** A numbered list paragraph and a numbering catalog with a decimal and a
    lowercase-Cyrillic definition. *)
Definition numbered_paragraph (s nid : str) (lvl : Z) : Paragraph :=
  {| runs := [times_run s 177800%Z None]; style_name := U "Normal";
     alignment := Some WD_ALIGN_PARAGRAPH.JUSTIFY;
     first_line_indent := Some 450000%Z; left_indent := None;
     right_indent := None; space_before := None; space_after := None;
     line_spacing := Some (Multiple 1.5); numPr := Some (nid, lvl);
     page_break_before := false; comments := [] |}.

Definition sample_numbering : NumberingFormats :=
  {[ U "1" := {[ 0%Z := (U "decimal", U "%1.") ]};
     U "2" := {[ 0%Z := (U "russianLower", U "%1)") ]} ]}.

Definition lettered_list_doc : Document :=
  {| paragraphs := [numbered_paragraph (U "первый,") (U "2") 0;
                    numbered_paragraph (U "второй.") (U "2") 0];
     tables := []; body := [BlockParagraph 0; BlockParagraph 1];
     default_style_name := U "Normal"; numbering := sample_numbering |}.

(** ** Formatting predicates shared by the passes *)

Abbreviation Errors := (list ErrorRecord).

(** A check appends its records to the list it is given. *)
Definition Check : Type := Errors → Errors.

Definition report (msg : str) (element : Element) (idx : Z)
    (ety : DocumentElementType.t) : Check :=
  λ errors, add_error errors msg element (Some idx) (Some ety).

Definition when (b : bool) (c : Check) : Check := if b then c else id.

Definition checks (cs : list Check) : Check :=
  λ errors, fold_left (λ e c, c e) cs errors.

Definition for_each {A} (l : list A) (c : A → Check) : Check :=
  λ errors, fold_left (λ e x, c x e) l errors.

(** [run.text.strip()] is not empty *)
Definition nonblank (r : Run) : bool := negb (PyStr.eqb (strip (r_text r)) []).

(** [size is None or size.pt != v] *)
Definition size_missing_or_not (size : option Z) (v : float) : bool :=
  match size with
  | None => true
  | Some z => fneq (pt z) v
  end.

(** [size and size.pt != v] *)
Definition size_given_and_not (size : option Z) (v : float) : bool :=
  match size with
  | None => false
  | Some z => negb (z =? 0)%Z && fneq (pt z) v
  end.

(** [x and abs(x.inches) > 0.01] and [x and abs(x.pt) > 0.01] *)
Definition inches_exceed (x : option Z) : bool :=
  match x with
  | None => false
  | Some z => negb (z =? 0)%Z && fgt (PrimFloat.abs (inches z)) 0.01
  end.

Definition pt_exceed (x : option Z) : bool :=
  match x with
  | None => false
  | Some z => negb (z =? 0)%Z && fgt (PrimFloat.abs (pt z)) 0.01
  end.

(** [font.name != s] and [font.name == s] *)
Definition name_is (name : option str) (s : str) : bool :=
  bool_decide (name = Some s).

(** [font.name and s not in font.name] *)
Definition name_given_without (name : option str) (s : str) : bool :=
  match name with
  | Some ((_ :: _) as n) => negb (contains n s)
  | _ => false
  end.

Definition alignment_is (a : option WD_ALIGN_PARAGRAPH.t)
    (x : WD_ALIGN_PARAGRAPH.t) : bool := bool_decide (a = Some x).

(** The list [indent_errors] joined by [' и ']. *)
Definition indent_sides (p : Paragraph) : list str :=
  (if inches_exceed (left_indent p) then [U "слева"] else [])
  ++ (if inches_exceed (right_indent p) then [U "справа"] else []).

Definition spacing_given (p : Paragraph) : bool :=
  pt_exceed (space_before p) || pt_exceed (space_after p).

(** [any(run.font.name == "Courier New" for run in p.runs
         if run.text.strip() and run.font.name)] *)
Definition is_code (p : Paragraph) : bool :=
  existsb (λ r, nonblank r && name_is (font_name r) (U "Courier New"))
    (runs p).

(** ** Structural elements: [check_structural_elements] *)

Definition allowed_appendix_letters : list str :=
  [U "А"; U "Б"; U "В"; U "Г"; U "Д"; U "Е"; U "Ж"; U "И"; U "К"; U "Л";
   U "М"; U "Н"; U "П"; U "Р"; U "С"; U "Т"; U "У"; U "Ф"; U "Х"; U "Ц";
   U "Ш"; U "Щ"; U "Э"; U "Ю"; U "Я"].

(** [str(l)] for a list of strings without quotes in them *)
Definition repr_list (l : list str) : str :=
  U "[" ++ join (U ", ") (map (λ s, U "'" ++ s ++ U "'") l) ++ U "]".

Record StructState := {
  ss_errors : Errors;
  ss_structural : list nat;
  ss_listings : list (nat * Errors);
  ss_code : list nat;
  ss_expected : list (str * bool);
  ss_letters : gset str
}.

(** The checks the required titles and the appendix headers share; [what]
    is ["В структурном элементе"] or ["В приложении"]. *)
Definition check_title_formatting (what : str) (p : Paragraph) (i : nat)
    : Check :=
  let el := ElParagraph p in
  let idx := Z.of_nat i in
  let ety := DocumentElementType.PARAGRAPH in
  checks [
    for_each (runs p) (λ run,
      when (nonblank run) (checks [
        when (negb (name_is (font_name run) (U "Times New Roman")))
          (report (what ++ U " шрифт должен быть Times New Roman.") el idx ety);
        when (size_missing_or_not (font_size run) 16)
          (report (what ++ U " размер шрифта должен быть 16 pt.") el idx ety);
        when (negb (truthy (font_bold run)))
          (report (what ++ U " текст должен быть полужирным.") el idx ety)]));
    when (negb (alignment_is (alignment p) WD_ALIGN_PARAGRAPH.CENTER))
      (report (what ++ U " выравнивание должно быть по центру.") el idx ety);
    when (size_given_and_not (first_line_indent p) 0)
      (report (what ++ U " отступ первой строки не допускается.") el idx ety);
    when (negb (bool_decide (indent_sides p = [])))
      (report (what ++ U " отступ " ++ join (U " и ") (indent_sides p)
               ++ U " не допускается.") el idx ety);
    when (spacing_given p)
      (report (what ++ U " интервал перед или после абзаца не допускается.")
         el idx ety)].

(** The letter check of an appendix header: the records it adds and the
    set of accepted letters it leaves. *)
Definition check_appendix_letter (letter : str) (p : Paragraph) (i : nat)
    (errors : Errors) (appendix_letters : gset str) : Errors * gset str :=
  if negb (length letter =? 1)
     || negb (bool_decide (letter ∈ allowed_appendix_letters)) then
    (report (U "Некорректная буква приложения: '" ++ letter
             ++ U "'. Ожидается одна буква из "
             ++ repr_list allowed_appendix_letters ++ U ".")
       (ElParagraph p) (Z.of_nat i) DocumentElementType.PARAGRAPH errors,
     appendix_letters)
  else if bool_decide (letter ∈ appendix_letters) then
    (report (U "Повторяющаяся буква приложения: '" ++ letter ++ U "'.")
       (ElParagraph p) (Z.of_nat i) DocumentElementType.PARAGRAPH errors,
     appendix_letters)
  else (errors, {[letter]} ∪ appendix_letters).

(** Pattern [Листинг ( \d+ (?: \. \d+ )? ) – ( .+ )] *)
Definition re_listing : Re.t :=
  Seq (Lit (U "Листинг "))
    (Seq (Grp 1 (Seq (Plus digit) (Opt (Seq (Chr 46) (Plus digit)))))
       (Seq (Lit (U " – ")) (Grp 2 (Plus any)))).

Definition check_listing_caption (text : str) (p : Paragraph) (i : nat)
    : Check :=
  let el := ElParagraph p in
  let idx := Z.of_nat i in
  let ety := DocumentElementType.PARAGRAPH in
  checks [
    match Re.match_ re_listing text with
    | None =>
        report (U "Некорректная подпись листинга. Ожидается формат 'Листинг X – Название' или 'Листинг Y.X – Название'.")
          el idx ety
    | Some (_, caps) =>
        when (negb (match default [] (Re.group 2 caps) with
                    | c :: _ => isupper c
                    | [] => false
                    end))
          (report (U "Название листинга должно начинаться с заглавной буквы.")
             el idx ety)
    end;
    for_each (runs p) (λ run,
      when (nonblank run) (checks [
        when (negb (name_is (font_name run) (U "Times New Roman")))
          (report (U "У подписи листинга шрифт должен быть Times New Roman.")
             el idx ety);
        when (size_missing_or_not (font_size run) 14)
          (report (U "У подписи листинга размер шрифта должен быть 14 pt.")
             el idx ety);
        when (truthy (font_bold run) || truthy (font_italic run))
          (report (U "У подписи листинга недопустимы жирный или курсив.")
             el idx ety)]));
    when (negb (alignment_is (alignment p) WD_ALIGN_PARAGRAPH.JUSTIFY))
      (report (U "У подписи листинга выравнивание должно быть по центру.")
         el idx ety);
    when (size_given_and_not (first_line_indent p) 0)
      (report (U "У подписи листинга отступ первой строки не допускается.")
         el idx ety);
    when (negb (bool_decide (indent_sides p = [])))
      (report (U "У подписи листинга отступ "
               ++ join (U " и ") (indent_sides p) ++ U " не допускается.")
         el idx ety);
    when (spacing_given p)
      (report (U "В подписи листинга интервал перед или после абзаца не допускается.")
         el idx ety)].

(** The checks of a code paragraph; [check_alignment] is set for a
    paragraph found outside a listing. *)
Definition check_code_paragraph (check_alignment : bool) (p : Paragraph)
    (i : nat) : Check :=
  let el := ElParagraph p in
  let idx := Z.of_nat i in
  let ety := DocumentElementType.PARAGRAPH in
  checks [
    for_each (runs p) (λ run,
      when (nonblank run) (checks [
        when (size_missing_or_not (font_size run) 12)
          (report (U "В коде размер шрифта должен быть 12 pt.") el idx ety);
        when (truthy (font_bold run) || truthy (font_italic run)
              || truthy (font_underline run))
          (report (U "В коде недопустимы жирный, курсив или подчеркивание.")
             el idx ety)]));
    when (check_alignment
          && negb (alignment_is (alignment p) WD_ALIGN_PARAGRAPH.LEFT
                   || bool_decide (alignment p = None)))
      (report (U "В коде выравнивание должно быть по левому краю.")
         el idx ety);
    when (size_given_and_not (first_line_indent p) 0)
      (report (U "В коде отступ первой строки не допускается.") el idx ety);
    when (negb (bool_decide (indent_sides p = [])))
      (report (U "В коде отступ " ++ join (U " и ") (indent_sides p)
               ++ U " не допускается.") el idx ety);
    when (spacing_given p)
      (report (U "В коде интервал перед или после абзаца не допускается.")
         el idx ety)].

(** [d[key] = True] on an association list that holds [key] *)
Definition mark_present (key : str) (d : list (str * bool))
    : list (str * bool) :=
  map (λ kv, if PyStr.eqb kv.1 key then (kv.1, true) else kv) d.

Definition has_key (key : str) (d : list (str * bool)) : bool :=
  existsb (λ kv, PyStr.eqb kv.1 key) d.

(** The body of [for i, paragraph in enumerate(doc.paragraphs)]. *)
Definition structural_step (doc : Document) (st : StructState)
    (ip : nat * Paragraph) : StructState :=
  let '(i, paragraph) := ip in
  let text := strip (text paragraph) in
  match text with
  | [] => st
  | _ :: _ =>
      if has_key text (ss_expected st) then
        {| ss_errors :=
             check_title_formatting (U "В структурном элементе") paragraph i
               (ss_errors st);
           ss_structural := ss_structural st ++ [i];
           ss_listings := ss_listings st; ss_code := ss_code st;
           ss_expected := mark_present text (ss_expected st);
           ss_letters := ss_letters st |}
      else if startswith text (U "Приложение") then
        let letter := strip (drop (length (U "Приложение ")) text) in
        let '(errors, letters) :=
          check_appendix_letter letter paragraph i (ss_errors st)
            (ss_letters st) in
        {| ss_errors :=
             check_title_formatting (U "В приложении") paragraph i errors;
           ss_structural := ss_structural st ++ [i];
           ss_listings := ss_listings st; ss_code := ss_code st;
           ss_expected := ss_expected st; ss_letters := letters |}
      else
        let is_structural := startswith text (U "Листинг") in
        let listings :=
          if is_structural then
            ss_listings st ++ [(i, check_listing_caption text paragraph i [])]
          else ss_listings st in
        (* the code paragraph that follows a listing caption *)
        let '(errors, code) :=
          match paragraphs doc !! S i with
          | Some next_paragraph =>
              if is_structural && is_code next_paragraph then
                (check_code_paragraph false next_paragraph (S i)
                   (ss_errors st),
                 ss_code st ++ [S i])
              else (ss_errors st, ss_code st)
          | None => (ss_errors st, ss_code st)
          end in
        (* code in any other paragraph *)
        let '(errors, code) :=
          if is_code paragraph && negb is_structural then
            (check_code_paragraph true paragraph i errors, code ++ [i])
          else (errors, code) in
        {| ss_errors := errors; ss_structural := ss_structural st;
           ss_listings := listings; ss_code := code;
           ss_expected := ss_expected st; ss_letters := ss_letters st |}
  end.

Definition structural_init : StructState :=
  {| ss_errors := []; ss_structural := []; ss_listings := []; ss_code := [];
     ss_expected := [(U "Введение", false); (U "Заключение", false);
                     (resources_title, false)];
     ss_letters := ∅ |}.

(** The state after the scan of the first [n] paragraphs. *)
Definition structural_scan (doc : Document) (n : nat) : StructState :=
  fold_left (structural_step doc) (take n (enumerate (paragraphs doc)))
    structural_init.

(** The errors, the structural paragraphs, [listings_info] and the code
    paragraphs. *)
Definition check_structural_elements (doc : Document)
    : Errors * list nat * list (nat * Errors) * list nat :=
  let st := structural_scan doc (length (paragraphs doc)) in
  let errors :=
    for_each (ss_expected st) (λ kv,
      when (negb kv.2)
        (report (U "Отсутствует правильно оформленный обязательный структурный элемент: "
                 ++ kv.1 ++ U ".")
           (ElStr kv.1) 0 DocumentElementType.PARAGRAPH))
      (ss_errors st) in
  let errors := errors ++ concat (map snd (ss_listings st)) in
  (errors, ss_structural st, ss_listings st, ss_code st).

(** The keys of [expected_elements]. *)
Definition required_titles : list str :=
  [U "Введение"; U "Заключение"; resources_title].

(** The header test and the letter that [check_structural_elements]
    reads from a paragraph, and the two letter records. *)
Definition is_appendix_header (p : Paragraph) : bool :=
  startswith (strip (text p)) (U "Приложение").

Definition appendix_letter (p : Paragraph) : str :=
  strip (drop (length (U "Приложение ")) (strip (text p))).

Definition valid_appendix_letter (letter : str) : bool :=
  (length letter =? 1) && bool_decide (letter ∈ allowed_appendix_letters).

Definition invalid_letter_error (i : nat) (p : Paragraph) : ErrorRecord :=
  error_dict
    (U "Некорректная буква приложения: '" ++ appendix_letter p
     ++ U "'. Ожидается одна буква из "
     ++ repr_list allowed_appendix_letters ++ U ".")
    (ElParagraph p) (Some (Z.of_nat i)) (Some DocumentElementType.PARAGRAPH).

Definition duplicate_letter_error (i : nat) (p : Paragraph) : ErrorRecord :=
  error_dict
    (U "Повторяющаяся буква приложения: '" ++ appendix_letter p ++ U "'.")
    (ElParagraph p) (Some (Z.of_nat i)) (Some DocumentElementType.PARAGRAPH).

(** An appendix header: 16 pt bold centred Times New Roman. *)
Definition appendix_paragraph (s : str) : Paragraph :=
  {| runs := [times_run s 203200%Z (Some true)]; style_name := U "Normal";
     alignment := Some WD_ALIGN_PARAGRAPH.CENTER;
     first_line_indent := None; left_indent := None;
     right_indent := None; space_before := None; space_after := None;
     line_spacing := Some (Multiple 1.5); numPr := None;
     page_break_before := false; comments := [] |}.

Definition yo_appendix_doc : Document :=
  sample_doc [appendix_paragraph (U "Приложение Ё")].

Definition twice_a_appendix_doc : Document :=
  sample_doc [appendix_paragraph (U "Приложение А");
              body_paragraph (U "Текст приложения.");
              appendix_paragraph (U "Приложение А")].

(** ** Headings: [check_headings_formatting] *)

Definition caption_prefixes : list str :=
  [U "Таблица "; U "Рисунок "; U "Листинг "; U "Продолжение таблицы ";
   U "Окончание таблицы "].

(** [text.startswith((p1, p2, ...))] *)
Definition startswith_any (text : str) (prefixes : list str) : bool :=
  existsb (startswith text) prefixes.

(** [text in {"Введение", "Заключение", "Перечень ..."}
     or text.startswith("Приложение ")] *)
Definition is_structural_text (text : str) : bool :=
  bool_decide (text ∈ required_titles) || startswith text (U "Приложение ").

(** [any(run.font.bold for run in paragraph.runs if run.text.strip())] *)
Definition has_bold (p : Paragraph) : bool :=
  existsb (λ r, nonblank r && truthy (font_bold r)) (runs p).

(** [check_double_spaces]: [re.search(r' {2,}', text)] *)
Definition check_double_spaces (text : str) (p : Paragraph) (i : nat)
    : Check :=
  when (Re.search (Seq (Chr 32) (Plus (Chr 32))) text)
    (report (U "В тексте обнаружены двойные пробелы. Допускается только один пробел между словами.")
       (ElParagraph p) (Z.of_nat i) DocumentElementType.PARAGRAPH).

(** Pattern [^ \d+ (?: \. \d+ )* \s+ .*] *)
Definition re_heading_format : Re.t :=
  Seq (Plus digit)
    (Seq (Star (Seq (Chr 46) (Plus digit))) (Seq (Plus space) (Star any))).

(** Pattern [^ ( [-–—•] | \d+ (?: [.\)] \s | \s ) | [а-я] [.\)] \s ) .*] *)
Definition re_list_marker : Re.t :=
  Seq (Grp 1
         (Alt (Cls (λ c, bool_decide (c ∈ U "-–—•")))
            (Alt (Seq (Plus digit)
                    (Alt (Seq (Cls dot_or_paren) space) space))
               (Seq aya (Seq (Cls dot_or_paren) space)))))
    (Star any).

Definition is_textual_list (p : Paragraph) (i : nat) (excluded : list nat)
    : bool :=
  if bool_decide (numPr p ≠ None) || bool_decide (i ∈ excluded) then false
  else
    let text := strip (text p) in
    if PyStr.eqb text [] then false
    else if startswith_any text caption_prefixes then false
    else if is_structural_text text then false
    else if is_code p then false
    else
      let has_heading_size :=
        existsb (λ r, nonblank r
                      && match font_size r with
                         | Some z => negb (z =? 0)%Z && PrimFloat.eqb (pt z) 16
                         | None => false
                         end) (runs p) in
      let is_heading_format :=
        bool_decide (is_Some (Re.match_ re_heading_format text)) in
      if has_bold p || has_heading_size || is_heading_format then false
      else bool_decide (is_Some (Re.match_ re_list_marker text)).

(** [l[k]] with Python's negative positions *)
Definition py_nth {A} (l : list A) (k : Z) : option A :=
  if (k <? 0)%Z then
    if (k + Z.of_nat (length l) <? 0)%Z then None
    else l !! Z.to_nat (k + Z.of_nat (length l))
  else l !! Z.to_nat k.

(** [doc.paragraphs[k].text.strip() == ''] *)
Definition blank_at (doc : Document) (k : Z) : bool :=
  match py_nth (paragraphs doc) k with
  | Some p => PyStr.eqb (strip (text p)) []
  | None => false
  end.

(** [re.split(r'(?<=[.!?])\s+', title)]: the title cut at every run of
    white space that follows one of [.!?]. *)
Definition is_sentence_end (c : N) : bool :=
  (c =? 46)%N || (c =? 33)%N || (c =? 63)%N.

Fixpoint split_sentences_go (skipping after_end : bool) (cur : str)
    (s : str) : list str :=
  match s with
  | [] => [rev cur]
  | c :: s' =>
      if skipping && isspace c then split_sentences_go true false cur s'
      else if isspace c && after_end then
        rev cur :: split_sentences_go true false [] s'
      else split_sentences_go false (is_sentence_end c) (c :: cur) s'
  end.

Definition split_sentences (title : str) : list str :=
  split_sentences_go false false [] title.

(** [title[-1] in '.!?,;:-'] *)
Definition ends_with_punctuation (title : str) : bool :=
  match last title with
  | Some c => bool_decide (c ∈ U ".!?,;:-")
  | None => false
  end.

(** [l[:-1]] and [l[-1]] of a non-empty list of numbers *)
Definition init_parts (l : list Z) : list Z := take (length l - 1) l.
Definition last_part (l : list Z) : Z := default 0%Z (last l).

(** ['.'.join(map(str, parts))] *)
Definition join_numbers (parts : list Z) : str :=
  join (U ".") (map PyStr.of_Z parts).

(** Lines 1739-1796: the continuity check of an accepted heading against
    [last_heading_numbers], and the update of that dictionary. *)
Definition check_heading_numbering (last_heading_numbers : gmap nat (list Z))
    (number_parts : list Z) (p : Paragraph) (i : nat)
    : Check * gmap nat (list Z) :=
  let el := ElParagraph p in
  let idx := Z.of_nat i in
  let ety := DocumentElementType.PARAGRAPH in
  let level := length number_parts in
  let last_parts :=
    match default (replicate level 0%Z) (last_heading_numbers !! level) with
    | [] => replicate level 0%Z
    | l => l
    end in
  let mismatch (parent_level : nat) : bool :=
    let parent_parts := default [] (last_heading_numbers !! parent_level) in
    (parent_level <? length number_parts)
    && negb (bool_decide (take parent_level parent_parts
                          = take parent_level number_parts)) in
  let parent_levels := seq 1 (level - 1) in
  let parent_mismatch := existsb mismatch parent_levels in
  let check :=
    checks [
      for_each parent_levels (λ parent_level,
        when (mismatch parent_level)
          (report (U "Нарушена последовательность родительских номеров заголовка. Ожидался родительский номер.")
             el idx ety));
      when (negb parent_mismatch)
        (if bool_decide (init_parts number_parts = init_parts last_parts)
            && negb (last_part number_parts =? last_part last_parts + 1)%Z
         then
           report (U "Нарушена последовательность нумерации заголовка. Ожидалось '"
                   ++ join_numbers (init_parts last_parts
                                    ++ [(last_part last_parts + 1)%Z])
                   ++ U "'.") el idx ety
         else
           when (negb (bool_decide
                         (init_parts number_parts = init_parts last_parts))
                 && negb (last_part number_parts =? 1)%Z)
             (report (U "Подзаголовок должен начинаться с '1'. Ожидалось '"
                      ++ join_numbers (init_parts number_parts ++ [1%Z])
                      ++ U "'.") el idx ety))] in
  let updated :=
    filter (λ kv, ¬ (level < kv.1))
      (<[level := number_parts]> last_heading_numbers) in
  (check, updated).

(** What the loop decides for a paragraph before the numbering check. *)
Inductive HeadingGate :=
  | (* not a heading; [candidate] tells whether it joins [list_candidates] *)
    NotHeading (candidate : bool)
  | (* a heading with the number [number], split into [number_parts] *)
    IsHeading (number : str) (number_parts : list Z).

(** Lines 1574-1737: the checks up to the decision, and the decision. *)
Definition heading_gate (doc : Document) (excluded : list nat) (i : nat)
    (p : Paragraph) : Check * HeadingGate :=
  let el := ElParagraph p in
  let idx := Z.of_nat i in
  let ety := DocumentElementType.PARAGRAPH in
  let text := strip (text p) in
  if PyStr.eqb text [] || bool_decide (i ∈ excluded) then
    (id, NotHeading true)
  else
    let c0 := check_double_spaces text p i in
    if startswith_any text caption_prefixes then (c0, NotHeading true)
    else if is_structural_text text then (c0, NotHeading true)
    else if negb (has_bold p) then
      (checks [c0;
               when (is_textual_list p i excluded)
                 (report manual_list_message el idx ety)],
       NotHeading true)
    else
      match Re.match_ re_heading text with
      | None => (c0, NotHeading true)
      | Some (_, caps) =>
          let number := default [] (Re.group 1 caps) in
          let title := strip (default [] (Re.group 2 caps)) in
          let number_parts := map PyStr.to_Z (split_on 46 number) in
          let level := length number_parts in
          if 3 <? level then
            (checks [c0;
                     report (U "Уровень заголовка (" ++ number
                             ++ U ") превышает допустимый (максимум 3 уровня).")
                       el idx ety],
             NotHeading true)
          else
            let expected_font_size : float :=
              if level =? 1 then 16%float else 14%float in
            let font_sizes :=
              omap (λ r, match font_size r with
                         | Some z =>
                             if negb (z =? 0)%Z && nonblank r
                             then Some (pt z) else None
                         | None => None
                         end) (runs p) in
            let is_heading :=
              has_bold p
              && (bool_decide (font_sizes = [])
                  || existsb (λ size, PrimFloat.eqb size expected_font_size)
                       font_sizes) in
            let sentences :=
              filter (λ s, s ≠ []) (split_sentences title) in
            let one := (length sentences =? 1) && ends_with_punctuation title in
            let two :=
              negb one && (length sentences =? 2)
              && ends_with_punctuation title in
            let punctuation_error :=
              negb (PyStr.eqb title []) && (one || two) in
            let c :=
              checks [
                c0;
                when (bool_decide
                        (is_Some
                           (Re.match_
                              (Seq (Plus digit)
                                 (Seq (Star (Seq (Chr 46) (Plus digit)))
                                    (Seq space (Plus space)))) text)))
                  (report (U "Заголовок должен иметь ровно один пробел между номером и текстом.")
                     el idx ety);
                when (match title with
                      | c :: _ => negb (isupper c)
                      | [] => false
                      end)
                  (report (U "Заголовок должен начинаться с заглавной буквы.")
                     el idx ety);
                when (negb (PyStr.eqb title []) && one)
                  (report (U "Заголовок из одного предложения не должен заканчиваться знаком препинания.")
                     el idx ety);
                when (negb (PyStr.eqb title []) && two)
                  (report (U "Заголовок из двух предложений не должен заканчиваться знаком препинания.")
                     el idx ety)] in
            if is_heading && negb punctuation_error then
              (c, IsHeading number number_parts)
            else
              (checks [c;
                       report (U "Потенциальный заголовок не соответствует форматированию")
                         el idx ety],
               NotHeading (bool_decide (numPr p = None)))
      end.

(** [str(x)] for the two expected line spacings *)
Definition line_spacing_text (two_lines : bool) : str :=
  if two_lines then U "1.0" else U "1.5".

(** The value of a line spacing as a number *)
Definition line_spacing_value (ls : LineSpacing) : float :=
  match ls with
  | Multiple f => f
  | Exact emu => float_of_Z emu
  end.

(** Lines 1798-1953: the checks of an accepted heading after the
    numbering check. *)
Definition check_heading_format (doc : Document) (i : nat) (p : Paragraph)
    (number : str) (number_parts : list Z) : Check :=
  let el := ElParagraph p in
  let idx := Z.of_nat i in
  let ety := DocumentElementType.PARAGRAPH in
  let text := strip (text p) in
  let level := length number_parts in
  let expected_font_size : float :=
    if level =? 1 then 16%float else 14%float in
  let n := Z.of_nat (length (paragraphs doc)) in
  let has_two_empty_lines_before :=
    (idx - 2 <? n)%Z && blank_at doc (idx - 1) && blank_at doc (idx - 2) in
  let has_two_empty_lines_after :=
    (idx + 2 <? n)%Z && blank_at doc (idx + 1) && blank_at doc (idx + 2) in
  let is_two_lines :=
    existsb (λ r, bool_decide (10%N ∈ r_text r)) (runs p)
    || (65 <? length text) in
  let expected_line_spacing : float :=
    if is_two_lines then 1%float else 1.5%float in
  checks [
    when (negb (PyStr.eqb number []) && endswith number (U "."))
      (report (U "У заголовка не должно быть точки после номера.") el idx ety);
    when (negb has_two_empty_lines_before)
      (report (U "Перед заголовком должно быть две пустые строки, если он не находится на первой строке страницы.")
         el idx ety);
    when (negb has_two_empty_lines_after)
      (report (U "После заголовка должно быть две пустые строки.") el idx ety);
    for_each (runs p) (λ run,
      when (nonblank run) (checks [
        when (negb (truthy (font_bold run)))
          (report (U "Заголовок должен быть полужирным.") el idx ety);
        when (size_given_and_not (font_size run) expected_font_size)
          (report (U "Заголовок должен быть размером шрифта "
                   ++ (if level =? 1 then U "16" else U "14") ++ U " pt.")
             el idx ety);
        when (truthy (font_italic run))
          (report (U "Заголовок не должен быть курсивом.") el idx ety);
        when (truthy (font_underline run))
          (report (U "Заголовок не должен быть подчеркнутым.") el idx ety);
        when (name_given_without (font_name run) (U "Times New Roman"))
          (report (U "Заголовок должен быть шрифтом Times New Roman.")
             el idx ety)]));
    when (match first_line_indent p with
          | Some z =>
              (z =? 0)%Z
              || fgt (PrimFloat.abs (inches z - 0.49)%float) 0.01
          | None => true
          end)
      (report (U "Заголовок должен иметь отступ первой строки 1.25 см.")
         el idx ety);
    when (negb (bool_decide (indent_sides p = [])))
      (report (U "У заголовка отступ " ++ join (U " и ") (indent_sides p)
               ++ U " не допускается.") el idx ety);
    when (spacing_given p)
      (report (U "У заголовка интервал перед или после абзаца не допускается.")
         el idx ety);
    when (match line_spacing p with
          | None => true
          | Some ls =>
              fgt (PrimFloat.abs
                     (line_spacing_value ls - expected_line_spacing)%float)
                0.01
          end)
      (report (U "Межстрочный интервал заголовка должен быть "
               ++ line_spacing_text is_two_lines ++ U " для "
               ++ (if is_two_lines then U "двух строк" else U "одной строки")
               ++ U ".") el idx ety);
    when (negb (alignment_is (alignment p) WD_ALIGN_PARAGRAPH.JUSTIFY))
      (report (U "Заголовок должен быть выровнен по ширине.") el idx ety)].

Record HeadingState := {
  hs_errors : Errors;
  hs_heading_paragraphs : list nat;
  hs_list_candidates : list nat;
  hs_last_heading_numbers : gmap nat (list Z)
}.

(** The body of [for i, paragraph in enumerate(doc.paragraphs)]. *)
Definition heading_step (doc : Document) (excluded : list nat)
    (st : HeadingState) (ip : nat * Paragraph) : HeadingState :=
  let '(i, p) := ip in
  let '(gate_check, gate) := heading_gate doc excluded i p in
  match gate with
  | NotHeading candidate =>
      {| hs_errors := gate_check (hs_errors st);
         hs_heading_paragraphs := hs_heading_paragraphs st;
         hs_list_candidates :=
           if candidate then hs_list_candidates st ++ [i]
           else hs_list_candidates st;
         hs_last_heading_numbers := hs_last_heading_numbers st |}
  | IsHeading number number_parts =>
      let '(numbering_check, last_heading_numbers) :=
        check_heading_numbering (hs_last_heading_numbers st) number_parts
          p i in
      {| hs_errors :=
           check_heading_format doc i p number number_parts
             (numbering_check (gate_check (hs_errors st)));
         hs_heading_paragraphs := hs_heading_paragraphs st ++ [i];
         hs_list_candidates := hs_list_candidates st;
         hs_last_heading_numbers := last_heading_numbers |}
  end.

Definition heading_init : HeadingState :=
  {| hs_errors := []; hs_heading_paragraphs := []; hs_list_candidates := [];
     hs_last_heading_numbers :=
       {[1 := [0%Z]; 2 := [0%Z; 0%Z]; 3 := [0%Z; 0%Z; 0%Z]]} |}.

(** The errors, the heading paragraphs and the list candidates. *)
Definition check_headings_formatting (doc : Document)
    (structural_paragraphs appendix_paragraphs listing_paragraphs
     table_captions image_captions : list nat)
    : Errors * list nat * list nat :=
  let excluded :=
    structural_paragraphs ++ appendix_paragraphs ++ listing_paragraphs
    ++ table_captions ++ image_captions in
  let st :=
    fold_left (heading_step doc excluded) (enumerate (paragraphs doc))
      heading_init in
  (hs_errors st, hs_heading_paragraphs st, hs_list_candidates st).

(** The headings of the document: the paragraphs the loop accepts, in
    order, with their number parts. *)
Definition heading_entries (doc : Document) (excluded : list nat)
    : list (nat * Paragraph * list Z) :=
  omap (λ ip : nat * Paragraph,
          match (heading_gate doc excluded ip.1 ip.2).2 with
          | IsHeading _ number_parts => Some (ip.1, ip.2, number_parts)
          | NotHeading _ => None
          end)
    (enumerate (paragraphs doc)).

(** The records of the continuity check (lines 1752, 1767 and 1781). *)
Definition is_numbering_error (e : ErrorRecord) : bool :=
  startswith (message e)
    (U "Нарушена последовательность родительских номеров заголовка")
  || startswith (message e)
       (U "Нарушена последовательность нумерации заголовка")
  || startswith (message e) (U "Подзаголовок должен начинаться с '1'").

(** The records the continuity check emits along a sequence of headings. *)
Fixpoint numbering_errors (last_heading_numbers : gmap nat (list Z))
    (entries : list (nat * Paragraph * list Z)) : Errors :=
  match entries with
  | [] => []
  | (i, p, number_parts) :: rest =>
      let result :=
        check_heading_numbering last_heading_numbers number_parts p i in
      result.1 [] ++ numbering_errors result.2 rest
  end.

(** A level-1 or level-2 heading in the required format, and a blank
    paragraph. *)
Definition heading_paragraph (s : str) (size : Z) : Paragraph :=
  {| runs := [times_run s size (Some true)]; style_name := U "Normal";
     alignment := Some WD_ALIGN_PARAGRAPH.JUSTIFY;
     first_line_indent := Some 450000%Z; left_indent := None;
     right_indent := None; space_before := None; space_after := None;
     line_spacing := Some (Multiple 1.5); numPr := None;
     page_break_before := false; comments := [] |}.

Definition blank_paragraph : Paragraph := new_paragraph (U "Normal") [].

Definition spaced (ps : list Paragraph) : list Paragraph :=
  [blank_paragraph; blank_paragraph]
  ++ concat (map (λ p, [p; blank_paragraph; blank_paragraph]) ps).

Definition continuous_headings_doc : Document :=
  sample_doc (spaced [heading_paragraph (U "1 Введение в тему") 203200;
                      heading_paragraph (U "1.1 Обзор") 177800;
                      heading_paragraph (U "1.2 Методы") 177800;
                      heading_paragraph (U "2 Реализация") 203200;
                      heading_paragraph (U "2.1 Архитектура") 177800]).

Definition skipped_heading_doc : Document :=
  sample_doc (spaced [heading_paragraph (U "1 Введение в тему") 203200;
                      heading_paragraph (U "1.1 Обзор") 177800;
                      heading_paragraph (U "1.3 Методы") 177800]).

(** ** Table captions: [check_table_formatting] *)

Inductive CaptionFormat := Sequential | YX.

#[global] Instance CaptionFormat_eq_dec : EqDecision CaptionFormat.
Proof. solve_decision. Defined.

(** The local state of the caption scan.  The write-only locals
    [table_indices] and [last_numbers_by_context] are left out. *)
Record TableState := {
  ts_errors : Errors;
  ts_caption_paragraphs : list nat;
  ts_table_captions : gset str;
  (* the boolean items of [continuation_tracker], in insertion order *)
  ts_continuation : list (str * bool);
  (* [continuation_tracker['paragraph']] *)
  ts_tracked_paragraph : option nat;
  ts_current_appendix : option str;
  ts_current_heading : option Z;
  ts_last_caption_format : option CaptionFormat;
  ts_sequential_numbers : gmap str Z;
  ts_heading_numbers : gmap Z nat;
  ts_section_numbers : gmap Z Z
}.

(** [d[key] = value] on an insertion-ordered dictionary *)
Fixpoint dict_set (key : str) (value : bool) (d : list (str * bool))
    : list (str * bool) :=
  match d with
  | [] => [(key, value)]
  | (k, v) :: d' =>
      if PyStr.eqb k key then (k, value) :: d'
      else (k, v) :: dict_set key value d'
  end.

(** Pattern [^ ( \d+ ) \s+ ( .+ )] *)
Definition re_top_heading : Re.t :=
  Seq (Grp 1 (Plus digit)) (Seq (Plus space) (Grp 2 (Plus any))).

(** Pattern [Таблица ( [А-Я] \. \d+ ) – ( [А-Я] .* )] *)
Definition re_table_caption_appendix : Re.t :=
  Seq (Lit (U "Таблица "))
    (Seq (Grp 1 (Seq AYa (Seq (Chr 46) (Plus digit))))
       (Seq (Lit (U " – ")) (Grp 2 (Seq AYa (Star any))))).

(** Pattern [Таблица ( \d+ (?: \. \d+ )? ) – ( [А-Я] .* )] *)
Definition re_table_caption_main : Re.t :=
  Seq (Lit (U "Таблица "))
    (Seq (Grp 1 (Seq (Plus digit) (Opt (Seq (Chr 46) (Plus digit)))))
       (Seq (Lit (U " – ")) (Grp 2 (Seq AYa (Star any))))).

(** Pattern [( (?: \d+ (?: \. \d+ )* | [А-Я] \. \d+ ) )] after the words
    [Продолжение таблицы ] or [Окончание таблицы ] *)
Definition re_table_reference (words : str) : Re.t :=
  Seq (Lit words)
    (Grp 1 (Alt (Seq (Plus digit) (Star (Seq (Chr 46) (Plus digit))))
              (Seq AYa (Seq (Chr 46) (Plus digit))))).

(** Pattern [( [А-Я] ) \. ( \d+ )] *)
Definition re_appendix_number : Re.t :=
  Seq (Grp 1 AYa) (Seq (Chr 46) (Grp 2 (Plus digit))).

(** Pattern [( \d+ ) ( (?: \. \d+ )? )] *)
Definition re_main_number : Re.t :=
  Seq (Grp 1 (Plus digit)) (Grp 2 (Opt (Seq (Chr 46) (Plus digit)))).

Definition caption_end_punctuation : list str :=
  [U "."; U ","; U "!"; U "?"; U "/"; U "-"; U ";"; U ":"].

(** [line_spacing != 1.5] *)
Definition line_spacing_not (ls : option LineSpacing) (v : float) : bool :=
  match ls with
  | None => true
  | Some ls => fneq (line_spacing_value ls) v
  end.

(** Lines 2860-2909: the indent, spacing and alignment checks of every
    caption paragraph. *)
Definition check_caption_layout (p : Paragraph) (i : nat) : Check :=
  let el := ElParagraph p in
  let idx := Z.of_nat i in
  let ety := DocumentElementType.PARAGRAPH in
  checks [
    when (size_given_and_not (first_line_indent p) 0)
      (report (U "Подпись таблицы не должна иметь отступ первой строки.")
         el idx ety);
    when (negb (bool_decide (indent_sides p = [])))
      (report (U "Подпись таблицы отступ " ++ join (U " и ") (indent_sides p)
               ++ U " не допускается.") el idx ety);
    when (spacing_given p)
      (report (U "В подписи таблицы интервал перед или после абзаца не допускается.")
         el idx ety);
    when (negb (alignment_is (alignment p) WD_ALIGN_PARAGRAPH.LEFT
                || bool_decide (alignment p = None)))
      (report (U "Подпись таблицы должна быть выровнена по левому краю.")
         el idx ety)].

(** Lines 3056-3108: the font, line spacing and punctuation checks of a
    main caption. *)
Definition check_caption_text_format (text : str) (p : Paragraph) (i : nat)
    : Check :=
  let el := ElParagraph p in
  let idx := Z.of_nat i in
  let ety := DocumentElementType.PARAGRAPH in
  checks [
    for_each (runs p) (λ run,
      when (nonblank run) (checks [
        when (name_given_without (font_name run) (U "Times New Roman"))
          (report (U "У подписи таблицы шрифт должен быть Times New Roman")
             el idx ety);
        when (size_given_and_not (font_size run) 14)
          (report (U "У подписи таблицы размер шрифта должен быть 14 pt")
             el idx ety);
        when (truthy (font_bold run))
          (report (U "Подпись таблицы не должна быть полужирной") el idx ety);
        when (truthy (font_italic run))
          (report (U "Подпись таблицы не должна быть курсивом") el idx ety)]));
    when (line_spacing_not (line_spacing p) 1.5)
      (report (U "У подписи таблицы межстрочный интервал должен быть 1.5")
         el idx ety);
    when (existsb (endswith text) caption_end_punctuation)
      (report (U "Подпись таблицы не должна оканчиваться знаком препинания")
         el idx ety)].

Definition different_format_message (last : CaptionFormat) : str :=
  U "Подпись таблицы использует отличный формат от предыдущей подписи таблицы. Ожидается: "
  ++ match last with
     | Sequential => U "Таблица X – Название"
     | YX => U "Таблица Y.X – Название"
     end.

Definition ts_set_errors (st : TableState) (errors : Errors) : TableState :=
  {| ts_errors := errors;
     ts_caption_paragraphs := ts_caption_paragraphs st;
     ts_table_captions := ts_table_captions st;
     ts_continuation := ts_continuation st;
     ts_tracked_paragraph := ts_tracked_paragraph st;
     ts_current_appendix := ts_current_appendix st;
     ts_current_heading := ts_current_heading st;
     ts_last_caption_format := ts_last_caption_format st;
     ts_sequential_numbers := ts_sequential_numbers st;
     ts_heading_numbers := ts_heading_numbers st;
     ts_section_numbers := ts_section_numbers st |}.

Definition ts_add_caption_paragraph (st : TableState) (i : nat)
    : TableState :=
  {| ts_errors := ts_errors st;
     ts_caption_paragraphs := ts_caption_paragraphs st ++ [i];
     ts_table_captions := ts_table_captions st;
     ts_continuation := ts_continuation st;
     ts_tracked_paragraph := ts_tracked_paragraph st;
     ts_current_appendix := ts_current_appendix st;
     ts_current_heading := ts_current_heading st;
     ts_last_caption_format := ts_last_caption_format st;
     ts_sequential_numbers := ts_sequential_numbers st;
     ts_heading_numbers := ts_heading_numbers st;
     ts_section_numbers := ts_section_numbers st |}.

(** [continuation_tracker[number] = value] and
    [continuation_tracker['paragraph'] = paragraph] *)
Definition ts_track (st : TableState) (number : str) (value : bool)
    (i : nat) : TableState :=
  {| ts_errors := ts_errors st;
     ts_caption_paragraphs := ts_caption_paragraphs st;
     ts_table_captions := ts_table_captions st;
     ts_continuation := dict_set number value (ts_continuation st);
     ts_tracked_paragraph := Some i;
     ts_current_appendix := ts_current_appendix st;
     ts_current_heading := ts_current_heading st;
     ts_last_caption_format := ts_last_caption_format st;
     ts_sequential_numbers := ts_sequential_numbers st;
     ts_heading_numbers := ts_heading_numbers st;
     ts_section_numbers := ts_section_numbers st |}.

Definition ts_add_table_caption (st : TableState) (number : str)
    : TableState :=
  {| ts_errors := ts_errors st;
     ts_caption_paragraphs := ts_caption_paragraphs st;
     ts_table_captions := {[number]} ∪ ts_table_captions st;
     ts_continuation := ts_continuation st;
     ts_tracked_paragraph := ts_tracked_paragraph st;
     ts_current_appendix := ts_current_appendix st;
     ts_current_heading := ts_current_heading st;
     ts_last_caption_format := ts_last_caption_format st;
     ts_sequential_numbers := ts_sequential_numbers st;
     ts_heading_numbers := ts_heading_numbers st;
     ts_section_numbers := ts_section_numbers st |}.

Definition ts_set_counters (st : TableState)
    (format : option CaptionFormat) (sequential : gmap str Z)
    (section : gmap Z Z) : TableState :=
  {| ts_errors := ts_errors st;
     ts_caption_paragraphs := ts_caption_paragraphs st;
     ts_table_captions := ts_table_captions st;
     ts_continuation := ts_continuation st;
     ts_tracked_paragraph := ts_tracked_paragraph st;
     ts_current_appendix := ts_current_appendix st;
     ts_current_heading := ts_current_heading st;
     ts_last_caption_format := format;
     ts_sequential_numbers := sequential;
     ts_heading_numbers := ts_heading_numbers st;
     ts_section_numbers := section |}.

(** [number_parts] of a caption number in the main body, and
    [current_format]: ['sequential' if len(number_parts) == 1 else 'yx']. *)
Definition main_number_parts (table_number : str) : list Z :=
  match Re.match_ re_main_number table_number with
  | Some _ => map PyStr.to_Z (split_on 46 table_number)
  | None => []
  end.

Definition caption_format_of (table_number : str) : CaptionFormat :=
  if length (main_number_parts table_number) =? 1 then Sequential else YX.

(** Lines 2926-3050: the number checks of a caption that matches the
    caption pattern, with the number [table_number]; the result is
    [caption_errors] extended and the state with its counters and its
    caption format updated. *)
Definition check_caption_number (st : TableState) (table_number : str)
    (p : Paragraph) (i : nat) (caption_errors : Errors)
    : Errors * TableState :=
  let el := ElParagraph p in
  let idx := Z.of_nat i in
  let ety := DocumentElementType.PARAGRAPH in
  let is_appendix_number := Re.match_ re_appendix_number table_number in
  let appendix_letter_of :=
    is_appendix_number ≫= λ m, Re.group 1 m.2 in
  match ts_current_appendix st with
  | Some current_appendix =>
      let errors :=
        when (negb (bool_decide (appendix_letter_of = Some current_appendix)))
          (report (U "В приложении '" ++ current_appendix
                   ++ U "' подпись таблицы должна начинаться с '"
                   ++ current_appendix ++ U ".'") el idx ety)
          caption_errors in
      match is_appendix_number with
      | Some (_, caps) =>
          let number_part := PyStr.to_Z (default [] (Re.group 2 caps)) in
          let count :=
            (default 0 (ts_sequential_numbers st !! current_appendix) + 1)%Z in
          let errors :=
            when (negb (number_part =? count)%Z)
              (report (U "Нарушена нумерация таблиц в приложении '"
                       ++ current_appendix ++ U "'. Ожидалось 'Таблица "
                       ++ current_appendix ++ U "." ++ PyStr.of_Z count
                       ++ U "', получено 'Таблица " ++ table_number ++ U "'")
                 el idx ety) errors in
          (errors,
           ts_set_counters st (ts_last_caption_format st)
             (<[current_appendix := count]> (ts_sequential_numbers st))
             (ts_section_numbers st))
      | None => (errors, st)
      end
  | None =>
      let errors :=
        when (bool_decide (is_Some is_appendix_number))
          (report (U "Подпись таблицы использует формат приложения '"
                   ++ default [] appendix_letter_of
                   ++ U ".X', но находится вне приложения") el idx ety)
          caption_errors in
      let number_parts := main_number_parts table_number in
      let errors :=
        (if 2 <? length number_parts then
           report (U "Подпись таблицы в основной части не должна содержать вложенность глубже Y.X (например, X.X.X)")
             el idx ety
         else
           when ((length number_parts =? 2)
                 && (default 0 (number_parts !! 1%nat) =? 0)%Z)
             (report (U "Подпись таблицы использует некорректный номер '"
                      ++ table_number
                      ++ U "'. В формате Y.X вторая часть номера не должна быть 0, ожидается Y.1, Y.2, и т.д.")
                el idx ety)) errors in
      let first := default 0%Z (number_parts !! 0%nat) in
      let '(errors, section) :=
        if length number_parts =? 2 then
          let errors :=
            when (bool_decide (ts_heading_numbers st !! first = None))
              (report (U "Подпись таблицы в формате Y.X ссылается на неверный заголовок "
                       ++ PyStr.of_Z first) el idx ety) errors in
          match ts_current_heading st with
          | Some current_heading =>
              let count :=
                (default 0 (ts_section_numbers st !! current_heading) + 1)%Z in
              let expected_number :=
                PyStr.of_Z current_heading ++ U "." ++ PyStr.of_Z count in
              (when (negb (PyStr.eqb table_number expected_number))
                 (report (U "Нарушена нумерация таблиц в разделе "
                          ++ PyStr.of_Z current_heading
                          ++ U ". Ожидалось 'Таблица " ++ expected_number
                          ++ U "', получено 'Таблица " ++ table_number
                          ++ U "'") el idx ety) errors,
               <[current_heading := count]> (ts_section_numbers st))
          | None => (errors, ts_section_numbers st)
          end
        else (errors, ts_section_numbers st) in
      (* the format of this caption against the format of the previous one *)
      let current_format := caption_format_of table_number in
      let errors :=
        match ts_last_caption_format st with
        | Some last =>
            when (negb (bool_decide (last = current_format)))
              (report (different_format_message last) el idx ety) errors
        | None => errors
        end in
      let '(errors, sequential) :=
        if length number_parts =? 1 then
          let count :=
            (default 0 (ts_sequential_numbers st !! U "main") + 1)%Z in
          (when (negb (first =? count)%Z)
             (report (U "Нарушена сквозная нумерация таблиц в основном документе. Ожидалось 'Таблица "
                      ++ PyStr.of_Z count ++ U "', получено 'Таблица "
                      ++ table_number ++ U "'") el idx ety) errors,
           <[U "main" := count]> (ts_sequential_numbers st))
        else (errors, ts_sequential_numbers st) in
      (errors, ts_set_counters st (Some current_format) sequential section)
  end.

(** Lines 3120-3211: a continuation ([ending = false]) or ending caption
    that refers to the table [ref_number]. *)
Definition check_table_reference (ending : bool) (st : TableState)
    (text ref_number : str) (p : Paragraph) (i : nat) : TableState :=
  let el := ElParagraph p in
  let idx := Z.of_nat i in
  let ety := DocumentElementType.PARAGRAPH in
  let words := if ending then U "Окончание" else U "Продолжение" in
  let of_what := if ending then U "окончания" else U "продолжения" in
  let expected_text := words ++ U " таблицы " ++ ref_number in
  let appendix_letter_of :=
    Re.match_ re_appendix_number ref_number ≫= λ m, Re.group 1 m.2 in
  let caption_errors :=
    checks [
      when (negb (PyStr.eqb text expected_text))
        (report (U "Некорректная подпись " ++ of_what
                 ++ U " таблицы. Ожидаемый формат: '" ++ words
                 ++ U " таблицы X' или '" ++ words ++ U " таблицы Y.X'")
           el idx ety);
      when (negb (bool_decide (ref_number ∈ ts_table_captions st)))
        (report (words ++ U " таблицы '" ++ ref_number
                 ++ U "' без основной таблицы") el idx ety);
      match ts_current_appendix st with
      | Some current_appendix =>
          when (negb (bool_decide
                        (appendix_letter_of = Some current_appendix)))
            (report (U "В приложении '" ++ current_appendix ++ U "' подпись "
                     ++ of_what ++ U " таблицы '" ++ take 25 text
                     ++ U "' должна начинаться с '" ++ current_appendix
                     ++ U ".'") el idx ety)
      | None => id
      end] [] in
  ts_track (ts_set_errors st (ts_errors st ++ caption_errors))
    ref_number (negb ending) i.

(** Lines 2806-2827: the heading and appendix trackers. *)
Definition track_heading (st : TableState) (text : str) (i : nat)
    : TableState :=
  match Re.match_ re_top_heading text with
  | Some (_, caps) =>
      let number_parts :=
        map PyStr.to_Z (split_on 46 (default [] (Re.group 1 caps))) in
      match number_parts with
      | [n] =>
          {| ts_errors := ts_errors st;
             ts_caption_paragraphs := ts_caption_paragraphs st;
             ts_table_captions := ts_table_captions st;
             ts_continuation := ts_continuation st;
             ts_tracked_paragraph := ts_tracked_paragraph st;
             ts_current_appendix := ts_current_appendix st;
             ts_current_heading := Some n;
             ts_last_caption_format := ts_last_caption_format st;
             ts_sequential_numbers := ts_sequential_numbers st;
             ts_heading_numbers := <[n := i]> (ts_heading_numbers st);
             ts_section_numbers := <[n := 0%Z]> (ts_section_numbers st) |}
      | _ => st
      end
  | None => st
  end.

Definition track_appendix (st : TableState) (text : str) : TableState :=
  let letter := strip (drop (length (U "Приложение ")) text) in
  if (length (U "Приложение ") <? length text)
     && (length letter =? 1)
     && bool_decide (letter ∈ allowed_appendix_letters) then
    {| ts_errors := ts_errors st;
       ts_caption_paragraphs := ts_caption_paragraphs st;
       ts_table_captions := ts_table_captions st;
       ts_continuation := ts_continuation st;
       ts_tracked_paragraph := ts_tracked_paragraph st;
       ts_current_appendix := Some letter;
       ts_current_heading := ts_current_heading st;
       ts_last_caption_format := ts_last_caption_format st;
       ts_sequential_numbers :=
         match ts_sequential_numbers st !! letter with
         | Some _ => ts_sequential_numbers st
         | None => <[letter := 0%Z]> (ts_sequential_numbers st)
         end;
       ts_heading_numbers := ts_heading_numbers st;
       ts_section_numbers := ts_section_numbers st |}
  else st.

(** Lines 2912-3117: a paragraph that starts with [Таблица]. *)
Definition check_main_caption (st : TableState) (text : str)
    (p : Paragraph) (i : nat) : TableState :=
  let el := ElParagraph p in
  let idx := Z.of_nat i in
  let ety := DocumentElementType.PARAGRAPH in
  let table_caption_match :=
    match ts_current_appendix st with
    | Some _ => Re.fullmatch re_table_caption_appendix text
    | None => Re.fullmatch re_table_caption_main text
    end in
  let '(caption_errors, st) :=
    match table_caption_match with
    | None =>
        (report (U "Некорректная подпись таблицы. Ожидаемый формат: "
                 ++ match ts_current_appendix st with
                    | None =>
                        U "Таблица X – Название или Таблица Y.X – Название"
                    | Some _ => U "Таблица Y.X – Название"
                    end
                 ++ U ", где Y - буква приложения") el idx ety [],
         st)
    | Some caps =>
        let table_number := default [] (Re.group 1 caps) in
        let '(caption_errors, st) :=
          check_caption_number st table_number p i [] in
        (caption_errors,
         ts_track (ts_add_table_caption st table_number) table_number false i)
    end in
  let caption_errors := check_caption_text_format text p i caption_errors in
  ts_set_errors st (ts_errors st ++ caption_errors).

(** The body of [for i, paragraph in enumerate(doc.paragraphs)]. *)
Definition table_step (st : TableState) (ip : nat * Paragraph)
    : TableState :=
  let '(i, p) := ip in
  let text := strip (text p) in
  let st := track_heading st text i in
  if startswith text (U "Приложение") then track_appendix st text
  else
    let continuation_match :=
      Re.fullmatch (re_table_reference (U "Продолжение таблицы ")) text in
    let ending_match :=
      Re.fullmatch (re_table_reference (U "Окончание таблицы ")) text in
    if startswith text (U "Таблица")
       || bool_decide (is_Some continuation_match)
       || bool_decide (is_Some ending_match) then
      let st := ts_add_caption_paragraph st i in
      let st := ts_set_errors st (check_caption_layout p i (ts_errors st)) in
      if startswith text (U "Таблица") then check_main_caption st text p i
      else
        match continuation_match, ending_match with
        | Some caps, _ =>
            check_table_reference false st text
              (default [] (Re.group 1 caps)) p i
        | None, Some caps =>
            check_table_reference true st text
              (default [] (Re.group 1 caps)) p i
        | None, None => st
        end
    else st.

Definition table_init : TableState :=
  {| ts_errors := []; ts_caption_paragraphs := [];
     ts_table_captions := ∅; ts_continuation := [];
     ts_tracked_paragraph := None; ts_current_appendix := None;
     ts_current_heading := None; ts_last_caption_format := None;
     ts_sequential_numbers := {[U "main" := 0%Z]};
     ts_heading_numbers := ∅; ts_section_numbers := ∅ |}.

Definition table_caption_prefixes : list str :=
  [U "Таблица "; U "Продолжение таблицы "; U "Окончание таблицы "].

(** The nearest paragraph among the siblings before position [b] of the
    body. *)
Fixpoint first_paragraph (blocks : list Block) : option nat :=
  match blocks with
  | [] => None
  | BlockParagraph i :: _ => Some i
  | _ :: blocks' => first_paragraph blocks'
  end.

Definition previous_paragraph (doc : Document) (b : nat) : option nat :=
  first_paragraph (rev (take b (body doc))).

(** Lines 3245-3255: the caption search for a table without a paragraph
    before it, from the paragraph at the position [index] on. *)
Fixpoint caption_ahead (ps : list Paragraph) : bool :=
  match ps with
  | [] => false
  | p :: ps' =>
      let text := strip (text p) in
      if startswith_any text table_caption_prefixes then true
      else if PyStr.eqb text [] then caption_ahead ps'
      else false
  end.

(** Lines 3214-3290: the checks of the table at position [index]. *)
Definition check_table (doc : Document) (index : nat) (table : Table)
    : Check :=
  let el := ElTable table in
  let idx := Z.of_nat index in
  let ety := DocumentElementType.TABLE in
  let position := fst <$> list_find (λ x, x = BlockTable index) (body doc) in
  let found_caption :=
    match position ≫= previous_paragraph doc with
    | Some i =>
        match paragraphs doc !! i with
        | Some p => startswith_any (strip (text p)) table_caption_prefixes
        | None => false
        end
    | None => caption_ahead (drop index (paragraphs doc))
    end in
  let found_empty_line :=
    match position ≫= λ b, body doc !! S b with
    | Some (BlockParagraph i) =>
        (index <? i) && blank_at doc (Z.of_nat i)
    | _ => false
    end in
  checks [
    when (negb (alignment_is (t_alignment table) WD_ALIGN_PARAGRAPH.CENTER))
      (report (U "Таблица не выровнена по центру.") el idx ety);
    when (negb found_caption)
      (report (U "Перед таблицей отсутствует подпись в формате 'Таблица X – Название', 'Продолжение таблицы X' или 'Окончание таблицы X'.")
         el idx ety);
    when found_empty_line
      (report (U "После таблицы не должно быть пустой строки.") el idx ety)].

(** Lines 3292-3301: the continuations left open. *)
Definition check_open_continuations (doc : Document) (st : TableState)
    : Check :=
  for_each (ts_continuation st) (λ kv,
    when (kv.2 && bool_decide (kv.1 ∈ ts_table_captions st))
      (match ts_tracked_paragraph st with
       | Some i =>
           report (U "Для таблицы '" ++ kv.1
                   ++ U "' есть продолжение, но нет окончания")
             (paragraph_element doc i) (Z.of_nat i)
             DocumentElementType.TABLE
       | None => id
       end)).

(** The state after the scan of the first [n] paragraphs. *)
Definition table_scan (doc : Document) (n : nat) : TableState :=
  fold_left table_step (take n (enumerate (paragraphs doc))) table_init.

(** The errors and the caption paragraphs. *)
Definition check_table_formatting (doc : Document) : Errors * list nat :=
  let st := table_scan doc (length (paragraphs doc)) in
  let errors :=
    for_each (enumerate (tables doc)) (λ jt, check_table doc jt.1 jt.2)
      (ts_errors st) in
  let errors := check_open_continuations doc st errors in
  (errors, ts_caption_paragraphs st).

(** A table caption in the required format: 14 pt, left aligned, no
    indent, line spacing 1.5. *)
Definition caption_paragraph (s : str) : Paragraph :=
  {| runs := [times_run s 177800%Z None]; style_name := U "Normal";
     alignment := Some WD_ALIGN_PARAGRAPH.LEFT;
     first_line_indent := None; left_indent := None;
     right_indent := None; space_before := None; space_after := None;
     line_spacing := Some (Multiple 1.5); numPr := None;
     page_break_before := false; comments := [] |}.

Definition two_formats_doc : Document :=
  sample_doc [caption_paragraph (U "Таблица 1 – Данные");
              body_paragraph (U "Текст между таблицами.");
              caption_paragraph (U "Таблица 2.1 – Итоги")].

Definition three_captions_doc : Document :=
  sample_doc [caption_paragraph (U "Таблица 1 – Данные");
              caption_paragraph (U "Таблица 2.1 – Итоги");
              caption_paragraph (U "Таблица 2.2 – Выводы")].

(** The records of the caption-format comparison (line 3025). *)
Definition is_format_error (e : ErrorRecord) : bool :=
  startswith (message e) (U "Подпись таблицы использует отличный формат").

(** The caption the step reads as a main-body table caption: a paragraph
    outside every appendix that matches the caption pattern; the result is
    its position, the paragraph and its numbering format. *)
Definition main_caption_entry (st : TableState) (ip : nat * Paragraph)
    : option (nat * Paragraph * CaptionFormat) :=
  let text := strip (text ip.2) in
  if startswith text (U "Приложение") then None
  else if negb (startswith text (U "Таблица")) then None
  else
    match ts_current_appendix st with
    | Some _ => None
    | None =>
        match Re.fullmatch re_table_caption_main text with
        | Some caps =>
            Some (ip.1, ip.2,
                  caption_format_of (default [] (Re.group 1 caps)))
        | None => None
        end
    end.

(** The main-body captions met by the scan of [l] from the state [st]. *)
Fixpoint caption_entries (st : TableState) (l : list (nat * Paragraph))
    : list (nat * Paragraph * CaptionFormat) :=
  match l with
  | [] => []
  | ip :: l' =>
      match main_caption_entry st ip with
      | Some entry => [entry]
      | None => []
      end ++ caption_entries (table_step st ip) l'
  end.

Definition main_captions (doc : Document)
    : list (nat * Paragraph * CaptionFormat) :=
  caption_entries table_init (enumerate (paragraphs doc)).

(** Each caption against the one before it: a record for every caption
    whose format differs from the format of the previous caption. *)
Fixpoint format_errors (last : option CaptionFormat)
    (entries : list (nat * Paragraph * CaptionFormat)) : Errors :=
  match entries with
  | [] => []
  | (i, p, format) :: rest =>
      match last with
      | Some previous =>
          if decide (previous = format) then []
          else [error_dict (different_format_message previous)
                  (ElParagraph p) (Some (Z.of_nat i))
                  (Some DocumentElementType.PARAGRAPH)]
      | None => []
      end ++ format_errors (Some format) rest
  end.

(** The paragraphs that [get_paragraph_index_by_content] takes for the
    target: the same stripped text and the same style name. *)
Definition same_content (p q : Paragraph) : Prop :=
  strip (text p) = strip (text q) ∧ style_name p = style_name q.

(** The world [w'] differs from [w] at most in the files at [paths]. *)
Definition writes_within (paths : list str) (w w' : World) : Prop :=
  locked w' = locked w
  ∧ ∀ path, path ∉ paths → files w' !! path = files w !! path.

(** ** Annotation: what it leaves alone *)

(** [p'] is [p] with further comments attached. *)
Definition comments_added (p p' : Paragraph) : Prop :=
  ∃ new, p' = set_comments p (comments p ++ new).

(** ** Records of a given kind *)

(** The records whose message satisfies [on_message]. *)
Definition of_kind (on_message : str → bool) (errors : Errors) : Errors :=
  filter (λ e, on_message (message e) = true) errors.

(** A check that emits no record of the kind. *)
Definition quiet (on_message : str → bool) (c : Check) : Prop :=
  ∀ errors, of_kind on_message (c errors) = of_kind on_message errors.

(** A check that keeps a property of every record of the list. *)
Definition preserves (P : ErrorRecord → Prop) (c : Check) : Prop :=
  ∀ errors, Forall P errors → Forall P (c errors).

(** The record of a required title that is missing (line 2552). *)
Definition missing_title_message (title : str) : str :=
  U "Отсутствует правильно оформленный обязательный структурный элемент: "
  ++ title ++ U ".".

Definition is_missing_title_message (msg : str) : bool :=
  startswith msg
    (U "Отсутствует правильно оформленный обязательный структурный элемент").

Definition missing_title_error (title : str) : ErrorRecord :=
  error_dict (missing_title_message title) (ElStr title) (Some 0%Z)
    (Some DocumentElementType.PARAGRAPH).

(** Some paragraph of the document has the stripped text [title]. *)
Definition has_title (doc : Document) (title : str) : bool :=
  existsb (λ p, PyStr.eqb (strip (text p)) title) (paragraphs doc).

(** The paragraphs that [check_structural_elements] returns as structural:
    a required title, or a text that starts with [Приложение]. *)
Definition is_structural_paragraph (p : Paragraph) : bool :=
  bool_decide (strip (text p) ∈ required_titles)
  || startswith (strip (text p)) (U "Приложение").



(** The two records of the blank-line rule around a heading (lines
    1810-1832). *)
Definition is_blank_lines_message (msg : str) : bool :=
  startswith msg (U "Перед заголовком должно быть две пустые строки")
  || startswith msg (U "После заголовка должно быть две пустые строки").

(** [has_two_empty_lines_before] and [has_two_empty_lines_after] for the
    paragraph at position [i]; a negative position counts from the end of
    the document, as [doc.paragraphs[i - 1]] does. *)
Definition has_two_empty_lines_before (doc : Document) (i : nat) : bool :=
  (Z.of_nat i - 2 <? Z.of_nat (length (paragraphs doc)))%Z
  && blank_at doc (Z.of_nat i - 1) && blank_at doc (Z.of_nat i - 2).

Definition has_two_empty_lines_after (doc : Document) (i : nat) : bool :=
  (Z.of_nat i + 2 <? Z.of_nat (length (paragraphs doc)))%Z
  && blank_at doc (Z.of_nat i + 1) && blank_at doc (Z.of_nat i + 2).

Definition blank_lines_errors (doc : Document)
    (entry : nat * Paragraph * list Z) : Errors :=
  let '(i, p, _) := entry in
  (if has_two_empty_lines_before doc i then []
   else [error_dict
           (U "Перед заголовком должно быть две пустые строки, если он не находится на первой строке страницы.")
           (ElParagraph p) (Some (Z.of_nat i))
           (Some DocumentElementType.PARAGRAPH)])
  ++ (if has_two_empty_lines_after doc i then []
      else [error_dict (U "После заголовка должно быть две пустые строки.")
              (ElParagraph p) (Some (Z.of_nat i))
              (Some DocumentElementType.PARAGRAPH)]).

(** A heading in the first paragraph, followed by text, with two blank
    paragraphs at the end of the document only. *)
Definition heading_first_doc : Document :=
  sample_doc [heading_paragraph (U "1 Введение в тему") 203200;
              body_paragraph (U "Текст раздела.");
              blank_paragraph; blank_paragraph].

(** The paragraph positions of the items collected so far. *)
Definition extracted_positions (st : ExtractState) : list nat :=
  (concat (ex_groups st) ++ concat (ex_resource_groups st)
   ++ ex_current st).*2.

(** What one step does to the groups: nothing, one more item in the open
    group, or the open group closed. *)
Definition extract_shape (i : nat) (st st' : ExtractState) : Prop :=
  (ex_groups st' = ex_groups st
   ∧ ex_resource_groups st' = ex_resource_groups st
   ∧ (ex_current st' = ex_current st
      ∨ ∃ prefix content, ex_current st' = ex_current st ++ [(prefix, content, i)]))
  ∨ (ex_current st ≠ [] ∧ ex_current st' = []
     ∧ ((ex_groups st' = ex_groups st ++ [ex_current st]
         ∧ ex_resource_groups st' = ex_resource_groups st)
        ∨ (ex_groups st' = ex_groups st
           ∧ ex_resource_groups st' = ex_resource_groups st ++ [ex_current st]))).

Definition extract_inv (n : nat) (st : ExtractState) : Prop :=
  Forall (λ g : list ListItem, g ≠ [])
    (ex_groups st ++ ex_resource_groups st)
  ∧ NoDup (extracted_positions st)
  ∧ Forall (λ k, k < n) (extracted_positions st).

(** ** The order of list numbers: [build_list_tree] and
    [check_numbering_order] *)

(** [re.findall(r, s)] for a pattern without groups: the matches, from
    left to right, without overlap. *)
Fixpoint findall_go (fuel : nat) (r : Re.t) (s : str) : list str :=
  match fuel with
  | O => []
  | S fuel' =>
      match s with
      | [] => []
      | c :: s' =>
          match Re.match_ r s with
          | Some (g0, _) =>
              match g0 with
              | [] => findall_go fuel' r s'
              | _ :: _ => g0 :: findall_go fuel' r (drop (length g0) s)
              end
          | None => findall_go fuel' r s'
          end
      end
  end.

Definition findall (r : Re.t) (s : str) : list str :=
  findall_go (length s) r s.

(** [[int(x) for x in re.findall(r'\d+', prefix)]] *)
Definition prefix_numbers (prefix : str) : list Z :=
  map PyStr.to_Z (findall (Plus digit) prefix).

(** A node of the list tree; the root has the level [-1]. *)
#[warnings="-register-all"]
Inductive ListNode :=
  mkListNode (prefix : str) (level : Z) (numbers : list Z)
    (paragraph : option nat) (children : list ListNode).

Definition ln_prefix (n : ListNode) : str :=
  match n with mkListNode prefix _ _ _ _ => prefix end.
Definition ln_level (n : ListNode) : Z :=
  match n with mkListNode _ level _ _ _ => level end.
Definition ln_numbers (n : ListNode) : list Z :=
  match n with mkListNode _ _ numbers _ _ => numbers end.
Definition ln_paragraph (n : ListNode) : option nat :=
  match n with mkListNode _ _ _ paragraph _ => paragraph end.
Definition ln_children (n : ListNode) : list ListNode :=
  match n with mkListNode _ _ _ _ children => children end.

(** The nodes are shared between the tree and [current_parents]; a node
    is named by its path from the root, the positions of the children to
    follow. *)
Definition Path : Type := list nat.

Fixpoint node_at (path : Path) (t : ListNode) : option ListNode :=
  match path with
  | [] => Some t
  | k :: path' => ln_children t !! k ≫= node_at path'
  end.

(** [parent.children.append(node)] for the parent at [path] *)
Fixpoint append_child (path : Path) (node : ListNode) (t : ListNode)
    : ListNode :=
  match path with
  | [] =>
      mkListNode (ln_prefix t) (ln_level t) (ln_numbers t) (ln_paragraph t)
        (ln_children t ++ [node])
  | k :: path' =>
      mkListNode (ln_prefix t) (ln_level t) (ln_numbers t) (ln_paragraph t)
        (alter (append_child path' node) k (ln_children t))
  end.

(** The state of the loop of [build_list_tree]: the tree and
    [current_parents].  The dictionary [counters] is only written. *)
Record TreeState := {
  tr_root : ListNode;
  tr_current_parents : gmap Z Path
}.

(** The body of [for prefix, _, paragraph in group]. *)
Definition build_step (st : TreeState) (item : ListItem) : TreeState :=
  let '(prefix, _, paragraph) := item in
  let nums := prefix_numbers prefix in
  match nums with
  | [] => st
  | _ :: _ =>
      let level := (Z.of_nat (length nums) - 1)%Z in
      let parent_level := (level - 1)%Z in
      let parent := default [] (tr_current_parents st !! parent_level) in
      let node := mkListNode prefix level nums (Some paragraph) [] in
      let position :=
        length (default [] (ln_children <$> node_at parent (tr_root st))) in
      {| tr_root := append_child parent node (tr_root st);
         tr_current_parents :=
           filter (λ kv, ¬ (level < kv.1)%Z)
             (<[level := parent ++ [position]]> (tr_current_parents st)) |}
  end.

Definition build_init : TreeState :=
  {| tr_root := mkListNode [] (-1) [] None [];
     tr_current_parents := {[ (-1)%Z := [] ]} |}.

Definition build_list_tree (group : list ListItem) : ListNode :=
  tr_root (fold_left build_step group build_init).

(** An entry of the result of [check_numbering_order]: the position, the
    prefix found, the prefix expected and the paragraph. *)
Definition OrderError : Type := Z * str * str * option nat.

(** The variables the local function [traverse] shares with its callers:
    [position], [errors] and [level_counters]. *)
Record OrderState := {
  os_position : Z;
  os_errors : list OrderError;
  os_level_counters : gmap (Z * str) Z
}.

Definition os_advance (st : OrderState) : OrderState :=
  {| os_position := (os_position st + 1)%Z; os_errors := os_errors st;
     os_level_counters := os_level_counters st |}.

Definition os_report (st : OrderState) (e : OrderError) : OrderState :=
  {| os_position := os_position st; os_errors := os_errors st ++ [e];
     os_level_counters := os_level_counters st |}.

Definition os_count (st : OrderState) (key : Z * str) (value : Z)
    : OrderState :=
  {| os_position := os_position st; os_errors := os_errors st;
     os_level_counters := <[key := value]> (os_level_counters st) |}.

(** [l[k]] for a position that is not negative; [IndexError] outside the
    list. *)
Definition list_get {A} (l : list A) (k : Z) : Result A :=
  match py_nth l k with
  | Some x => Ok x
  | None => Raise IndexError
  end.

(** ['.'.join(str(n) for n in nums) + suffix] *)
Definition expected_prefix (nums : list Z) (suffix : str) : str :=
  join_numbers nums ++ suffix.

(** [l[:k]] and [l[k:]] for [k >= 0] *)
Definition slice_to {A} (l : list A) (k : Z) : list A := take (Z.to_nat k) l.

(** The local function [traverse]. *)
Fixpoint traverse (node : ListNode) (parent_number : option Z)
    (parent_prefix : str) (st : OrderState) : Result OrderState :=
  match node with
  | mkListNode prefix level numbers paragraph children =>
      if (level =? -1)%Z then
        fold_left
          (λ acc child,
             st ← acc; traverse child None [] (os_advance st))
          children (Ok st)
      else
        actual ← list_get numbers level;
        let counter_key := (level, parent_prefix) in
        let expected :=
          (default 0 (os_level_counters st !! counter_key) + 1)%Z in
        let suffix := if endswith prefix (U ")") then U ")" else U "." in
        let st :=
          if negb (actual =? expected)%Z then
            os_report st
              (os_position st, prefix,
               expected_prefix (slice_to numbers level ++ [expected]) suffix,
               paragraph)
          else st in
        let st := os_count st counter_key expected in
        st ←
          (if (0 <? level)%Z then
             match parent_number with
             | None =>
                 Ok (os_report st
                       (os_position st, prefix,
                        expected_prefix numbers suffix, paragraph))
             | Some parent_number =>
                 first ← list_get numbers 0;
                 if negb (first =? parent_number)%Z then
                   Ok (os_report st
                         (os_position st, prefix,
                          expected_prefix (parent_number :: drop 1 numbers)
                            suffix,
                          paragraph))
                 else Ok st
             end
           else Ok st);
        new_parent_number ←
          (if (level =? 0)%Z then first ← list_get numbers 0; Ok (Some first)
           else Ok parent_number);
        let new_parent_prefix :=
          if (level <? 2)%Z then prefix else parent_prefix in
        fold_left
          (λ acc child,
             st ← acc;
             traverse child new_parent_number new_parent_prefix
               (os_advance st))
          children (Ok st)
  end.

Definition check_numbering_order (root : ListNode)
    : Result (list OrderError) :=
  st ← traverse root None []
          {| os_position := 0; os_errors := []; os_level_counters := ∅ |};
  Ok (os_errors st).



(** The entries [check_numbering_order] returns for a group of items
    numbered on one level, the [k]-th of them with the number [n]: one for
    every item whose number is not its rank. *)
Fixpoint flat_order_errors (rank : Z) (items : list (ListItem * Z))
    : list OrderError :=
  match items with
  | [] => []
  | ((prefix, _, paragraph), n) :: rest =>
      (if (n =? rank)%Z then []
       else [(rank, prefix,
              PyStr.of_Z rank
              ++ (if endswith prefix (U ")") then U ")" else U "."),
              Some paragraph)])
      ++ flat_order_errors (rank + 1) rest
  end.

(** The node of an item numbered on one level. *)
Definition flat_node (ik : ListItem * Z) : ListNode :=
  mkListNode ik.1.1.1 0 [ik.2] (Some ik.1.2) [].

(** ** Lists: [validate_resource_list] and [validate_lists] *)

(** [run.font.size is not None and run.font.size.pt in [14, 16] and
    run.font.bold] for some run with text *)
Definition is_potential_heading (p : Paragraph) : bool :=
  existsb (λ r, nonblank r
                && match font_size r with
                   | Some z =>
                       (PrimFloat.eqb (pt z) 14 || PrimFloat.eqb (pt z) 16)
                       && truthy (font_bold r)
                   | None => false
                   end) (runs p).

(** [first_line_indent is None or
     abs(first_line_indent.inches - expected_indent.inches) > 0.01] *)
Definition indent_is_not_expected (x : option Z) : bool :=
  match x with
  | None => true
  | Some z =>
      fgt (PrimFloat.abs (inches z - inches expected_indent)%float) 0.01
  end.

Definition ALLOWED_END_CHARS : list N := [44%N; 59%N].
Definition FINAL_END_CHAR : str := U ".".

(** Lines 1375-1419: the closing punctuation of the items of a group.
    [end_char] is the variable the iterations share. *)
Definition punctuation_step (doc : Document) (size : nat)
    (acc : Errors * option N) (ind_item : nat * ListItem)
    : Errors * option N :=
  let '(errors, end_char) := acc in
  let '(ind, (_, content, i)) := ind_item in
  match paragraphs doc !! i with
  | None => acc
  | Some paragraph =>
      let el := ElParagraph paragraph in
      let idx := get_paragraph_index_by_content doc i in
      let ety := DocumentElementType.PARAGRAPH in
      if is_potential_heading paragraph then acc
      else if (ind =? 0) && (1 <? size) then
        let valid :=
          match last content with
          | Some c => bool_decide (c ∈ ALLOWED_END_CHARS)
          | None => false
          end in
        (when (negb (PyStr.eqb content []) && negb valid)
           (report (U "Первый элемент списка должен заканчиваться запятой или точкой с запятой.")
              el idx ety) errors,
         if valid then last content else None)
      else if ind =? size - 1 then
        (when (negb (PyStr.eqb content [])
               && negb (endswith content FINAL_END_CHAR))
           (report (U "Последний элемент списка должен заканчиваться точкой.")
              el idx ety) errors,
         end_char)
      else
        let end_char :=
          match end_char, last content with
          | None, Some c =>
              Some (if bool_decide (c ∈ ALLOWED_END_CHARS) then c else 44%N)
          | _, _ => end_char
          end in
        (when (negb (PyStr.eqb content [])
               && match end_char with
                  | Some c => negb (endswith content [c])
                  | None => false
                  end)
           (report (U "Элемент списка должен заканчиваться на тот же символ, что и первый элемент.")
              el idx ety) errors,
         end_char)
  end.

Definition check_group_punctuation (doc : Document) (group : list ListItem)
    : Check :=
  λ errors,
    (fold_left (punctuation_step doc (length group)) (enumerate group)
       (errors, None)).1.




(** The record of a punctuation rule for an item. *)
Definition punctuation_error (doc : Document) (msg : str) (item : ListItem)
    : Errors :=
  match paragraphs doc !! item.2 with
  | Some p =>
      [error_dict msg (ElParagraph p)
         (Some (get_paragraph_index_by_content doc item.2))
         (Some DocumentElementType.PARAGRAPH)]
  | None => []
  end.

(** An item the punctuation rules apply to: it has some content and its
    paragraph is not formatted as a potential heading. *)
Definition regular_item (doc : Document) (item : ListItem) : Prop :=
  item.1.2 ≠ []
  ∧ ∃ p, paragraphs doc !! item.2 = Some p ∧ is_potential_heading p = false.

Definition first_item_message : str :=
  U "Первый элемент списка должен заканчиваться запятой или точкой с запятой.".
Definition last_item_message : str :=
  U "Последний элемент списка должен заканчиваться точкой.".
Definition middle_item_message : str :=
  U "Элемент списка должен заканчиваться на тот же символ, что и первый элемент.".

(** Three numbered paragraphs: the first ends with a comma, the second
    with a semicolon, the third with a full stop. *)
Definition punctuation_doc : Document :=
  {| paragraphs := [numbered_paragraph (U "первый,") (U "1") 0;
                    numbered_paragraph (U "второй;") (U "1") 0;
                    numbered_paragraph (U "третий.") (U "1") 0];
     tables := [];
     body := [BlockParagraph 0; BlockParagraph 1; BlockParagraph 2];
     default_style_name := U "Normal"; numbering := sample_numbering |}.

(** *** [validate_resource_list] *)



Section ValidateLists.

(** The check of a bibliographic record, taken as given: the arguments are
    the document, the text of the record, the position of the paragraph and
    the index to report. *)
Variable validate_bibliographic_entry : Document → str → nat → Z → Check.



(** *** [validate_lists] *)









End ValidateLists.


(** ** Body text: [check_general_formatting] *)

(** The prefixes of the paragraphs the check of the body text leaves out
    (lines 2600-2606). *)
Definition general_skip_prefixes : list str :=
  [U "Таблица "; U "Рисунок "; U "Листинг "; U "Продолжение таблицы ";
   U "Окончание таблицы "; U "Введение"; U "Заключение";
   U "Перечень использованных информационных ресурсов"].

(** The four tests that make the loop skip a paragraph (lines 2595-2607). *)
Definition is_skipped_paragraph (excluded : list nat) (i : nat)
    (paragraph : Paragraph) : bool :=
  let stripped := strip (text paragraph) in
  PyStr.eqb stripped []
  || bool_decide (i ∈ excluded)
  || bool_decide (is_Some (Re.match_ re_heading_format stripped))
  || (startswith_any stripped general_skip_prefixes
      || startswith stripped (U "Приложение ")).

(** [any(f(run) for run in paragraph.runs if run.text and run.text.strip())]:
    the flags [font_error], [size_error], ... of lines 2619-2640. *)
Definition run_flag (paragraph : Paragraph) (f : Run → bool) : bool :=
  existsb (λ run, nonblank run && f run) (runs paragraph).

(** [abs(line_spacing - 1.5) > 0.01], [True] without a line spacing *)
Definition line_spacing_is_not_expected (ls : option LineSpacing) : bool :=
  match ls with
  | None => true
  | Some ls => fgt (PrimFloat.abs (line_spacing_value ls - 1.5)%float) 0.01
  end.

(** Lines 2617-2764: the checks of one paragraph of the body text. *)
Definition check_general_paragraph (paragraph : Paragraph) (i : nat)
    : Check :=
  let el := ElParagraph paragraph in
  let idx := Z.of_nat i in
  let ety := DocumentElementType.PARAGRAPH in
  checks [
    check_double_spaces (text paragraph) paragraph i;
    when (run_flag paragraph (λ run,
            name_given_without (font_name run) (U "Times New Roman")))
      (report (U "В абзаце шрифт должен быть Times New Roman.") el idx ety);
    when (run_flag paragraph (λ run, size_given_and_not (font_size run) 14))
      (report (U "В абзаце размер шрифта должен быть 14 pt.") el idx ety);
    when (run_flag paragraph (λ run,
            bool_decide (font_bold run = Some true)))
      (report (U "В абзаце недопустим жирный шрифт.") el idx ety);
    when (run_flag paragraph (λ run,
            bool_decide (font_italic run = Some true)))
      (report (U "В абзаце недопустим курсив.") el idx ety);
    when (run_flag paragraph (λ run,
            bool_decide (font_underline run ≠ None)))
      (report (U "В абзаце недопустимо подчёркивание.") el idx ety);
    when (line_spacing_is_not_expected (line_spacing paragraph))
      (report (U "В абзаце межстрочный интервал должен быть 1.5.")
         el idx ety);
    when (indent_is_not_expected (first_line_indent paragraph))
      (report (U "В абзаце отступ первой строки должен быть 1.25 см.")
         el idx ety);
    when (negb (bool_decide (indent_sides paragraph = [])))
      (report (U "В абзаце отступ " ++ join (U " и ") (indent_sides paragraph)
               ++ U " не допускается.") el idx ety);
    when (spacing_given paragraph)
      (report (U "В абзаце интервал перед или после абзаца не допускается.")
         el idx ety);
    when (negb (alignment_is (alignment paragraph)
                  WD_ALIGN_PARAGRAPH.JUSTIFY))
      (report (U "В абзаце текст должен быть выровнен по ширине.")
         el idx ety)].

(** The body of the loop: the errors and the list [code_paragraphs]. *)
Definition general_step (excluded : list nat) (st : Errors * list nat)
    (ip : nat * Paragraph) : Errors * list nat :=
  let '(i, paragraph) := ip in
  if is_skipped_paragraph excluded i paragraph then st
  else if is_code paragraph then (st.1, st.2 ++ [i])
  else (check_general_paragraph paragraph i st.1, st.2).

(** [check_general_formatting]: the flag [issues_found], the errors, and the
    list [code_paragraphs] as the call leaves it. *)
Definition check_general_formatting (doc : Document)
    (table_and_image_captions heading_and_list_and_structural_paragraphs
     code_paragraphs : list nat) : bool * Errors * list nat :=
  let excluded :=
    table_and_image_captions ++ heading_and_list_and_structural_paragraphs
    ++ code_paragraphs in
  let st :=
    fold_left (general_step excluded) (enumerate (paragraphs doc))
      ([], code_paragraphs) in
  (match st.1 with [] => false | _ :: _ => true end, st.1, st.2).

(** A paragraph that the check of the body text looks at. *)
Definition is_body_paragraph (excluded : list nat) (i : nat)
    (paragraph : Paragraph) : bool :=
  negb (is_skipped_paragraph excluded i paragraph)
  && negb (is_code paragraph).

(** What the check accepts in a run with text: a font name that is absent or
    holds [Times New Roman], a size that is absent or 14 pt, no bold or
    italic set to [True], no underline setting at all. *)
Definition body_run_ok (run : Run) : Prop :=
  name_given_without (font_name run) (U "Times New Roman") = false
  ∧ size_given_and_not (font_size run) 14 = false
  ∧ font_bold run ≠ Some true
  ∧ font_italic run ≠ Some true
  ∧ font_underline run = None.

(** What the check accepts in a paragraph. *)
Definition body_paragraph_ok (paragraph : Paragraph) : Prop :=
  Re.search (Seq (Chr 32) (Plus (Chr 32))) (text paragraph) = false
  ∧ (∀ run, run ∈ runs paragraph → nonblank run = true → body_run_ok run)
  ∧ line_spacing_is_not_expected (line_spacing paragraph) = false
  ∧ indent_is_not_expected (first_line_indent paragraph) = false
  ∧ inches_exceed (left_indent paragraph) = false
  ∧ inches_exceed (right_indent paragraph) = false
  ∧ pt_exceed (space_before paragraph) = false
  ∧ pt_exceed (space_after paragraph) = false
  ∧ alignment paragraph = Some WD_ALIGN_PARAGRAPH.JUSTIFY.

(** The records of one paragraph, on their own. *)
Definition general_records (excluded : list nat) (ip : nat * Paragraph)
    : Errors :=
  if is_body_paragraph excluded ip.1 ip.2
  then check_general_paragraph ip.2 ip.1 [] else [].

(** The messages of [check_general_paragraph], in the order of the checks. *)
Definition general_messages (paragraph : Paragraph) : list str :=
  [U "В тексте обнаружены двойные пробелы. Допускается только один пробел между словами.";
   U "В абзаце шрифт должен быть Times New Roman.";
   U "В абзаце размер шрифта должен быть 14 pt.";
   U "В абзаце недопустим жирный шрифт.";
   U "В абзаце недопустим курсив.";
   U "В абзаце недопустимо подчёркивание.";
   U "В абзаце межстрочный интервал должен быть 1.5.";
   U "В абзаце отступ первой строки должен быть 1.25 см.";
   U "В абзаце отступ " ++ join (U " и ") (indent_sides paragraph)
   ++ U " не допускается.";
   U "В абзаце интервал перед или после абзаца не допускается.";
   U "В абзаце текст должен быть выровнен по ширине."].

(** The index and the message of a record. *)
Definition keyed (e : ErrorRecord) : Z * str := (index e, message e).

(** * Properties *)

(** ** Strings *)

Example U_appendix :
  U "Приложение Ё" =
  [1055; 1088; 1080; 1083; 1086; 1078; 1077; 1085; 1080; 1077; 32; 1025]%N.
Proof. reflexivity. Qed.

Example of_Z_12 : PyStr.of_Z 12 = U "12".
Proof. reflexivity. Qed.

Example split_on_dots : split_on 46%N (U "1.12.3") = [U "1"; U "12"; U "3"].
Proof. reflexivity. Qed.

Example strip_example : strip (U "  1.1 Обзор ") = U "1.1 Обзор".
Proof. reflexivity. Qed.


(** ** Deduplication of error records *)

(** Position [i] of [errors] holds the first record with its key. *)
Definition first_occurrence (errors : list ErrorRecord) (i : nat) : Prop :=
  ∃ e, errors !! i = Some e ∧
       ∀ j e', j < i → errors !! j = Some e' → error_key e' ≠ error_key e.

Lemma first_occurrence_lt errors i :
  first_occurrence errors i → i < length errors.
Proof. intros (e & He & _). by eapply lookup_lt_Some. Qed.

Lemma first_occurrence_app_l pre rest i :
  i < length pre →
  first_occurrence (pre ++ rest) i ↔ first_occurrence pre i.
Proof.
  intros Hi. split; intros (e & He & Hfirst).
  - rewrite lookup_app_l in He by done. exists e. split; [done|].
    intros j e' Hj He'. apply (Hfirst j e' Hj).
    rewrite lookup_app_l; [done|lia].
  - exists e. split; [by rewrite lookup_app_l|].
    intros j e' Hj He'. apply (Hfirst j e' Hj).
    rewrite lookup_app_l in He'; [done|lia].
Qed.

Lemma first_occurrence_snoc pre e :
  first_occurrence (pre ++ [e]) (length pre) ↔
  error_key e ∉ error_key <$> pre.
Proof.
  split.
  - intros (e0 & He0 & Hfirst) Hin.
    rewrite lookup_app_r, Nat.sub_diag in He0 by lia. simplify_eq/=.
    apply list_elem_of_fmap in Hin as (e' & Hk & Hin).
    apply list_elem_of_lookup in Hin as (j & Hj).
    apply (Hfirst j e'); [by eapply lookup_lt_Some| |done].
    rewrite lookup_app_l; [done|by eapply lookup_lt_Some].
  - intros Hnin. exists e. split.
    + by rewrite lookup_app_r, Nat.sub_diag by lia.
    + intros j e' Hj He' Hk. apply Hnin.
      rewrite lookup_app_l in He' by done.
      apply list_elem_of_fmap. exists e'. split; [done|].
      by eapply list_elem_of_lookup_2.
Qed.

(** What the loop of [remove_duplicate_errors] maintains after reading the
    prefix [pre]: [seen] holds the keys of [pre], and [unique] lists the
    records found at the first-occurrence positions, in increasing order. *)
Record dedup_inv (pre : list ErrorRecord) (seen : gset ErrorKey)
    (unique : list ErrorRecord) (positions : list nat) : Prop := {
  inv_seen : ∀ k, k ∈ seen ↔ k ∈ error_key <$> pre;
  inv_nodup : NoDup (error_key <$> unique);
  inv_keys : ∀ k, k ∈ error_key <$> unique → k ∈ seen;
  inv_sorted : StronglySorted lt positions;
  inv_first : ∀ i, i ∈ positions ↔ first_occurrence pre i;
  inv_at : Forall2 (λ i e, pre !! i = Some e) positions unique
}.

Lemma StronglySorted_snoc_lt (l : list nat) (n : nat) :
  StronglySorted lt l → Forall (λ i, i < n) l → StronglySorted lt (l ++ [n]).
Proof.
  induction 1 as [|x l Hs IH Hx]; intros Hall; simpl.
  - repeat constructor.
  - apply Forall_cons in Hall as [Hxn Hall]. constructor; [by apply IH|].
    apply Forall_app. split; [done|]. by repeat constructor.
Qed.

Lemma dedup_inv_step pre seen unique positions e :
  dedup_inv pre seen unique positions →
  if decide (error_key e ∈ seen) then
    dedup_inv (pre ++ [e]) seen unique positions
  else
    dedup_inv (pre ++ [e]) ({[error_key e]} ∪ seen) (unique ++ [e])
      (positions ++ [length pre]).
Proof.
  intros [Hseen Hnd Hkeys Hsort Hfirst Hat].
  assert (Hlt : Forall (λ i, i < length pre) positions).
  { apply Forall_forall. intros i Hi. apply Hfirst in Hi.
    by apply first_occurrence_lt in Hi. }
  destruct (decide (error_key e ∈ seen)) as [Hin|Hnin]; split.
  - intros k. rewrite fmap_app, elem_of_app, <- Hseen. simpl.
    rewrite list_elem_of_singleton. split; [by left|].
    by intros [?| ->].
  - done.
  - done.
  - done.
  - intros i. rewrite Hfirst. split.
    + intros Hi. apply first_occurrence_app_l; [|done].
      by apply first_occurrence_lt in Hi.
    + intros Hi. pose proof (first_occurrence_lt _ _ Hi) as Hl.
      rewrite length_app in Hl. simpl in Hl.
      destruct (decide (i = length pre)) as [->|Hne].
      * apply first_occurrence_snoc in Hi. by apply Hseen in Hin.
      * apply first_occurrence_app_l in Hi; [done|lia].
  - eapply Forall2_impl; [exact Hat|]. simpl. intros i e' Hi.
    rewrite lookup_app_l; [done|by eapply lookup_lt_Some].
  - intros k. rewrite fmap_app, elem_of_app, <- Hseen. simpl.
    rewrite list_elem_of_singleton, elem_of_union, elem_of_singleton.
    tauto.
  - rewrite fmap_app. simpl. apply NoDup_app. split_and!; [done| |].
    + intros k Hk. rewrite list_elem_of_singleton. intros ->.
      by apply Hkeys in Hk.
    + apply NoDup_singleton.
  - intros k. rewrite fmap_app, elem_of_app. simpl.
    rewrite list_elem_of_singleton, elem_of_union, elem_of_singleton.
    intros [Hk| ->]; [right|by left]. by apply Hkeys.
  - by apply StronglySorted_snoc_lt.
  - intros i. rewrite elem_of_app, list_elem_of_singleton, Hfirst. split.
    + intros [Hi| ->].
      * apply first_occurrence_app_l; [|done].
        by apply first_occurrence_lt in Hi.
      * apply first_occurrence_snoc. by rewrite <- Hseen.
    + intros Hi. pose proof (first_occurrence_lt _ _ Hi) as Hl.
      rewrite length_app in Hl. simpl in Hl.
      destruct (decide (i = length pre)) as [->|Hne]; [by right|left].
      apply first_occurrence_app_l in Hi; [done|lia].
  - apply Forall2_app.
    + eapply Forall2_impl; [exact Hat|]. simpl. intros i e' Hi.
      rewrite lookup_app_l; [done|by eapply lookup_lt_Some].
    + repeat constructor. by rewrite lookup_app_r, Nat.sub_diag by lia.
Qed.

Lemma remove_duplicate_errors_loop_inv rest :
  ∀ pre seen unique positions,
    dedup_inv pre seen unique positions →
    ∃ seen' positions',
      dedup_inv (pre ++ rest) seen'
        (remove_duplicate_errors_loop seen unique rest) positions'.
Proof.
  induction rest as [|e rest IH]; intros pre seen unique positions Hinv.
  - exists seen, positions. by rewrite app_nil_r.
  - simpl. pose proof (dedup_inv_step _ _ _ _ e Hinv) as Hstep.
    replace (pre ++ e :: rest) with ((pre ++ [e]) ++ rest)
      by (by rewrite <- app_assoc).
    destruct (decide (error_key e ∈ seen)); by eapply IH.
Qed.

Lemma dedup_inv_init : dedup_inv [] ∅ [] [].
Proof.
  split.
  - intros k. simpl. rewrite elem_of_nil, elem_of_empty. tauto.
  - constructor.
  - intros k. simpl. by rewrite elem_of_nil.
  - constructor.
  - intros i. rewrite elem_of_nil. split; [done|].
    intros Hi%first_occurrence_lt. simpl in Hi. lia.
  - constructor.
Qed.

(** C4. For every list of error records, the result of
    [remove_duplicate_errors] holds no two records with the same
    (category, message, paragraph text, location index, element kind)
    tuple, and it consists of the records found at the first occurrence
    of each tuple, in their original order. *)
Theorem remove_duplicate_errors_keeps_first_occurrences
    (errors : list ErrorRecord) :
  NoDup (error_key <$> remove_duplicate_errors errors) ∧
  ∃ positions : list nat,
    StronglySorted lt positions ∧
    (∀ i, i ∈ positions ↔ first_occurrence errors i) ∧
    Forall2 (λ i e, errors !! i = Some e)
      positions (remove_duplicate_errors errors).
Proof.
  destruct (remove_duplicate_errors_loop_inv errors [] ∅ [] [] dedup_inv_init)
    as (seen' & positions & [_ Hnd _ Hsort Hfirst Hat]).
  simpl in *. split; [done|]. by exists positions.
Qed.

(** ** Annotation: [add_comments_to_document] *)

(** The record names no paragraph or table of [doc]: it is of paragraph
    kind with an index outside [doc.paragraphs] (such as [-1]), of table
    kind with an index outside [doc.tables], or of neither kind. *)
Definition unlocated (doc : Document) (err : ErrorRecord) : Prop :=
  match element_type err with
  | Some DocumentElementType.PARAGRAPH =>
      in_range (index err) (paragraphs doc) = false
  | Some DocumentElementType.TABLE =>
      in_range (index err) (tables doc) = false
  | _ => True
  end.


Section AnnotationFacts.

Variable add_comment_raises : Paragraph → Comment → bool.
Variables author initials : str.

Local Abbreviation annotate1 :=
  (comment_error add_comment_raises author initials).
Local Abbreviation annotate :=
  (comment_errors add_comment_raises author initials).

Lemma comment_error_lengths doc err :
  length (paragraphs (annotate1 doc err)) = length (paragraphs doc) ∧
  length (tables (annotate1 doc err)) = length (tables doc).
Proof.
  unfold comment_error.
  destruct (element_type err) as [[]|]; simpl; try done.
  - destruct (in_range _ _); [|done].
    destruct (_ !! _); [|done]. destruct (add_comment _ _ _); [|done].
    simpl. by rewrite length_insert.
  - destruct (in_range _ _); [|done].
    destruct (_ !! _); [|done]. simpl. by rewrite length_insert.
Qed.

Lemma comment_errors_lengths errors : ∀ doc,
  length (paragraphs (annotate doc errors)) = length (paragraphs doc)
  ∧ length (tables (annotate doc errors)) = length (tables doc).
Proof.
  induction errors as [|e errors IH]; intros doc; simpl; [done|].
  destruct (IH (annotate1 doc e)) as [-> ->].
  apply comment_error_lengths.
Qed.

Lemma unlocated_lengths doc doc' err :
  length (paragraphs doc') = length (paragraphs doc) →
  length (tables doc') = length (tables doc) →
  unlocated doc err → unlocated doc' err.
Proof.
  unfold unlocated, in_range. intros -> ->. done.
Qed.

Lemma comment_error_unlocated doc err :
  unlocated doc err → annotate1 doc err = doc.
Proof.
  unfold unlocated, comment_error.
  destruct (element_type err) as [[]|]; try done; by intros ->.
Qed.

Lemma comment_errors_app doc errs1 errs2 :
  annotate doc (errs1 ++ errs2) =
  annotate (annotate doc errs1) errs2.
Proof. apply fold_left_app. Qed.

End AnnotationFacts.

(** C10. [add_comments_to_document] is total over its error records: a
    record whose index is [-1] or outside the paragraph list (the table
    list, for a record of table kind) attaches no comment and raises
    nothing, the other records are processed as if it were absent, and the
    document is saved once, at the end. *)
Theorem add_comments_to_document_skips_unlocated
    (add_comment_raises : Paragraph → Comment → bool) (w : World)
    (doc : Document) (errs1 : list ErrorRecord) (err : ErrorRecord)
    (errs2 : list ErrorRecord) (output_path author initials : str) :
  unlocated doc err →
  let annotate := comment_errors add_comment_raises author initials in
  comment_error add_comment_raises author initials (annotate doc errs1) err
  = annotate doc errs1
  ∧ annotate doc (errs1 ++ err :: errs2) = annotate doc (errs1 ++ errs2)
  ∧ add_comments_to_document add_comment_raises w doc
      (errs1 ++ err :: errs2) output_path author initials
    = if decide (output_path ∈ locked w) then Raise PermissionError
      else Ok (set_file w output_path
                 (DocxFile (annotate doc (errs1 ++ errs2)))).
Proof.
  intros Hun annotate.
  assert (Hskip : comment_error add_comment_raises author initials
                    (annotate doc errs1) err = annotate doc errs1).
  { apply comment_error_unlocated.
    destruct (comment_errors_lengths add_comment_raises author initials
                errs1 doc) as [Hp Ht].
    by eapply unlocated_lengths. }
  assert (Hsame : annotate doc (errs1 ++ err :: errs2)
                  = annotate doc (errs1 ++ errs2)).
  { unfold annotate in *. rewrite !comment_errors_app. simpl.
    by rewrite Hskip. }
  split_and!; [done|done|].
  unfold add_comments_to_document, save_document, annotate in *.
  by rewrite Hsame.
Qed.

Lemma add_comments_to_document_skips_unlocated_witness :
  let doc := sample_doc [body_paragraph (U "Текст")] in
  let e1 := sample_error (U "первая") 0%Z (Some DocumentElementType.PARAGRAPH) in
  let e2 := sample_error (U "вторая") (-1)%Z (Some DocumentElementType.PARAGRAPH) in
  let e3 := sample_error (U "третья") 0%Z (Some DocumentElementType.PARAGRAPH) in
  let annotate := comment_errors never_raises (U "V") (U "V") in
  unlocated doc e2
  ∧ comment_error never_raises (U "V") (U "V") (annotate doc [e1]) e2
    = annotate doc [e1]
  ∧ annotate doc ([e1] ++ e2 :: [e3]) = annotate doc ([e1] ++ [e3])
  ∧ add_comments_to_document never_raises empty_world doc
      ([e1] ++ e2 :: [e3]) (U "out.docx") (U "V") (U "V")
    = if decide (U "out.docx" ∈ locked empty_world)
      then Raise PermissionError
      else Ok (set_file empty_world (U "out.docx")
                 (DocxFile (annotate doc ([e1] ++ [e3])))).
Proof.
  intros doc e1 e2 e3 annotate.
  split; [reflexivity|].
  apply (add_comments_to_document_skips_unlocated never_raises empty_world
           doc [e1] e2 [e3] (U "out.docx") (U "V") (U "V")).
  reflexivity.
Defined.

(** ** The entry point: [check_document_formatting] *)

(** C1. When the input path names no existing file, the call returns
    [False] and leaves the file system as it was: neither the copy nor the
    report is created. *)
Theorem check_document_formatting_missing_input
    (add_comment_raises : Paragraph → Comment → bool) (P : Passes)
    (w : World) (file_path new_file_path json_file_path : str) :
  os_path_exists w file_path = false →
  check_document_formatting add_comment_raises P w
    file_path new_file_path json_file_path = (false, w).
Proof.
  intros Hmissing. unfold check_document_formatting.
  by rewrite Hmissing.
Qed.

Lemma check_document_formatting_missing_input_witness :
  os_path_exists empty_world (U "in.docx") = false
  ∧ check_document_formatting never_raises (constant_passes []) empty_world
      (U "in.docx") (U "in_NEW.docx") (U "in_errors.json")
    = (false, empty_world).
Proof.
  split; [reflexivity|].
  apply check_document_formatting_missing_input. reflexivity.
Defined.


Section AnnotationWithoutFailure.

Variable add_comment_raises : Paragraph → Comment → bool.
Variables author initials : str.
Hypothesis no_failure : ∀ p c, add_comment_raises p c = false.

Local Abbreviation annotate1 :=
  (comment_error add_comment_raises author initials).
Local Abbreviation annotate :=
  (comment_errors add_comment_raises author initials).






End AnnotationWithoutFailure.

Lemma shutil_copyfile_Ok w src dst w1 :
  shutil_copyfile w src dst = Ok w1 →
  ∃ c, files w !! src = Some c ∧ w1 = set_file w dst c ∧ dst ∉ locked w.
Proof.
  unfold shutil_copyfile. destruct (files w !! src) as [c|]; [|done].
  repeat case_decide; try done. intros [= <-]. by exists c.
Qed.

(** A run in which the copy, the opening and every pass succeed, and the
    report path can be written. *)
Lemma check_document_formatting_completes
    (add_comment_raises : Paragraph → Comment → bool) (P : Passes)
    (w w1 : World) (file_path new_file_path json_file_path : str)
    (d0 d1 : Document) (errs : list ErrorRecord) :
  os_path_exists w file_path = true →
  shutil_copyfile w file_path new_file_path = Ok w1 →
  open_document w1 new_file_path = Ok d0 →
  run_passes P d0 = Ok (errs, d1) →
  json_file_path ∉ locked w →
  check_document_formatting add_comment_raises P w
    file_path new_file_path json_file_path =
  (true,
   match remove_duplicate_errors errs with
   | [] => set_file w1 new_file_path (DocxFile d1)
   | (_ :: _) as all_errors =>
       set_file (set_file w1 json_file_path (JsonFile all_errors))
         new_file_path
         (DocxFile (comment_errors add_comment_raises (U "Документёр")
                      (U "F") d1 all_errors))
   end).
Proof.
  intros Hex Hcopy Hopen Hpasses Hjson.
  unfold check_document_formatting. rewrite Hex, Hcopy. simpl.
  apply shutil_copyfile_Ok in Hcopy as (c & Hc & -> & Hdst).
  assert (Hex1 : os_path_exists (set_file w new_file_path c) new_file_path
                 = true).
  { unfold os_path_exists, set_file. simpl. apply bool_decide_eq_true.
    rewrite lookup_insert_eq. by eexists. }
  rewrite Hex1, Hopen, Hpasses. simpl.
  destruct (remove_duplicate_errors errs) as [|e all].
  - unfold save_document. simpl. by rewrite decide_False.
  - unfold dump_json, add_comments_to_document, save_document. simpl.
    rewrite (decide_False (P := json_file_path ∈ locked w)) by done.
    simpl. by rewrite decide_False.
Qed.




(** C3 (amended). When the copy was created and opened, every pass
    returned and the report path can be written, the copy is always saved
    again; the report is written only for a non-empty deduplicated list
    (for an empty one the report path is left as it was), and only a
    non-empty list has comments attached: with an empty list the saved
    copy is the document as the passes left it. *)
Theorem check_document_formatting_report_only_with_errors
    (add_comment_raises : Paragraph → Comment → bool) (P : Passes)
    (w w1 : World) (file_path new_file_path json_file_path : str)
    (d0 d1 : Document) (errs : list ErrorRecord) :
  os_path_exists w file_path = true →
  shutil_copyfile w file_path new_file_path = Ok w1 →
  open_document w1 new_file_path = Ok d0 →
  run_passes P d0 = Ok (errs, d1) →
  json_file_path ∉ locked w →
  new_file_path ≠ json_file_path →
  let all_errors := remove_duplicate_errors errs in
  let result :=
    check_document_formatting add_comment_raises P w
      file_path new_file_path json_file_path in
  result.1 = true
  ∧ files result.2 !! new_file_path =
      Some (DocxFile
              match all_errors with
              | [] => d1
              | _ :: _ =>
                  comment_errors add_comment_raises (U "Документёр")
                    (U "F") d1 all_errors
              end)
  ∧ files result.2 !! json_file_path =
      match all_errors with
      | [] => files w !! json_file_path
      | _ :: _ => Some (JsonFile all_errors)
      end.
Proof.
  intros Hex Hcopy Hopen Hpasses Hjson Hne all_errors result.
  unfold result.
  rewrite (check_document_formatting_completes _ _ _ _ _ _ _ _ _ _
             Hex Hcopy Hopen Hpasses Hjson).
  apply shutil_copyfile_Ok in Hcopy as (c & Hc & -> & Hdst).
  fold all_errors. destruct all_errors as [|e all]; simpl.
  - rewrite lookup_insert_eq, !lookup_insert_ne by done. done.
  - rewrite lookup_insert_eq, lookup_insert_ne, lookup_insert_eq by done.
    done.
Qed.

Lemma check_document_formatting_report_only_with_errors_witness :
  let w := world_with (U "in.docx") one_paragraph_doc in
  let w1 := set_file w (U "in_NEW.docx") (DocxFile one_paragraph_doc) in
  let P := constant_passes [located_error] in
  let all_errors := remove_duplicate_errors [located_error] in
  let result :=
    check_document_formatting never_raises P w
      (U "in.docx") (U "in_NEW.docx") (U "in_errors.json") in
  (os_path_exists w (U "in.docx") = true
   ∧ shutil_copyfile w (U "in.docx") (U "in_NEW.docx") = Ok w1
   ∧ open_document w1 (U "in_NEW.docx") = Ok one_paragraph_doc
   ∧ run_passes P one_paragraph_doc = Ok ([located_error], one_paragraph_doc)
   ∧ (U "in_errors.json" ∉ locked w)
   ∧ U "in_NEW.docx" ≠ U "in_errors.json")
  ∧ result.1 = true
  ∧ files result.2 !! U "in_NEW.docx" =
      Some (DocxFile
              match all_errors with
              | [] => one_paragraph_doc
              | _ :: _ =>
                  comment_errors never_raises (U "Документёр") (U "F")
                    one_paragraph_doc all_errors
              end)
  ∧ files result.2 !! U "in_errors.json" =
      match all_errors with
      | [] => files w !! U "in_errors.json"
      | _ :: _ => Some (JsonFile all_errors)
      end.
Proof.
  intros w w1 P all_errors result.
  assert (H1 : os_path_exists w (U "in.docx") = true) by reflexivity.
  assert (H2 : shutil_copyfile w (U "in.docx") (U "in_NEW.docx") = Ok w1)
    by reflexivity.
  assert (H3 : open_document w1 (U "in_NEW.docx") = Ok one_paragraph_doc)
    by reflexivity.
  assert (H4 : run_passes P one_paragraph_doc
               = Ok ([located_error], one_paragraph_doc)) by reflexivity.
  assert (H5 : U "in_errors.json" ∉ locked w) by apply not_elem_of_empty.
  assert (H6 : U "in_NEW.docx" ≠ U "in_errors.json") by (by vm_compute).
  split; [done|].
  exact (check_document_formatting_report_only_with_errors never_raises P w
           w1 (U "in.docx") (U "in_NEW.docx") (U "in_errors.json")
           one_paragraph_doc one_paragraph_doc [located_error]
           H1 H2 H3 H4 H5 H6).
Defined.

(** C3 as stated fails: for a run without violations the copy is created
    and saved again, the call returns [True], and no report is written. *)
Lemma check_document_formatting_no_report_without_errors :
  let result :=
    check_document_formatting never_raises (constant_passes [])
      (world_with (U "in.docx") one_paragraph_doc)
      (U "in.docx") (U "in_NEW.docx") (U "in_errors.json") in
  result.1 = true
  ∧ files result.2 !! U "in_NEW.docx" = Some (DocxFile one_paragraph_doc)
  ∧ files result.2 !! U "in_errors.json" = None.
Proof.
  vm_compute. by split_and!.
Qed.

(** ** Regular expressions *)

Example re_heading_pattern :
  Re.match_
    (Re.Seq (Re.Grp 1 (Re.Seq (Re.Plus Re.digit)
                         (Re.Star (Re.Seq (Re.Chr 46) (Re.Plus Re.digit)))))
       (Re.Seq (Re.Plus Re.space) (Re.Grp 2 (Re.Plus Re.any))))
    (U "1.12  Обзор")
  = Some (U "1.12  Обзор", [(2, U "Обзор"); (1, U "1.12")]).
Proof. reflexivity. Qed.

Example re_backtracks :
  Re.fullmatch (Re.Seq (Re.Star Re.any) (Re.Lit (U "ab"))) (U "xxabab")
  = Some [].
Proof. reflexivity. Qed.

Example re_sub_template :
  Re.sub (Re.Seq (Re.Chr 37) (Re.Grp 1 (Re.Seq (Re.Cls (between 49 57))
                                           (Re.Star Re.digit))))
    (λ caps, default [] (Re.group 1 caps) ++ U "!") (U "%1.%2)")
  = U "1!.2!)".
Proof. reflexivity. Qed.

(** ** List prefixes *)

Lemma validate_prefix_format_not_decimal doc prefix fmt errors full_text i :
  fmt ≠ Some (U "decimal") →
  validate_prefix_format doc prefix fmt errors full_text i =
  errors ++ [error_dict invalid_format_message (paragraph_element doc i)
               (Some (get_paragraph_index_by_content doc i))
               (Some DocumentElementType.PARAGRAPH)].
Proof.
  intros Hfmt. unfold validate_prefix_format.
  by rewrite decide_False.
Qed.

Local Ltac solve_mono :=
  first [ exists []; by rewrite app_nil_r
        | eexists; rewrite <- ?app_assoc; reflexivity ].

Lemma extract_step_errors_mono doc st ip :
  ∃ new, ex_errors (extract_step doc st ip) = ex_errors st ++ new.
Proof.
  destruct ip as [i p]. unfold extract_step.
  destruct (_ && _); [solve_mono|].
  destruct (PyStr.eqb _ resources_title).
  { destruct (ex_current st); solve_mono. }
  destruct (numPr p) as [[nid lvl]|].
  - unfold extract_numbered. simpl. case_decide.
    + destruct (ex_is_resource_section st); simpl; case_bool_decide;
        unfold add_error; solve_mono.
    + simpl. unfold validate_prefix_format, add_error.
      repeat (case_decide || case_match); simpl; solve_mono.
  - unfold extract_plain. destruct (strip (text p)); [solve_mono|].
    destruct (Re.match_ re_heading _); [solve_mono|].
    destruct (Re.match_ re_manual_list _) as [[g0 caps]|]; simpl.
    + unfold add_error. solve_mono.
    + destruct (ex_current st); solve_mono.
Qed.

Lemma extract_fold_errors_mono doc l : ∀ st,
  ∃ new, ex_errors (fold_left (extract_step doc) l st) = ex_errors st ++ new.
Proof.
  induction l as [|ip l IH]; intros st; simpl.
  - exists []. by rewrite app_nil_r.
  - destruct (IH (extract_step doc st ip)) as [new2 ->].
    destruct (extract_step_errors_mono doc st ip) as [new1 ->].
    exists (new1 ++ new2). by rewrite app_assoc.
Qed.

Lemma extract_step_not_decimal doc st i p nid lvl :
  numPr p = Some (nid, lvl) →
  (strip (text p) = [] → is_page_break p = false) →
  strip (text p) ≠ resources_title →
  fst <$> fmt_info (numbering doc) nid lvl ≠ Some (U "bullet") →
  fst <$> fmt_info (numbering doc) nid lvl ≠ Some (U "decimal") →
  ex_errors (extract_step doc st (i, p)) =
  ex_errors st ++ [error_dict invalid_format_message (paragraph_element doc i)
                     (Some (get_paragraph_index_by_content doc i))
                     (Some DocumentElementType.PARAGRAPH)].
Proof.
  intros Hnum Hbreak Htitle Hbullet Hdecimal. unfold extract_step.
  assert (PyStr.eqb (strip (text p)) [] && is_page_break p = false) as ->.
  { unfold PyStr.eqb. case_bool_decide; [by rewrite Hbreak|done]. }
  assert (PyStr.eqb (strip (text p)) resources_title = false) as ->.
  { unfold PyStr.eqb. by apply bool_decide_eq_false. }
  rewrite Hnum. unfold extract_numbered. simpl.
  rewrite decide_False by done. simpl.
  by apply validate_prefix_format_not_decimal.
Qed.

(** C9. A list paragraph with a numbering reference whose format in the
    catalog is neither [bullet] nor [decimal] gets the generic
    invalid-format error: prefix validation emits it whatever the rendered
    prefix is, so no prefix shape is accepted for such a format, and the
    error is among those [extract_list_items] returns. *)
Theorem extract_list_items_rejects_non_decimal
    (doc : Document) (i : nat) (p : Paragraph) (nid : str) (lvl : Z) :
  paragraphs doc !! i = Some p →
  numPr p = Some (nid, lvl) →
  (strip (text p) = [] → is_page_break p = false) →
  strip (text p) ≠ resources_title →
  let fmt := fst <$> fmt_info (numbering doc) nid lvl in
  fmt ≠ Some (U "bullet") →
  fmt ≠ Some (U "decimal") →
  let error :=
    error_dict invalid_format_message (ElParagraph p)
      (Some (get_paragraph_index_by_content doc i))
      (Some DocumentElementType.PARAGRAPH) in
  (∀ prefix errors full_text,
     validate_prefix_format doc prefix fmt errors full_text i
     = errors ++ [error])
  ∧ error ∈ (extract_list_items doc).2.
Proof.
  intros Hp Hnum Hbreak Htitle fmt Hbullet Hdecimal error.
  assert (Helem : paragraph_element doc i = ElParagraph p).
  { unfold paragraph_element. by rewrite Hp. }
  split.
  - intros prefix errors full_text.
    rewrite validate_prefix_format_not_decimal by done. by rewrite Helem.
  - unfold extract_list_items.
    assert (Hin : (i, p) ∈ enumerate (paragraphs doc)).
    { unfold enumerate. by apply (elem_of_lookup_imap_2 pair). }
    apply list_elem_of_split in Hin as (l1 & l2 & ->).
    rewrite fold_left_app. simpl.
    set (st1 := fold_left (extract_step doc) l1 extract_init).
    destruct (extract_fold_errors_mono doc l2 (extract_step doc st1 (i, p)))
      as [new Hnew].
    rewrite (extract_step_not_decimal doc st1 i p nid lvl) in Hnew by done.
    rewrite Helem in Hnew. fold error in Hnew.
    set (st2 := fold_left (extract_step doc) l2 _) in *.
    assert (Hgoal : error ∈ ex_errors st2).
    { rewrite Hnew, !elem_of_app, list_elem_of_singleton. auto. }
    simpl. by destruct (ex_current st2).
Qed.

Lemma extract_list_items_rejects_non_decimal_witness :
  let p := numbered_paragraph (U "первый,") (U "2") 0 in
  let fmt := fst <$> fmt_info (numbering lettered_list_doc) (U "2") 0 in
  let error :=
    error_dict invalid_format_message (ElParagraph p)
      (Some (get_paragraph_index_by_content lettered_list_doc 0))
      (Some DocumentElementType.PARAGRAPH) in
  (paragraphs lettered_list_doc !! 0 = Some p
   ∧ numPr p = Some (U "2", 0%Z)
   ∧ (strip (text p) = [] → is_page_break p = false)
   ∧ strip (text p) ≠ resources_title
   ∧ fmt ≠ Some (U "bullet")
   ∧ fmt ≠ Some (U "decimal"))
  ∧ (∀ prefix errors full_text,
       validate_prefix_format lettered_list_doc prefix fmt errors full_text 0
       = errors ++ [error])
  ∧ error ∈ (extract_list_items lettered_list_doc).2.
Proof.
  intros p fmt error.
  assert (H1 : paragraphs lettered_list_doc !! 0 = Some p) by reflexivity.
  assert (H2 : numPr p = Some (U "2", 0%Z)) by reflexivity.
  assert (H3 : strip (text p) = [] → is_page_break p = false)
    by reflexivity.
  assert (H4 : strip (text p) ≠ resources_title) by (by vm_compute).
  assert (H5 : fmt ≠ Some (U "bullet")) by (by vm_compute).
  assert (H6 : fmt ≠ Some (U "decimal")) by (by vm_compute).
  split; [done|].
  exact (extract_list_items_rejects_non_decimal lettered_list_doc 0 p
           (U "2") 0 H1 H2 H3 H4 H5 H6).
Defined.

Example lettered_prefix_is_rendered_and_rejected :
  extract_list_items lettered_list_doc =
  ([[(U "а)", U "первый,", 0); (U "б)", U "второй.", 1)]], [],
   [error_dict invalid_format_message
      (ElParagraph (numbered_paragraph (U "первый,") (U "2") 0))
      (Some 0%Z) (Some DocumentElementType.PARAGRAPH);
    error_dict invalid_format_message
      (ElParagraph (numbered_paragraph (U "второй.") (U "2") 0))
      (Some 1%Z) (Some DocumentElementType.PARAGRAPH)]).
Proof. vm_compute. reflexivity. Qed.

(** ** Checks only append *)

Definition appends (c : Check) : Prop :=
  ∀ errors, ∃ new, c errors = errors ++ new.

Lemma appends_id : appends id.
Proof. intros errors. exists []. by rewrite app_nil_r. Qed.

Lemma appends_report msg el idx ety : appends (report msg el idx ety).
Proof. intros errors. by eexists. Qed.

Lemma appends_when b c : appends c → appends (when b c).
Proof. destruct b; [done|]. intros _. apply appends_id. Qed.

Lemma appends_checks cs : Forall appends cs → appends (checks cs).
Proof.
  unfold checks. induction 1 as [|c cs Hc _ IH]; intros errors; simpl.
  - exists []. by rewrite app_nil_r.
  - destruct (Hc errors) as [new1 ->].
    destruct (IH (errors ++ new1)) as [new2 ->].
    exists (new1 ++ new2). by rewrite app_assoc.
Qed.

Lemma appends_for_each {A} (l : list A) (c : A → Check) :
  (∀ x, appends (c x)) → appends (for_each l c).
Proof.
  intros Hc. unfold for_each. induction l as [|x l IH]; intros errors; simpl.
  - exists []. by rewrite app_nil_r.
  - destruct (Hc x errors) as [new1 ->].
    destruct (IH (errors ++ new1)) as [new2 ->].
    exists (new1 ++ new2). by rewrite app_assoc.
Qed.

Ltac solve_appends :=
  repeat first
    [ apply appends_id
    | apply appends_report
    | apply appends_when
    | apply appends_checks; repeat constructor
    | apply appends_for_each; intros
    | case_match ].

Lemma appends_elem_of (c : Check) errors e :
  appends c → e ∈ errors → e ∈ c errors.
Proof.
  intros Hc He. destruct (Hc errors) as [new ->].
  apply elem_of_app. by left.
Qed.

(** ** Structural elements: appendix letters *)

Lemma appends_check_title_formatting what p i :
  appends (check_title_formatting what p i).
Proof. unfold check_title_formatting. solve_appends. Qed.

Lemma appends_check_listing_caption text p i :
  appends (check_listing_caption text p i).
Proof. unfold check_listing_caption. solve_appends. Qed.

Lemma appends_check_code_paragraph b p i :
  appends (check_code_paragraph b p i).
Proof. unfold check_code_paragraph. solve_appends. Qed.

Lemma enumerate_lookup {A} (l : list A) (i : nat) (x : A) :
  l !! i = Some x → enumerate l !! i = Some (i, x).
Proof. intros H. unfold enumerate. by rewrite list_lookup_imap, H. Qed.

Lemma structural_scan_S doc n p :
  paragraphs doc !! n = Some p →
  structural_scan doc (S n) =
  structural_step doc (structural_scan doc n) (n, p).
Proof.
  intros Hp. unfold structural_scan.
  rewrite (take_S_r _ _ _ (enumerate_lookup _ _ _ Hp)).
  by rewrite fold_left_app.
Qed.

Lemma structural_scan_ge doc n :
  length (paragraphs doc) ≤ n →
  structural_scan doc n = structural_scan doc (length (paragraphs doc)).
Proof.
  intros Hn. unfold structural_scan.
  rewrite !take_ge; [done| |]; unfold enumerate; rewrite length_imap; lia.
Qed.

(** An invariant of the step holds after every prefix of the scan. *)
Lemma structural_scan_ind doc (I : StructState → Prop) :
  I structural_init →
  (∀ st ip, I st → I (structural_step doc st ip)) →
  ∀ n, I (structural_scan doc n).
Proof.
  intros Hinit Hstep n. unfold structural_scan.
  generalize (take n (enumerate (paragraphs doc))). intros l.
  revert Hinit. generalize structural_init.
  induction l as [|ip l IH]; intros st Hst; simpl; [done|].
  apply IH. by apply Hstep.
Qed.

Lemma has_key_elem_of key d :
  has_key key d = true ↔ key ∈ d.*1.
Proof.
  unfold has_key. rewrite existsb_exists. split.
  - intros ([k v] & Hin & Heq). apply bool_decide_eq_true in Heq.
    simpl in Heq. apply list_elem_of_fmap. exists (k, v).
    split; [done|]. by apply list_elem_of_In.
  - intros ([k v] & -> & Hin)%list_elem_of_fmap. exists (k, v).
    split; [by apply list_elem_of_In|]. by apply bool_decide_eq_true.
Qed.

Lemma mark_present_keys key d : (mark_present key d).*1 = d.*1.
Proof.
  unfold mark_present. induction d as [|[k v] d IH]; simpl; [done|].
  f_equal; [|done]. by destruct (PyStr.eqb k key).
Qed.

Lemma structural_step_keys doc st ip :
  (ss_expected (structural_step doc st ip)).*1 = (ss_expected st).*1.
Proof.
  destruct ip as [i p]. unfold structural_step.
  destruct (strip (text p)) as [|c s]; [done|].
  destruct (has_key _ _); [apply mark_present_keys|].
  destruct (startswith _ _).
  - by destruct (check_appendix_letter _ _ _ _ _).
  - by repeat (case_match; simpl).
Qed.

Lemma structural_scan_keys doc n :
  (ss_expected (structural_scan doc n)).*1 = required_titles.
Proof.
  apply (structural_scan_ind doc (λ st, (ss_expected st).*1 = required_titles)).
  - reflexivity.
  - intros st ip <-. apply structural_step_keys.
Qed.

Lemma appendix_header_not_title text d :
  d.*1 = required_titles →
  startswith text (U "Приложение") = true →
  has_key text d = false.
Proof.
  intros Hkeys Hstart. apply not_true_is_false. rewrite has_key_elem_of, Hkeys.
  unfold required_titles. rewrite !elem_of_cons, elem_of_nil.
  intros [->|[->|[->|[]]]]; by vm_compute in Hstart.
Qed.

Lemma startswith_nonempty text pre :
  pre ≠ [] → startswith text pre = true → text ≠ [].
Proof. by destruct pre, text. Qed.

(** The step at an appendix header. *)
Lemma structural_step_appendix doc st i p :
  (ss_expected st).*1 = required_titles →
  is_appendix_header p = true →
  let result :=
    check_appendix_letter (appendix_letter p) p i (ss_errors st)
      (ss_letters st) in
  ss_errors (structural_step doc st (i, p)) =
    check_title_formatting (U "В приложении") p i result.1
  ∧ ss_letters (structural_step doc st (i, p)) = result.2.
Proof.
  intros Hkeys Hhead. cbv zeta. unfold structural_step, appendix_letter.
  unfold is_appendix_header in Hhead.
  destruct (strip (text p)) as [|c s] eqn:Htext; [by vm_compute in Hhead|].
  rewrite (appendix_header_not_title _ _ Hkeys Hhead), Hhead.
  by destruct (check_appendix_letter _ _ _ _ _).
Qed.

Lemma structural_step_errors_mono doc st ip :
  ∃ new, ss_errors (structural_step doc st ip) = ss_errors st ++ new.
Proof.
  destruct ip as [i p]. unfold structural_step.
  destruct (strip (text p)) as [|c s]; [solve_mono|].
  destruct (has_key _ _); [apply appends_check_title_formatting|].
  destruct (startswith _ (U "Приложение")).
  - unfold check_appendix_letter, report, add_error.
    repeat case_match; simplify_eq/=;
      match goal with
      | |- ∃ new, check_title_formatting ?w ?p ?i ?e = _ =>
          destruct (appends_check_title_formatting w p i e) as [new ->]
      end; solve_mono.
  - repeat (case_match; simplify_eq/=); try solve_mono;
      repeat match goal with
      | |- context [check_code_paragraph ?b ?p ?i ?e] =>
          destruct (appends_check_code_paragraph b p i e) as [? ->]
      end; solve_mono.
Qed.

Lemma structural_step_letters doc st ip :
  ss_letters st ⊆ ss_letters (structural_step doc st ip)
  ∧ ∀ letter, letter ∈ ss_letters (structural_step doc st ip) →
      letter ∈ ss_letters st ∨ valid_appendix_letter letter = true.
Proof.
  destruct ip as [i p]. unfold structural_step.
  destruct (strip (text p)) as [|c s]; [by auto|].
  destruct (has_key _ _); [by auto|].
  destruct (startswith _ (U "Приложение")).
  - unfold check_appendix_letter, valid_appendix_letter.
    destruct (length _ =? 1) eqn:Hlen; simpl; [|by auto].
    case_bool_decide as Hallowed; simpl; [|by auto].
    case_bool_decide; simpl; [by auto|]. split; [apply union_subseteq_r|].
    intros letter [->%elem_of_singleton|?]%elem_of_union; [right|by left].
    simpl in Hlen. rewrite Hlen. simpl. by apply bool_decide_eq_true.
  - by repeat (case_match; simpl); auto.
Qed.

Lemma structural_step_not_header doc st i p :
  is_appendix_header p = false →
  ss_letters (structural_step doc st (i, p)) = ss_letters st.
Proof.
  unfold is_appendix_header, structural_step. intros Hhead.
  destruct (strip (text p)) as [|c s]; [done|].
  destruct (has_key _ _); [done|]. rewrite Hhead.
  by repeat (case_match; simpl).
Qed.

Lemma check_appendix_letter_letters letter p i errors letters :
  ∀ l, l ∈ (check_appendix_letter letter p i errors letters).2 ↔
       l ∈ letters ∨ (l = letter ∧ valid_appendix_letter letter = true).
Proof.
  intros l. unfold check_appendix_letter, valid_appendix_letter.
  destruct (length letter =? 1); simpl; [|naive_solver].
  case_bool_decide; simpl; [|naive_solver].
  case_bool_decide; simpl.
  - naive_solver.
  - rewrite elem_of_union, elem_of_singleton. naive_solver.
Qed.

(** The accepted letters after [n] paragraphs are exactly the valid
    letters of the appendix headers among them. *)
Lemma structural_scan_letters doc n letter :
  letter ∈ ss_letters (structural_scan doc n) ↔
  valid_appendix_letter letter = true ∧
  ∃ i q, i < n ∧ paragraphs doc !! i = Some q ∧
         is_appendix_header q = true ∧ appendix_letter q = letter.
Proof.
  induction n as [|n IH].
  - unfold structural_scan. simpl. rewrite elem_of_empty.
    split; [done|]. intros (_ & i & q & Hi & _). lia.
  - destruct (paragraphs doc !! n) as [p|] eqn:Hp.
    + rewrite (structural_scan_S doc n p Hp).
      destruct (is_appendix_header p) eqn:Hhead.
      * destruct (structural_step_appendix doc (structural_scan doc n) n p
                    (structural_scan_keys doc n) Hhead) as [_ ->].
        rewrite check_appendix_letter_letters, IH. split.
        -- intros [(Hv & i & q & Hi & Hq & Hh & Hl)|[-> Hv]].
           ++ split; [done|]. exists i, q. split_and!; try done. lia.
           ++ split; [done|]. exists n, p. split_and!; try done. lia.
        -- intros (Hv & i & q & Hi & Hq & Hh & Hl).
           destruct (decide (i = n)) as [->|Hne].
           ++ right. rewrite Hp in Hq. injection Hq as ->. by subst.
           ++ left. split; [done|]. exists i, q. split_and!; try done. lia.
      * rewrite (structural_step_not_header _ _ _ _ Hhead), IH.
        split; intros (Hv & i & q & Hi & Hq & Hh & Hl); (split; [done|]);
          exists i, q; split_and!; try done; [lia|].
        destruct (decide (i = n)) as [->|Hne]; [|lia].
        rewrite Hp in Hq. injection Hq as ->. congruence.
    + apply lookup_ge_None in Hp.
      rewrite (structural_scan_ge doc (S n)) by lia.
      rewrite <- (structural_scan_ge doc n) by lia. rewrite IH.
      split; intros (Hv & i & q & Hi & Hq & Hh & Hl); (split; [done|]);
        exists i, q; split_and!; try done; [lia|].
      apply lookup_lt_Some in Hq. lia.
Qed.

Lemma structural_scan_errors_mono doc n m :
  n ≤ m →
  ∃ new, ss_errors (structural_scan doc m)
         = ss_errors (structural_scan doc n) ++ new.
Proof.
  induction 1 as [|m Hle [new IH]]; [solve_mono|].
  destruct (paragraphs doc !! m) as [p|] eqn:Hp.
  - rewrite (structural_scan_S doc m p Hp).
    destruct (structural_step_errors_mono doc (structural_scan doc m) (m, p))
      as [new' ->].
    rewrite IH. solve_mono.
  - apply lookup_ge_None in Hp.
    rewrite (structural_scan_ge doc (S m)) by lia.
    rewrite <- (structural_scan_ge doc m) by lia. by exists new.
Qed.

Lemma check_structural_elements_errors doc n e :
  e ∈ ss_errors (structural_scan doc n) →
  e ∈ (check_structural_elements doc).1.1.1.
Proof.
  intros He. unfold check_structural_elements. simpl.
  apply elem_of_app. left. apply appends_elem_of; [solve_appends|].
  destruct (decide (n ≤ length (paragraphs doc))) as [Hle|Hgt].
  - destruct (structural_scan_errors_mono doc _ _ Hle) as [new ->].
    apply elem_of_app. by left.
  - by rewrite <- (structural_scan_ge doc n) by lia.
Qed.

(** C8 (amended). The appendix letters come from a fixed alphabet of 25
    distinct single Cyrillic letters.  Throughout the scan the set of
    accepted letters holds exactly the valid letters (one character, in
    the alphabet) of the appendix headers read so far, a header is accepted
    only when its letter is not yet in the set, a header whose letter is
    not valid gets the invalid-letter error, and a header whose valid
    letter was already used by an earlier header gets the duplicate-letter
    error. *)
Theorem check_structural_elements_appendix_letters (doc : Document) :
  (length allowed_appendix_letters = 25
   ∧ NoDup allowed_appendix_letters
   ∧ Forall (λ letter, length letter = 1) allowed_appendix_letters)
  ∧ (∀ n letter,
       letter ∈ ss_letters (structural_scan doc n) ↔
       (length letter = 1 ∧ letter ∈ allowed_appendix_letters) ∧
       ∃ i q, i < n ∧ paragraphs doc !! i = Some q ∧
              is_appendix_header q = true ∧ appendix_letter q = letter)
  ∧ (∀ j p,
       paragraphs doc !! j = Some p →
       is_appendix_header p = true →
       let errors := (check_structural_elements doc).1.1.1 in
       let earlier :=
         ∃ i q, i < j ∧ paragraphs doc !! i = Some q ∧
                is_appendix_header q = true ∧
                appendix_letter q = appendix_letter p in
       (valid_appendix_letter (appendix_letter p) = false →
        invalid_letter_error j p ∈ errors
        ∧ ss_letters (structural_scan doc (S j))
          = ss_letters (structural_scan doc j))
       ∧ (valid_appendix_letter (appendix_letter p) = true → earlier →
          duplicate_letter_error j p ∈ errors
          ∧ ss_letters (structural_scan doc (S j))
            = ss_letters (structural_scan doc j))
       ∧ (valid_appendix_letter (appendix_letter p) = true → ¬ earlier →
          (appendix_letter p ∉ ss_letters (structural_scan doc j))
          ∧ ss_letters (structural_scan doc (S j))
            = {[appendix_letter p]} ∪ ss_letters (structural_scan doc j))).
Proof.
  split; [|split].
  - split_and!; [reflexivity| |].
    + apply (bool_decide_unpack (NoDup allowed_appendix_letters)).
      by vm_compute.
    + repeat constructor.
  - intros n letter. rewrite structural_scan_letters.
    unfold valid_appendix_letter.
    rewrite andb_true_iff, Nat.eqb_eq, bool_decide_eq_true. done.
  - intros j p Hp Hhead errors earlier.
    destruct (structural_step_appendix doc (structural_scan doc j) j p
                (structural_scan_keys doc j) Hhead) as [Herr Hlet].
    rewrite <- (structural_scan_S doc j p Hp) in Herr, Hlet.
    assert (Hearlier :
      valid_appendix_letter (appendix_letter p) = true →
      (appendix_letter p ∈ ss_letters (structural_scan doc j) ↔ earlier)).
    { intros Hv. rewrite structural_scan_letters. unfold earlier.
      naive_solver. }
    unfold check_appendix_letter in Herr, Hlet.
    fold (valid_appendix_letter (appendix_letter p)) in Herr.
    assert (Hcond :
      negb (length (appendix_letter p) =? 1)
      || negb (bool_decide (appendix_letter p ∈ allowed_appendix_letters))
      = negb (valid_appendix_letter (appendix_letter p))).
    { unfold valid_appendix_letter. by rewrite negb_andb. }
    rewrite Hcond in Herr, Hlet.
    split_and!.
    + intros Hv. rewrite Hv in Herr, Hlet. simpl in Herr, Hlet.
      split; [|done].
      apply (check_structural_elements_errors doc (S j)). rewrite Herr.
      apply appends_elem_of; [apply appends_check_title_formatting|].
      unfold report, add_error, invalid_letter_error.
      apply elem_of_app. right. by apply list_elem_of_singleton.
    + intros Hv Hearly. rewrite Hv in Herr, Hlet. simpl in Herr, Hlet.
      apply Hearlier in Hearly; [|done].
      rewrite bool_decide_true in Herr, Hlet by done. split; [|done].
      apply (check_structural_elements_errors doc (S j)). rewrite Herr.
      apply appends_elem_of; [apply appends_check_title_formatting|].
      unfold report, add_error, duplicate_letter_error.
      apply elem_of_app. right. by apply list_elem_of_singleton.
    + intros Hv Hno. rewrite Hv in Hlet. simpl in Hlet.
      assert (Hnin : appendix_letter p ∉ ss_letters (structural_scan doc j))
        by (by rewrite Hearlier).
      rewrite bool_decide_false in Hlet by done. done.
Qed.

(** C8 as stated fails: the alphabet has 25 letters, not 24. *)
Lemma allowed_appendix_letters_not_24 :
  length allowed_appendix_letters ≠ 24.
Proof. by vm_compute. Qed.

Example appendix_yo_is_rejected :
  (check_structural_elements yo_appendix_doc).1.1.1 !! 0 =
  Some (invalid_letter_error 0 (appendix_paragraph (U "Приложение Ё")))
  ∧ message (invalid_letter_error 0 (appendix_paragraph (U "Приложение Ё")))
    = U "Некорректная буква приложения: 'Ё'. Ожидается одна буква из ['А', 'Б', 'В', 'Г', 'Д', 'Е', 'Ж', 'И', 'К', 'Л', 'М', 'Н', 'П', 'Р', 'С', 'Т', 'У', 'Ф', 'Х', 'Ц', 'Ш', 'Щ', 'Э', 'Ю', 'Я'].".
Proof. by vm_compute. Qed.

Example appendix_a_twice_is_reported_once :
  filter (λ e, contains (message e) (U "буква приложения") = true)
    (check_structural_elements twice_a_appendix_doc).1.1.1
  = [duplicate_letter_error 2 (appendix_paragraph (U "Приложение А"))]
  ∧ message (duplicate_letter_error 2 (appendix_paragraph (U "Приложение А")))
    = U "Повторяющаяся буква приложения: 'А'."
  ∧ index (duplicate_letter_error 2 (appendix_paragraph (U "Приложение А")))
    = 2%Z.
Proof. by vm_compute. Qed.

(** ** Checks are uniform in the list they extend *)

Definition uniform (c : Check) : Prop := ∀ errors, c errors = errors ++ c [].

Lemma uniform_id : uniform id.
Proof. intros errors. by rewrite app_nil_r. Qed.

Lemma uniform_report msg el idx ety : uniform (report msg el idx ety).
Proof. by intros errors. Qed.

Lemma uniform_when b c : uniform c → uniform (when b c).
Proof. destruct b; [done|]. intros _. apply uniform_id. Qed.

Lemma uniform_checks cs : Forall uniform cs → uniform (checks cs).
Proof.
  unfold checks. induction 1 as [|c cs Hc _ IH]; intros errors; simpl.
  - by rewrite app_nil_r.
  - rewrite (IH (c errors)), (IH (c [])), (Hc errors).
    by rewrite app_assoc.
Qed.

Lemma uniform_for_each {A} (l : list A) (c : A → Check) :
  (∀ x, uniform (c x)) → uniform (for_each l c).
Proof.
  intros Hc. unfold for_each. induction l as [|x l IH]; intros errors; simpl.
  - by rewrite app_nil_r.
  - rewrite (IH (c x errors)), (IH (c x [])), (Hc x errors).
    by rewrite app_assoc.
Qed.

Ltac solve_uniform :=
  repeat first
    [ apply uniform_id
    | apply uniform_report
    | apply uniform_when
    | apply uniform_checks; repeat constructor
    | apply uniform_for_each; intros
    | case_match ].

(** ** Headings: numbering continuity *)

Abbreviation numbering_only :=
  (filter (λ e, is_numbering_error e = true)).

(** A check that emits no record of the continuity check. *)
Definition silent (c : Check) : Prop :=
  ∀ errors, numbering_only (c errors) = numbering_only errors.

Lemma silent_id : silent id.
Proof. done. Qed.

Lemma silent_report msg el idx ety :
  is_numbering_error (error_dict msg el (Some idx) (Some ety)) = false →
  silent (report msg el idx ety).
Proof.
  intros Hmsg errors. unfold report, add_error.
  rewrite filter_app, filter_cons, filter_nil.
  rewrite decide_False by (by rewrite Hmsg). by rewrite app_nil_r.
Qed.

Lemma silent_when b c : silent c → silent (when b c).
Proof. destruct b; [done|]. intros _. apply silent_id. Qed.

Lemma silent_checks cs : Forall silent cs → silent (checks cs).
Proof.
  unfold checks. induction 1 as [|c cs Hc _ IH]; intros errors; simpl.
  - done.
  - by rewrite (IH (c errors)), (Hc errors).
Qed.

Lemma silent_for_each {A} (l : list A) (c : A → Check) :
  (∀ x, silent (c x)) → silent (for_each l c).
Proof.
  intros Hc. unfold for_each. induction l as [|x l IH]; intros errors; simpl.
  - done.
  - by rewrite (IH (c x errors)), (Hc x errors).
Qed.

Ltac solve_silent :=
  repeat first
    [ apply silent_id
    | apply silent_when
    | apply silent_checks; repeat constructor
    | apply silent_for_each; intros
    | apply silent_report;
      unfold is_numbering_error, error_dict; cbn [message];
      vm_compute; reflexivity
    | case_match ].

Lemma silent_check_double_spaces text p i :
  silent (check_double_spaces text p i).
Proof. unfold check_double_spaces. solve_silent. Qed.

Lemma silent_heading_gate doc excluded i p :
  silent (heading_gate doc excluded i p).1.
Proof.
  pose proof (silent_check_double_spaces (strip (text p)) p i) as Hc0.
  unfold heading_gate.
  repeat (case_match; simpl); try apply silent_id; try done;
    solve_silent; try done.
Qed.

Lemma silent_check_heading_format doc i p number number_parts :
  silent (check_heading_format doc i p number number_parts).
Proof. unfold check_heading_format. solve_silent. Qed.

Lemma uniform_check_heading_numbering last number_parts p i :
  uniform (check_heading_numbering last number_parts p i).1.
Proof. unfold check_heading_numbering. simpl. solve_uniform. Qed.

#[local] Arguments check_heading_numbering : simpl never.
#[local] Arguments check_heading_format : simpl never.
#[local] Arguments heading_gate : simpl never.

Lemma heading_fold doc excluded l : ∀ st,
  numbering_only (hs_errors (fold_left (heading_step doc excluded) l st)) =
  numbering_only (hs_errors st)
  ++ numbering_only
       (numbering_errors (hs_last_heading_numbers st)
          (omap (λ ip : nat * Paragraph,
                   match (heading_gate doc excluded ip.1 ip.2).2 with
                   | IsHeading _ number_parts => Some (ip.1, ip.2, number_parts)
                   | NotHeading _ => None
                   end) l)).
Proof.
  induction l as [|[i p] l IH]; intros st.
  - simpl. by rewrite filter_nil, app_nil_r.
  - cbn [fold_left omap list_omap fst snd]. rewrite IH. unfold heading_step.
    pose proof (silent_heading_gate doc excluded i p) as Hgate.
    destruct (heading_gate doc excluded i p) as [gate_check gate].
    cbn [fst snd] in *.
    destruct gate as [candidate|number number_parts].
    + cbn [hs_errors hs_last_heading_numbers]. by rewrite Hgate.
    + pose proof (uniform_check_heading_numbering
                    (hs_last_heading_numbers st) number_parts p i) as Hnum.
      cbn [numbering_errors].
      destruct (check_heading_numbering (hs_last_heading_numbers st)
                  number_parts p i) as [numbering_check last].
      cbn [fst snd hs_errors hs_last_heading_numbers] in *.
      rewrite (silent_check_heading_format doc i p number number_parts).
      rewrite (Hnum (gate_check (hs_errors st))).
      by rewrite !filter_app, Hgate, app_assoc.
Qed.

Lemma check_headings_formatting_numbering doc sp ap lp tc ic :
  numbering_only (check_headings_formatting doc sp ap lp tc ic).1.1 =
  numbering_only
    (numbering_errors (hs_last_heading_numbers heading_init)
       (heading_entries doc (sp ++ ap ++ lp ++ tc ++ ic))).
Proof.
  unfold check_headings_formatting, heading_entries. simpl.
  by rewrite heading_fold.
Qed.

(** C5. When the headings of the document, in order, are numbered
    1, 1.1, 1.2, 2, 2.1, [check_headings_formatting] emits no record of the
    numbering-sequence check; when they are numbered 1, 1.1, 1.3 it emits
    exactly one, located at the 1.3 paragraph and naming the expected
    number 1.2. *)
Theorem check_headings_formatting_numbering_continuity
    (doc : Document)
    (structural_paragraphs appendix_paragraphs listing_paragraphs
     table_captions image_captions : list nat) :
  let excluded :=
    structural_paragraphs ++ appendix_paragraphs ++ listing_paragraphs
    ++ table_captions ++ image_captions in
  let errors :=
    (check_headings_formatting doc structural_paragraphs appendix_paragraphs
       listing_paragraphs table_captions image_captions).1.1 in
  ((heading_entries doc excluded).*2
   = [[1]; [1; 1]; [1; 2]; [2]; [2; 1]]%Z →
   filter (λ e, is_numbering_error e = true) errors = [])
  ∧ (∀ h1 h2 i p,
       heading_entries doc excluded = [h1; h2; (i, p, [1; 3]%Z)] →
       h1.2 = [1%Z] → h2.2 = [1; 1]%Z →
       filter (λ e, is_numbering_error e = true) errors =
       [error_dict
          (U "Нарушена последовательность нумерации заголовка. Ожидалось '1.2'.")
          (ElParagraph p) (Some (Z.of_nat i))
          (Some DocumentElementType.PARAGRAPH)]).
Proof.
  intros excluded errors. unfold errors.
  rewrite check_headings_formatting_numbering. fold excluded. split.
  - intros Hentries.
    destruct (heading_entries doc excluded)
      as [|[[i1 p1] n1] [|[[i2 p2] n2] [|[[i3 p3] n3] [|[[i4 p4] n4]
          [|[[i5 p5] n5] [|]]]]]];
      cbn [fmap list_fmap snd] in Hentries; try discriminate Hentries.
    injection Hentries as -> -> -> -> ->.
    by vm_compute.
  - intros [[i1 p1] n1] [[i2 p2] n2] i p -> Hn1 Hn2.
    cbn [snd] in Hn1, Hn2. subst n1 n2.
    by vm_compute.
Qed.

Lemma check_headings_formatting_numbering_continuity_witness :
  ((heading_entries continuous_headings_doc []).*2
   = [[1]; [1; 1]; [1; 2]; [2]; [2; 1]]%Z
   ∧ filter (λ e, is_numbering_error e = true)
       (check_headings_formatting continuous_headings_doc [] [] [] [] []).1.1
     = [])
  ∧ (heading_entries skipped_heading_doc []
     = [(2, heading_paragraph (U "1 Введение в тему") 203200, [1%Z]);
        (5, heading_paragraph (U "1.1 Обзор") 177800, [1; 1]%Z);
        (8, heading_paragraph (U "1.3 Методы") 177800, [1; 3]%Z)]
     ∧ filter (λ e, is_numbering_error e = true)
         (check_headings_formatting skipped_heading_doc [] [] [] [] []).1.1
       = [error_dict
            (U "Нарушена последовательность нумерации заголовка. Ожидалось '1.2'.")
            (ElParagraph (heading_paragraph (U "1.3 Методы") 177800))
            (Some 8%Z) (Some DocumentElementType.PARAGRAPH)]).
Proof.
  assert (H1 : (heading_entries continuous_headings_doc []).*2
               = [[1]; [1; 1]; [1; 2]; [2]; [2; 1]]%Z) by (by vm_compute).
  assert (H2 : heading_entries skipped_heading_doc []
     = [(2, heading_paragraph (U "1 Введение в тему") 203200, [1%Z]);
        (5, heading_paragraph (U "1.1 Обзор") 177800, [1; 1]%Z);
        (8, heading_paragraph (U "1.3 Методы") 177800, [1; 3]%Z)])
    by (by vm_compute).
  split; (split; [done|]).
  - exact (proj1 (check_headings_formatting_numbering_continuity
                    continuous_headings_doc [] [] [] [] []) H1).
  - exact (proj2 (check_headings_formatting_numbering_continuity
                    skipped_heading_doc [] [] [] [] []) _ _ _ _ H2
             eq_refl eq_refl).
Defined.

Example continuous_headings_are_clean :
  (check_headings_formatting continuous_headings_doc [] [] [] [] []).1.1 = [].
Proof. by vm_compute. Qed.

Example skipped_heading_is_the_only_error :
  (check_headings_formatting skipped_heading_doc [] [] [] [] []).1.1
  = [error_dict
       (U "Нарушена последовательность нумерации заголовка. Ожидалось '1.2'.")
       (ElParagraph (heading_paragraph (U "1.3 Методы") 177800))
       (Some 8%Z) (Some DocumentElementType.PARAGRAPH)].
Proof. by vm_compute. Qed.

(** ** Deduplication: further laws *)

Lemma error_key_inj e e' : error_key e = error_key e' → e = e'.
Proof. destruct e, e'. unfold error_key. simpl. by intros [= -> -> -> -> ->]. Qed.

Lemma remove_duplicate_errors_loop_elem_of errors : ∀ seen unique e,
  e ∈ remove_duplicate_errors_loop seen unique errors ↔
  e ∈ unique ∨ (e ∈ errors ∧ error_key e ∉ seen).
Proof.
  induction errors as [|e0 errors IH]; intros seen unique e; simpl.
  - rewrite elem_of_nil. tauto.
  - destruct (decide (error_key e0 ∈ seen)) as [Hin|Hnin]; rewrite IH.
    + rewrite elem_of_cons. split; [tauto|].
      intros [?|[[->|?] ?]]; tauto.
    + rewrite elem_of_app, list_elem_of_singleton, elem_of_cons,
        not_elem_of_union, not_elem_of_singleton.
      split; [intros [[?| ->]|(? & ? & ?)]; tauto|].
      intros [?|[[->|?] ?]]; [tauto|tauto|].
      destruct (decide (error_key e = error_key e0)) as [Heq|Hne].
      * apply error_key_inj in Heq. tauto.
      * tauto.
Qed.

Lemma remove_duplicate_errors_loop_nodup errors : ∀ seen unique,
  NoDup (error_key <$> errors) →
  (∀ e, e ∈ errors → error_key e ∉ seen) →
  remove_duplicate_errors_loop seen unique errors = unique ++ errors.
Proof.
  induction errors as [|e0 errors IH]; intros seen unique Hnd Hseen; simpl.
  - by rewrite app_nil_r.
  - apply NoDup_cons in Hnd as [Hfresh Hnd].
    rewrite decide_False by (apply Hseen; by left).
    rewrite IH, <- app_assoc; [done|done|].
    intros e He. rewrite not_elem_of_union, not_elem_of_singleton.
    split; [|apply Hseen; by right].
    intros Heq. apply Hfresh. rewrite <- Heq.
    by apply list_elem_of_fmap_2.
Qed.

(** X1. [remove_duplicate_errors] loses no record and invents none: a
    record is in the result exactly when it is in the input, the result
    holds no record twice, and it is never longer than the input. *)
Theorem remove_duplicate_errors_same_records (errors : list ErrorRecord) :
  (∀ e, e ∈ remove_duplicate_errors errors ↔ e ∈ errors)
  ∧ NoDup (remove_duplicate_errors errors)
  ∧ length (remove_duplicate_errors errors) ≤ length errors.
Proof.
  assert (Hin : ∀ e, e ∈ remove_duplicate_errors errors ↔ e ∈ errors).
  { intros e. unfold remove_duplicate_errors.
    rewrite remove_duplicate_errors_loop_elem_of, elem_of_nil.
    split; [tauto|]. intros He. right. split; [done|]. apply not_elem_of_empty. }
  destruct (remove_duplicate_errors_loop_inv errors [] ∅ [] [] dedup_inv_init)
    as (seen' & positions & [_ Hnd _ _ _ _]).
  simpl in Hnd. fold (remove_duplicate_errors errors) in Hnd.
  assert (Hnd' : NoDup (remove_duplicate_errors errors))
    by (by apply NoDup_fmap_1 in Hnd).
  split_and!; [done|done|].
  apply submseteq_length, NoDup_submseteq; [done|].
  intros e. by rewrite Hin.
Qed.

(** X2. A list without repeated records is returned unchanged, and
    deduplicating twice is the same as deduplicating once. *)
Theorem remove_duplicate_errors_idempotent (errors : list ErrorRecord) :
  (NoDup errors → remove_duplicate_errors errors = errors)
  ∧ remove_duplicate_errors (remove_duplicate_errors errors)
    = remove_duplicate_errors errors.
Proof.
  assert (Hfix : ∀ l, NoDup (error_key <$> l) → remove_duplicate_errors l = l).
  { intros l Hnd. unfold remove_duplicate_errors.
    rewrite remove_duplicate_errors_loop_nodup; [done|done|].
    intros e _. apply not_elem_of_empty. }
  split.
  - intros Hnd. apply Hfix. apply NoDup_fmap_2; [|done].
    intros e e'. apply error_key_inj.
  - apply Hfix.
    destruct (remove_duplicate_errors_loop_inv errors [] ∅ [] [] dedup_inv_init)
      as (seen' & positions & [_ Hnd _ _ _ _]).
    done.
Qed.

Lemma remove_duplicate_errors_idempotent_witness :
  NoDup [located_error; continuation_error]
  ∧ remove_duplicate_errors [located_error; continuation_error]
    = [located_error; continuation_error].
Proof.
  assert (H : NoDup [located_error; continuation_error])
    by (apply (bool_decide_unpack (NoDup _)); vm_compute; reflexivity).
  split; [exact H|].
  exact (proj1 (remove_duplicate_errors_idempotent
                  [located_error; continuation_error]) H).
Defined.

(** ** Paragraph positions by content *)

Lemma find_index_spec {A} (f : nat → A → bool) (l : list A) : ∀ i,
  (find_index f i l = (-1)%Z ∧ ∀ j x, l !! j = Some x → f (i + j) x = false)
  ∨ ∃ j x, find_index f i l = Z.of_nat (i + j) ∧ l !! j = Some x
           ∧ f (i + j) x = true
           ∧ ∀ k y, k < j → l !! k = Some y → f (i + k) y = false.
Proof.
  induction l as [|x l IH]; intros i; simpl.
  - left. split; [done|]. by intros j y.
  - destruct (f i x) eqn:Hfx.
    + right. exists 0, x. rewrite Nat.add_0_r. split_and!; try done. lia.
    + destruct (IH (S i)) as [[Hr Hall]|(j & y & Hr & Hj & Hfy & Hfirst)].
      * left. split; [done|].
        intros [|k] z Hz; simplify_eq/=; [by rewrite Nat.add_0_r|].
        rewrite <- Nat.add_succ_comm. by apply Hall.
      * right. exists (S j), y. rewrite <- Nat.add_succ_comm.
        split_and!; try done.
        intros [|k] z Hk Hz; simplify_eq/=; [by rewrite Nat.add_0_r|].
        rewrite <- Nat.add_succ_comm. apply (Hfirst k z); [lia|done].
Qed.


(** X3. For a paragraph of the document, [get_paragraph_index_by_content]
    returns the first position that holds a paragraph with the same
    stripped text and style name: a position at or before the target,
    never [-1]. *)
Theorem get_paragraph_index_by_content_first_match
    (doc : Document) (target : nat) (tp : Paragraph) :
  paragraphs doc !! target = Some tp →
  ∃ r q,
    get_paragraph_index_by_content doc target = Z.of_nat r
    ∧ r ≤ target
    ∧ paragraphs doc !! r = Some q
    ∧ same_content q tp
    ∧ ∀ j q', j < r → paragraphs doc !! j = Some q' → ¬ same_content q' tp.
Proof.
  intros Htp. unfold get_paragraph_index_by_content. rewrite Htp.
  set (f := λ (i : nat) (p : Paragraph),
              bool_decide (i = target)
              || (PyStr.eqb (strip (text p)) (strip (text tp))
                  && PyStr.eqb (style_name p) (style_name tp))).
  assert (Hf : ∀ i p, paragraphs doc !! i = Some p →
                 f i p = true ↔ same_content p tp).
  { intros i p Hp. unfold f, same_content, PyStr.eqb.
    rewrite orb_true_iff, andb_true_iff, !bool_decide_eq_true.
    split; [|tauto]. intros [->|?]; [|done]. by simplify_eq. }
  destruct (find_index_spec f (paragraphs doc) 0)
    as [[_ Hall]|(j & q & Hr & Hj & Hfq & Hfirst)]; simpl in *.
  - assert (f target tp = true) as Hyes by (by apply Hf).
    by rewrite (Hall target tp Htp) in Hyes.
  - exists j, q. split_and!; try done.
    + destruct (decide (j ≤ target)) as [|Hgt]; [done|].
      assert (f target tp = false) as Hno by (apply Hfirst; [lia|done]).
      assert (f target tp = true) as Hyes by (by apply Hf).
      congruence.
    + by apply (Hf j).
    + intros k q' Hk Hq' Hsame. apply (Hf k) in Hsame; [|done].
      by rewrite (Hfirst k q' Hk Hq') in Hsame.
Qed.

Lemma get_paragraph_index_by_content_first_match_witness :
  ∃ r q,
    get_paragraph_index_by_content twice_a_appendix_doc 2 = Z.of_nat r
    ∧ r ≤ 2
    ∧ paragraphs twice_a_appendix_doc !! r = Some q
    ∧ same_content q (appendix_paragraph (U "Приложение А"))
    ∧ ∀ j q', j < r → paragraphs twice_a_appendix_doc !! j = Some q'
              → ¬ same_content q' (appendix_paragraph (U "Приложение А")).
Proof.
  exact (get_paragraph_index_by_content_first_match twice_a_appendix_doc 2
           (appendix_paragraph (U "Приложение А")) eq_refl).
Defined.

(** The second of two paragraphs with the same text and style is located
    at the first one. *)
Example get_paragraph_index_by_content_repeated :
  get_paragraph_index_by_content twice_a_appendix_doc 2 = 0%Z.
Proof. reflexivity. Qed.

(** ** The entry point: what a call may write *)


Lemma writes_within_refl paths w : writes_within paths w w.
Proof. by split. Qed.

Lemma writes_within_set_file paths w w' path c :
  path ∈ paths → writes_within paths w w' →
  writes_within paths w (set_file w' path c).
Proof.
  intros Hin [Hl Hf]. split; [done|]. intros path' Hout. simpl.
  rewrite lookup_insert_ne; [by apply Hf|]. by intros ->.
Qed.

Lemma check_document_formatting_writes_within
    (add_comment_raises : Paragraph → Comment → bool) (P : Passes)
    (w : World) (file_path new_file_path json_file_path : str) :
  writes_within [new_file_path; json_file_path] w
    (check_document_formatting add_comment_raises P w
       file_path new_file_path json_file_path).2.
Proof.
  unfold check_document_formatting, shutil_copyfile, open_document,
    add_comments_to_document, save_document, dump_json.
  repeat (case_match; simplify_eq/=; try apply writes_within_refl);
    repeat (apply writes_within_set_file; [set_solver|]);
    apply writes_within_refl.
Qed.

(** X4. A call of [check_document_formatting] never locks or unlocks a
    path and writes no file but the copy and the report; the input file
    itself keeps its content unless it is also given as the report path. *)
Theorem check_document_formatting_writes_only_outputs
    (add_comment_raises : Paragraph → Comment → bool) (P : Passes)
    (w : World) (file_path new_file_path json_file_path : str) :
  let w' :=
    (check_document_formatting add_comment_raises P w
       file_path new_file_path json_file_path).2 in
  locked w' = locked w
  ∧ (∀ path, path ≠ new_file_path → path ≠ json_file_path →
       files w' !! path = files w !! path)
  ∧ (file_path ≠ json_file_path →
       files w' !! file_path = files w !! file_path).
Proof.
  intros w'.
  destruct (check_document_formatting_writes_within add_comment_raises P w
              file_path new_file_path json_file_path) as [Hl Hf].
  fold w' in Hl, Hf. split_and!; [done| |].
  - intros path Hn Hj. apply Hf. set_solver.
  - intros Hj. destruct (decide (file_path = new_file_path)) as [<-|Hn].
    + (* copying a file onto itself raises; nothing is written *)
      unfold w', check_document_formatting, shutil_copyfile.
      destruct (os_path_exists w file_path); simpl; [|done].
      destruct (files w !! file_path) eqn:Hfile; simpl; [|by rewrite Hfile].
      rewrite decide_True by done. simpl. by rewrite Hfile.
    + apply Hf. set_solver.
Qed.

Lemma check_document_formatting_writes_only_outputs_witness :
  let w := world_with (U "in.docx") one_paragraph_doc in
  let w' :=
    (check_document_formatting never_raises (constant_passes [located_error])
       w (U "in.docx") (U "in_NEW.docx") (U "in_errors.json")).2 in
  U "in.docx" ≠ U "in_errors.json"
  ∧ files w' !! U "in.docx" = files w !! U "in.docx".
Proof.
  intros w w'.
  assert (H : U "in.docx" ≠ U "in_errors.json") by (by vm_compute).
  split; [exact H|].
  exact (proj2 (proj2 (check_document_formatting_writes_only_outputs
                         never_raises (constant_passes [located_error]) w
                         (U "in.docx") (U "in_NEW.docx")
                         (U "in_errors.json"))) H).
Defined.

(** X5. When [check_document_formatting] returns [True], the copy path
    holds a document. *)
Theorem check_document_formatting_true_leaves_document
    (add_comment_raises : Paragraph → Comment → bool) (P : Passes)
    (w w' : World) (file_path new_file_path json_file_path : str) :
  check_document_formatting add_comment_raises P w
    file_path new_file_path json_file_path = (true, w') →
  os_path_exists w file_path = true
  ∧ file_path ≠ new_file_path
  ∧ ∃ doc, files w' !! new_file_path = Some (DocxFile doc).
Proof.
  unfold check_document_formatting, shutil_copyfile, open_document,
    add_comments_to_document, save_document, dump_json.
  intros H.
  repeat (case_match; simplify_eq/=; try done);
    (split_and!; [by apply negb_false_iff|done|]);
    eexists; first [apply lookup_insert_eq|apply lookup_insert].
Qed.

Lemma check_document_formatting_true_leaves_document_witness :
  let w := world_with (U "in.docx") one_paragraph_doc in
  let r :=
    check_document_formatting never_raises (constant_passes [located_error])
      w (U "in.docx") (U "in_NEW.docx") (U "in_errors.json") in
  r.1 = true
  ∧ ∃ doc, files r.2 !! U "in_NEW.docx" = Some (DocxFile doc).
Proof.
  intros w r.
  assert (H : r = (true, r.2)) by (by vm_compute).
  split; [by rewrite H|].
  exact (proj2 (proj2 (check_document_formatting_true_leaves_document
                         never_raises (constant_passes [located_error]) w r.2
                         (U "in.docx") (U "in_NEW.docx")
                         (U "in_errors.json") H))).
Defined.

Lemma comments_added_refl p : comments_added p p.
Proof. exists []. destruct p. unfold set_comments. simpl. by rewrite app_nil_r. Qed.

Lemma comments_added_trans p1 p2 p3 :
  comments_added p1 p2 → comments_added p2 p3 → comments_added p1 p3.
Proof.
  intros [new1 ->] [new2 ->]. exists (new1 ++ new2).
  unfold set_comments. simpl. by rewrite app_assoc.
Qed.

Section AnnotationFrame.

Variable add_comment_raises : Paragraph → Comment → bool.
Variables author initials : str.

Lemma comment_error_frame doc err :
  let doc' := comment_error add_comment_raises author initials doc err in
  body doc' = body doc
  ∧ numbering doc' = numbering doc
  ∧ default_style_name doc' = default_style_name doc
  ∧ ∀ i p, paragraphs doc !! i = Some p →
      ∃ p', paragraphs doc' !! i = Some p' ∧ comments_added p p'.
Proof.
  assert (Hsame : ∀ i p, paragraphs doc !! i = Some p →
            ∃ p', paragraphs doc !! i = Some p' ∧ comments_added p p').
  { intros i p Hp. exists p. split; [done|apply comments_added_refl]. }
  unfold comment_error.
  destruct (element_type err) as [[]|]; simpl; try done.
  - destruct (in_range _ _); [|done].
    destruct (paragraphs doc !! Z.to_nat (index err)) as [para|] eqn:Hpara;
      [|done].
    unfold add_comment. destruct (add_comment_raises _ _); [done|].
    simpl. split_and!; try done. intros i p Hp.
    destruct (decide (i = Z.to_nat (index err))) as [->|Hne].
    + rewrite list_lookup_insert_eq by (by eapply lookup_lt_Some).
      eexists. split; [done|]. simplify_eq. by eexists.
    + rewrite list_lookup_insert_ne by done. by apply Hsame.
  - destruct (in_range _ _); [|done].
    by destruct (tables doc !! Z.to_nat (index err)).
Qed.

Lemma comment_errors_frame errors : ∀ doc,
  let doc' := comment_errors add_comment_raises author initials doc errors in
  body doc' = body doc
  ∧ numbering doc' = numbering doc
  ∧ default_style_name doc' = default_style_name doc
  ∧ ∀ i p, paragraphs doc !! i = Some p →
      ∃ p', paragraphs doc' !! i = Some p' ∧ comments_added p p'.
Proof.
  induction errors as [|e errors IH]; intros doc; simpl.
  - split_and!; try done. intros i p Hp. exists p.
    split; [done|apply comments_added_refl].
  - destruct (comment_error_frame doc e) as (Hb & Hn & Hd & Hp).
    destruct (IH (comment_error add_comment_raises author initials doc e))
      as (Hb' & Hn' & Hd' & Hp').
    unfold comment_errors in *. simpl in *.
    rewrite Hb', Hn', Hd'. split_and!; try done.
    intros i p Hi. destruct (Hp i p Hi) as (p1 & Hp1 & Hadd1).
    destruct (Hp' i p1 Hp1) as (p2 & Hp2 & Hadd2).
    exists p2. split; [done|]. by eapply comments_added_trans.
Qed.

End AnnotationFrame.

(** X6. The document that [add_comments_to_document] saves has the body
    layout, the numbering definitions and the paragraph count of the
    document it was given, and each of its body paragraphs is the original
    paragraph with further comments attached: no text, formatting or earlier
    comment of a body paragraph is changed, whatever the error records and
    whether or not an insertion fails. *)
Theorem add_comments_to_document_keeps_paragraphs
    (add_comment_raises : Paragraph → Comment → bool) (w w' : World)
    (doc : Document) (errors : list ErrorRecord)
    (output_path author initials : str) :
  add_comments_to_document add_comment_raises w doc errors output_path
    author initials = Ok w' →
  ∃ doc',
    files w' !! output_path = Some (DocxFile doc')
    ∧ body doc' = body doc
    ∧ numbering doc' = numbering doc
    ∧ length (paragraphs doc') = length (paragraphs doc)
    ∧ length (tables doc') = length (tables doc)
    ∧ ∀ i p, paragraphs doc !! i = Some p →
        ∃ p', paragraphs doc' !! i = Some p' ∧ comments_added p p'.
Proof.
  unfold add_comments_to_document, save_document.
  destruct (decide (output_path ∈ locked w)); [done|]. intros [= <-].
  eexists. split; [simpl; first [apply lookup_insert_eq|apply lookup_insert]|].
  destruct (comment_errors_frame add_comment_raises author initials errors doc)
    as (Hb & Hn & _ & Hp).
  destruct (comment_errors_lengths add_comment_raises author initials
              errors doc) as [Hlp Hlt].
  by split_and!.
Qed.

Lemma add_comments_to_document_keeps_paragraphs_witness :
  ∃ doc',
    files (set_file empty_world (U "out.docx")
             (DocxFile (comment_errors never_raises (U "V") (U "V")
                          one_paragraph_doc [located_error])))
      !! U "out.docx" = Some (DocxFile doc')
    ∧ body doc' = body one_paragraph_doc
    ∧ numbering doc' = numbering one_paragraph_doc
    ∧ length (paragraphs doc') = length (paragraphs one_paragraph_doc)
    ∧ length (tables doc') = length (tables one_paragraph_doc)
    ∧ ∀ i p, paragraphs one_paragraph_doc !! i = Some p →
        ∃ p', paragraphs doc' !! i = Some p' ∧ comments_added p p'.
Proof.
  exact (add_comments_to_document_keeps_paragraphs never_raises empty_world _
           one_paragraph_doc [located_error] (U "out.docx") (U "V") (U "V")
           eq_refl).
Defined.

(** ** Checks and the kinds of their records *)

Section Quiet.

Variable on_message : str → bool.

Lemma of_kind_app errors1 errors2 :
  of_kind on_message (errors1 ++ errors2)
  = of_kind on_message errors1 ++ of_kind on_message errors2.
Proof. apply filter_app. Qed.

Lemma quiet_id : quiet on_message id.
Proof. done. Qed.

Lemma quiet_report msg el idx ety :
  on_message msg = false → quiet on_message (report msg el idx ety).
Proof.
  intros Hmsg errors. unfold report, add_error, of_kind.
  rewrite filter_app, filter_cons, filter_nil. simpl.
  rewrite decide_False by (by rewrite Hmsg). by rewrite app_nil_r.
Qed.

Lemma quiet_when b c : quiet on_message c → quiet on_message (when b c).
Proof. destruct b; [done|]. intros _. apply quiet_id. Qed.

Lemma quiet_checks cs :
  Forall (quiet on_message) cs → quiet on_message (checks cs).
Proof.
  unfold checks. induction 1 as [|c cs Hc _ IH]; intros errors; simpl.
  - done.
  - by rewrite (IH (c errors)), (Hc errors).
Qed.

Lemma quiet_for_each {A} (l : list A) (c : A → Check) :
  (∀ x, quiet on_message (c x)) → quiet on_message (for_each l c).
Proof.
  intros Hc. unfold for_each. induction l as [|x l IH]; intros errors; simpl.
  - done.
  - by rewrite (IH (c x errors)), (Hc x errors).
Qed.


End Quiet.

Ltac solve_quiet :=
  repeat first
    [ apply quiet_id
    | apply quiet_when
    | apply quiet_checks; repeat constructor
    | apply quiet_for_each; intros
    | apply quiet_report; vm_compute; reflexivity
    | case_match ].

Section Preserves.

Variable P : ErrorRecord → Prop.






Lemma preserves_nil c : preserves P c → Forall P (c []).
Proof. intros Hc. by apply Hc. Qed.

End Preserves.


(** ** Structural elements: required titles and structural paragraphs *)

Lemma quiet_check_title_formatting_title p i :
  quiet is_missing_title_message
    (check_title_formatting (U "В структурном элементе") p i).
Proof. unfold check_title_formatting. solve_quiet. Qed.

Lemma quiet_check_title_formatting_appendix p i :
  quiet is_missing_title_message
    (check_title_formatting (U "В приложении") p i).
Proof. unfold check_title_formatting. solve_quiet. Qed.

Lemma quiet_check_listing_caption text p i :
  quiet is_missing_title_message (check_listing_caption text p i).
Proof. unfold check_listing_caption. solve_quiet. Qed.

Lemma quiet_check_code_paragraph b p i :
  quiet is_missing_title_message (check_code_paragraph b p i).
Proof. unfold check_code_paragraph. solve_quiet. Qed.

Lemma quiet_check_appendix_letter letter p i errors letters :
  of_kind is_missing_title_message
    (check_appendix_letter letter p i errors letters).1
  = of_kind is_missing_title_message errors.
Proof.
  unfold check_appendix_letter.
  repeat case_match; simpl; try done;
    apply quiet_report; vm_compute; reflexivity.
Qed.

(** The scan itself emits no missing-title record. *)
Lemma structural_scan_quiet doc n :
  of_kind is_missing_title_message (ss_errors (structural_scan doc n)) = []
  ∧ Forall (λ le : nat * Errors, of_kind is_missing_title_message le.2 = [])
      (ss_listings (structural_scan doc n)).
Proof.
  apply (structural_scan_ind doc
           (λ st, of_kind is_missing_title_message (ss_errors st) = []
                  ∧ Forall (λ le : nat * Errors,
                              of_kind is_missing_title_message le.2 = [])
                      (ss_listings st))).
  - by split.
  - intros st [i p] [Herr Hlist]. unfold structural_step.
    destruct (strip (text p)) as [|c s]; [done|].
    destruct (has_key _ _).
    { simpl. by rewrite quiet_check_title_formatting_title. }
    destruct (startswith _ (U "Приложение")).
    { pose proof (quiet_check_appendix_letter
                    (strip (drop (length (U "Приложение ")) (c :: s)))
                    p i (ss_errors st) (ss_letters st)) as Hq.
      destruct (check_appendix_letter _ _ _ _ _) as [errors letters].
      simpl in *. by rewrite quiet_check_title_formatting_appendix, Hq. }
    assert (Hlist' : ∀ b : bool,
      Forall (λ le : nat * Errors, of_kind is_missing_title_message le.2 = [])
        (if b then ss_listings st
                   ++ [(i, check_listing_caption (c :: s) p i [])]
         else ss_listings st)).
    { intros []; [|done]. apply Forall_app. split; [done|].
      repeat constructor. simpl.
      by rewrite quiet_check_listing_caption. }
    destruct (startswith (c :: s) (U "Листинг"));
      destruct (paragraphs doc !! S i) as [next|];
      try destruct (is_code next); destruct (is_code p);
      cbn [andb negb ss_errors ss_listings fst snd];
      rewrite ?quiet_check_code_paragraph; (split; [done|]);
      first [apply (Hlist' true) | apply (Hlist' false)].
Qed.

Lemma structural_step_expected doc st i p :
  ss_expected (structural_step doc st (i, p))
  = map (λ kv : str * bool,
           (kv.1, kv.2 || (negb (PyStr.eqb (strip (text p)) [])
                           && PyStr.eqb kv.1 (strip (text p)))))
      (ss_expected st).
Proof.
  assert (Hid : ∀ d : list (str * bool),
            Forall (λ kv : str * bool,
                      negb (PyStr.eqb (strip (text p)) [])
                      && PyStr.eqb kv.1 (strip (text p)) = false) d →
            d = map (λ kv : str * bool,
                       (kv.1, kv.2 || (negb (PyStr.eqb (strip (text p)) [])
                                       && PyStr.eqb kv.1 (strip (text p)))))
                  d).
  { induction 1 as [|[k v] d Hkv _ IH]; simpl; [done|].
    simpl in Hkv. rewrite Hkv, orb_false_r. by f_equal. }
  unfold structural_step.
  destruct (strip (text p)) as [|c s] eqn:Htext.
  { apply Hid. apply Forall_forall. by intros kv _. }
  destruct (has_key (c :: s) (ss_expected st)) eqn:Hkey.
  { cbn [ss_expected]. unfold mark_present. apply map_ext. intros [k v]. simpl.
    destruct (PyStr.eqb k (c :: s)); simpl; [by rewrite orb_true_r|].
    by rewrite orb_false_r. }
  assert (Hnone : Forall (λ kv : str * bool,
                            negb (PyStr.eqb (c :: s) [])
                            && PyStr.eqb kv.1 (c :: s) = false)
                    (ss_expected st)).
  { apply Forall_forall. intros kv Hkv. simpl.
    unfold has_key in Hkey.
    apply not_true_iff_false in Hkey. apply not_true_iff_false.
    intros Heq. apply Hkey. apply existsb_exists. exists kv.
    split; [by apply list_elem_of_In|done]. }
  destruct (startswith _ (U "Приложение")).
  { destruct (check_appendix_letter _ _ _ _ _). by apply Hid. }
  destruct (startswith (c :: s) (U "Листинг"));
    destruct (paragraphs doc !! S i) as [next|];
    try destruct (is_code next); destruct (is_code p);
    cbn [andb negb ss_expected fst snd]; by apply Hid.
Qed.

Lemma structural_fold_expected doc l : ∀ st,
  ss_expected (fold_left (structural_step doc) l st)
  = map (λ kv : str * bool,
           (kv.1, kv.2 || existsb (λ ip : nat * Paragraph,
                                     negb (PyStr.eqb (strip (text ip.2)) [])
                                     && PyStr.eqb kv.1 (strip (text ip.2))) l))
      (ss_expected st).
Proof.
  induction l as [|[i p] l IH]; intros st; cbn [fold_left].
  - rewrite <- (map_id (ss_expected st)) at 1. apply map_ext.
    intros [k v]. simpl. by rewrite orb_false_r.
  - rewrite IH, structural_step_expected, map_map. apply map_ext.
    intros [k v]. cbn [existsb fst snd]. by rewrite orb_assoc.
Qed.

Lemma existsb_imap {A} (f : A → bool) (l : list A) :
  ∀ g : nat → A → nat * A,
    (∀ k x, (g k x).2 = x) →
    existsb (λ ip : nat * A, f ip.2) (imap g l) = existsb f l.
Proof.
  induction l as [|x l IH]; intros g Hg; simpl; [done|].
  rewrite Hg. f_equal. apply IH. intros k y. apply Hg.
Qed.

Lemma existsb_enumerate {A} (f : A → bool) (l : list A) :
  existsb (λ ip : nat * A, f ip.2) (enumerate l) = existsb f l.
Proof. by apply existsb_imap. Qed.

Lemma required_title_flag (title text : str) :
  title ∈ required_titles →
  negb (PyStr.eqb text []) && PyStr.eqb title text = PyStr.eqb text title.
Proof.
  intros Hin. unfold PyStr.eqb.
  destruct (decide (text = title)) as [->|Hne].
  - rewrite (bool_decide_true (title = title)) by done.
    rewrite bool_decide_false; [done|]. intros ->.
    unfold required_titles in Hin.
    rewrite !elem_of_cons, elem_of_nil in Hin.
    by destruct Hin as [H|[H|[H|[]]]]; vm_compute in H.
  - rewrite (bool_decide_false (title = text)) by done.
    rewrite (bool_decide_false (text = title)) by done.
    by rewrite andb_false_r.
Qed.

Lemma existsb_ext_all {A} (f g : A → bool) (l : list A) :
  (∀ x, f x = g x) → existsb f l = existsb g l.
Proof. intros H. induction l as [|x l IH]; simpl; [done|]. by rewrite H, IH. Qed.

Lemma structural_scan_expected doc :
  ss_expected (structural_scan doc (length (paragraphs doc)))
  = map (λ title, (title, has_title doc title)) required_titles.
Proof.
  unfold structural_scan. rewrite structural_fold_expected.
  rewrite take_ge by (unfold enumerate; by rewrite length_imap).
  assert (Hflag : ∀ title, title ∈ required_titles →
            existsb (λ ip : nat * Paragraph,
                       negb (PyStr.eqb (strip (text ip.2)) [])
                       && PyStr.eqb title (strip (text ip.2)))
              (enumerate (paragraphs doc))
            = has_title doc title).
  { intros title Hin. unfold has_title.
    rewrite <- (existsb_enumerate
                  (λ p, PyStr.eqb (strip (text p)) title) (paragraphs doc)).
    apply existsb_ext_all. intros [i p]. by apply required_title_flag. }
  unfold structural_init, required_titles in *.
  cbn [ss_expected map fst snd orb].
  rewrite !Hflag; [done|set_solver..].
Qed.

(** X7. [check_structural_elements] reports a required title as missing
    exactly when no paragraph of the document has that title as its
    stripped text, whatever the formatting of the paragraph: the
    missing-title records are those of the absent titles, in the order
    Введение, Заключение, Перечень использованных информационных
    ресурсов. *)
Theorem check_structural_elements_missing_titles (doc : Document) :
  of_kind is_missing_title_message (check_structural_elements doc).1.1.1
  = map missing_title_error
      (filter (λ title, has_title doc title = false) required_titles).
Proof.
  unfold check_structural_elements. cbv zeta. cbn [fst].
  destruct (structural_scan_quiet doc (length (paragraphs doc)))
    as [Herr Hlist].
  rewrite of_kind_app.
  assert (Hconcat : ∀ ls : list (nat * Errors),
            Forall (λ le : nat * Errors,
                      of_kind is_missing_title_message le.2 = []) ls →
            of_kind is_missing_title_message (concat (map snd ls)) = []).
  { induction 1 as [|le ls Hle _ IH]; cbn [map concat]; [done|].
    by rewrite of_kind_app, Hle, IH. }
  rewrite (Hconcat _ Hlist), app_nil_r.
  match goal with
  | |- of_kind _ (?c _) = _ =>
      assert (Hu : uniform c) by solve_uniform; rewrite (Hu _)
  end.
  rewrite of_kind_app, Herr, app_nil_l.
  rewrite structural_scan_expected. unfold required_titles.
  rewrite !filter_cons, filter_nil. cbn [map].
  destruct (has_title doc (U "Введение")),
    (has_title doc (U "Заключение")), (has_title doc resources_title);
    vm_compute; reflexivity.
Qed.

Lemma structural_step_structural doc st i p :
  (ss_expected st).*1 = required_titles →
  ss_structural (structural_step doc st (i, p))
  = ss_structural st ++ (if is_structural_paragraph p then [i] else []).
Proof.
  intros Hkeys. unfold structural_step, is_structural_paragraph.
  destruct (strip (text p)) as [|c s] eqn:Htext.
  { rewrite bool_decide_false, app_nil_r; [done|].
    unfold required_titles. rewrite !elem_of_cons, elem_of_nil.
    by intros [H|[H|[H|[]]]]; vm_compute in H. }
  destruct (has_key (c :: s) (ss_expected st)) eqn:Hkey.
  { apply has_key_elem_of in Hkey. rewrite Hkeys in Hkey.
    by rewrite bool_decide_true. }
  rewrite bool_decide_false; cycle 1.
  { rewrite <- Hkeys, <- has_key_elem_of. by rewrite Hkey. }
  cbn [orb].
  destruct (startswith (c :: s) (U "Приложение")).
  { by destruct (check_appendix_letter _ _ _ _ _). }
  rewrite app_nil_r.
  destruct (startswith (c :: s) (U "Листинг"));
    destruct (paragraphs doc !! S i) as [next|];
    try destruct (is_code next); destruct (is_code p); done.
Qed.

Lemma structural_fold_structural doc l : ∀ st,
  (ss_expected st).*1 = required_titles →
  ss_structural (fold_left (structural_step doc) l st)
  = ss_structural st
    ++ (filter (λ ip : nat * Paragraph, is_structural_paragraph ip.2 = true)
          l).*1.
Proof.
  induction l as [|[i p] l IH]; intros st Hkeys; cbn [fold_left].
  - by rewrite filter_nil, app_nil_r.
  - rewrite IH by (by rewrite structural_step_keys).
    rewrite structural_step_structural by done.
    rewrite filter_cons. cbn [snd].
    destruct (is_structural_paragraph p); simpl.
    + by rewrite <- app_assoc.
    + by rewrite app_nil_r.
Qed.

(** X8. The structural paragraphs that [check_structural_elements] returns
    are, in document order, the paragraphs whose stripped text is one of
    the three required titles or starts with [Приложение]; the formatting of
    a paragraph plays no part in the classification. *)
Theorem check_structural_elements_structural_paragraphs (doc : Document) :
  (check_structural_elements doc).1.1.2
  = (filter (λ ip : nat * Paragraph, is_structural_paragraph ip.2 = true)
       (enumerate (paragraphs doc))).*1.
Proof.
  unfold check_structural_elements, structural_scan. cbv zeta. cbn [fst snd].
  rewrite take_ge by (unfold enumerate; by rewrite length_imap).
  by rewrite structural_fold_structural.
Qed.

(** ** Table captions: the format of a caption against the previous one *)


Lemma of_kind_when_report_quiet K b msg el idx ety errors :
  K msg = false →
  of_kind K (when b (report msg el idx ety) errors) = of_kind K errors.
Proof. intros H. by apply quiet_when, quiet_report. Qed.

Lemma of_kind_report_loud K msg el idx ety errors :
  K msg = true →
  of_kind K (report msg el idx ety errors)
  = of_kind K errors ++ [error_dict msg el (Some idx) (Some ety)].
Proof.
  intros H. unfold report, add_error, of_kind.
  rewrite filter_app, filter_cons, filter_nil. simpl.
  by rewrite decide_True.
Qed.
















(** In [two_formats_doc] the second caption changes the format and is
    reported; in [three_captions_doc] the third caption keeps the format of
    the second and is not, although it differs from the first. *)
Example two_formats_are_reported :
  format_errors None (main_captions two_formats_doc)
  = [error_dict (different_format_message Sequential)
       (ElParagraph (caption_paragraph (U "Таблица 2.1 – Итоги")))
       (Some 2%Z) (Some DocumentElementType.PARAGRAPH)].
Proof. by vm_compute. Qed.

Example third_caption_follows_the_second :
  main_captions three_captions_doc
  = [(0, caption_paragraph (U "Таблица 1 – Данные"), Sequential);
     (1, caption_paragraph (U "Таблица 2.1 – Итоги"), YX);
     (2, caption_paragraph (U "Таблица 2.2 – Выводы"), YX)]
  ∧ filter (λ e, is_format_error e = true)
      (check_table_formatting three_captions_doc).1
    = [error_dict (different_format_message Sequential)
         (ElParagraph (caption_paragraph (U "Таблица 2.1 – Итоги")))
         (Some 1%Z) (Some DocumentElementType.PARAGRAPH)].
Proof. by vm_compute. Qed.

(** ** Headings: where the records point *)


Lemma enumerate_elem_of {A} (l : list A) (i : nat) (x : A) :
  (i, x) ∈ enumerate l → l !! i = Some x.
Proof.
  unfold enumerate. intros Hin.
  apply list_elem_of_lookup in Hin as [j Hj].
  rewrite list_lookup_imap in Hj.
  destruct (l !! j) as [y|] eqn:Hy; simplify_eq/=. done.
Qed.

Section HeadingRecords.

Variable doc : Document.
Variable excluded : list nat.







End HeadingRecords.


(** ** Headings: records of one kind along the headings *)

Lemma checks_cons (c : Check) (cs : list Check) (errors : Errors) :
  checks (c :: cs) errors = checks cs (c errors).
Proof. done. Qed.

Section HeadingKinds.

Variable K : str → bool.
Variable doc : Document.
Variable excluded : list nat.
Variable per_heading : nat → Paragraph → list Z → Errors.

Hypothesis gate_quiet : ∀ i p, quiet K (heading_gate doc excluded i p).1.
Hypothesis numbering_quiet : ∀ last number_parts p i,
  quiet K (check_heading_numbering last number_parts p i).1.
Hypothesis format_kind : ∀ i p number number_parts errors,
  of_kind K (check_heading_format doc i p number number_parts errors)
  = of_kind K errors ++ per_heading i p number_parts.

Lemma heading_fold_of_kind l : ∀ st,
  of_kind K (hs_errors (fold_left (heading_step doc excluded) l st))
  = of_kind K (hs_errors st)
    ++ concat
         (map (λ e : nat * Paragraph * list Z, per_heading e.1.1 e.1.2 e.2)
            (omap (λ ip : nat * Paragraph,
                     match (heading_gate doc excluded ip.1 ip.2).2 with
                     | IsHeading _ number_parts =>
                         Some (ip.1, ip.2, number_parts)
                     | NotHeading _ => None
                     end) l)).
Proof.
  induction l as [|[i p] l IH]; intros st.
  - cbn [fold_left omap list_omap map concat]. by rewrite app_nil_r.
  - cbn [fold_left omap list_omap fst snd]. rewrite IH. unfold heading_step.
    pose proof (gate_quiet i p) as Hgate.
    destruct (heading_gate doc excluded i p) as [gate_check gate].
    cbn [fst snd] in *.
    destruct gate as [candidate|number number_parts].
    + cbn [hs_errors]. by rewrite (Hgate _).
    + pose proof (numbering_quiet (hs_last_heading_numbers st)
                    number_parts p i) as Hnum.
      destruct (check_heading_numbering (hs_last_heading_numbers st)
                  number_parts p i) as [numbering_check last].
      cbn [fst snd hs_errors map concat] in *.
      rewrite format_kind, (Hnum _), (Hgate _).
      by rewrite <- app_assoc.
Qed.

End HeadingKinds.

Lemma quiet_blank_lines_heading_gate doc excluded i p :
  quiet is_blank_lines_message (heading_gate doc excluded i p).1.
Proof.
  assert (Hc0 : quiet is_blank_lines_message
                  (check_double_spaces (strip (text p)) p i)).
  { unfold check_double_spaces. solve_quiet. }
  unfold heading_gate. cbv zeta.
  repeat (case_match; cbn [fst]); try apply quiet_id; try done;
    solve_quiet; try done.
Qed.

Lemma quiet_blank_lines_check_heading_numbering last number_parts p i :
  quiet is_blank_lines_message
    (check_heading_numbering last number_parts p i).1.
Proof. unfold check_heading_numbering. cbv zeta. cbn [fst]. solve_quiet. Qed.

Lemma uniform_check_heading_format doc i p number number_parts :
  uniform (check_heading_format doc i p number number_parts).
Proof. unfold check_heading_format. cbv zeta. solve_uniform. Qed.

Lemma check_heading_format_blank_lines doc i p number number_parts errors :
  of_kind is_blank_lines_message
    (check_heading_format doc i p number number_parts errors)
  = of_kind is_blank_lines_message errors
    ++ blank_lines_errors doc (i, p, number_parts).
Proof.
  rewrite (uniform_check_heading_format doc i p number number_parts errors).
  rewrite of_kind_app. f_equal.
  unfold check_heading_format. cbv zeta.
  do 3 rewrite checks_cons.
  rewrite (quiet_checks is_blank_lines_message)
    by (repeat constructor; solve_quiet).
  unfold blank_lines_errors, has_two_empty_lines_before,
    has_two_empty_lines_after.
  destruct (_ && _ && blank_at doc (Z.of_nat i - 2));
    destruct (_ && _ && blank_at doc (Z.of_nat i + 2));
    cbn [negb when id];
    repeat first
      [ rewrite of_kind_report_loud by (vm_compute; reflexivity)
      | rewrite of_kind_when_report_quiet by (vm_compute; reflexivity) ];
    done.
Qed.

(** X11. [check_headings_formatting] applies the blank-line rule to every
    accepted heading and to nothing else: its records of that rule are, for
    each heading in order, one when the two paragraphs before it are not
    both blank and one when the two paragraphs after it are not both
    blank.  The paragraphs before position [0] and [1] are read from the
    end of the document, and a heading with fewer than two paragraphs after
    it always gets the second record. *)
Theorem check_headings_formatting_blank_lines
    (doc : Document)
    (structural_paragraphs appendix_paragraphs listing_paragraphs
     table_captions image_captions : list nat) :
  let excluded :=
    structural_paragraphs ++ appendix_paragraphs ++ listing_paragraphs
    ++ table_captions ++ image_captions in
  of_kind is_blank_lines_message
    (check_headings_formatting doc structural_paragraphs appendix_paragraphs
       listing_paragraphs table_captions image_captions).1.1
  = concat (map (blank_lines_errors doc) (heading_entries doc excluded)).
Proof.
  intros excluded. unfold check_headings_formatting, heading_entries.
  cbv zeta. cbn [fst].
  rewrite (heading_fold_of_kind is_blank_lines_message doc excluded
             (λ i p number_parts, blank_lines_errors doc (i, p, number_parts))).
  - cbn [hs_errors heading_init]. unfold of_kind. rewrite filter_nil.
    cbn [app]. f_equal. apply map_ext. by intros [[i p] number_parts].
  - apply quiet_blank_lines_heading_gate.
  - apply quiet_blank_lines_check_heading_numbering.
  - apply check_heading_format_blank_lines.
Qed.

(** The heading of [heading_first_doc] stands in the first paragraph, with
    text right after it; the two blank paragraphs that end the document
    count as the two blank lines before it. *)
Example heading_at_the_start_reads_the_end :
  has_two_empty_lines_before heading_first_doc 0 = true
  ∧ of_kind is_blank_lines_message
      (check_headings_formatting heading_first_doc [] [] [] [] []).1.1
    = [error_dict (U "После заголовка должно быть две пустые строки.")
         (ElParagraph (heading_paragraph (U "1 Введение в тему") 203200))
         (Some 0%Z) (Some DocumentElementType.PARAGRAPH)].
Proof. by vm_compute. Qed.

(** ** Headings: what the numbering check remembers *)

(** X12. The numbering check of a heading remembers the number it found,
    not the number it expected: after a heading with the number parts
    [number_parts], the remembered number of its level is [number_parts],
    the remembered numbers of the deeper levels are dropped and those of
    the higher levels are kept.  So a top-level heading [m] that follows a
    top-level heading [n] is reported exactly when [m] is not [n + 1],
    whatever was reported for [n]. *)
Theorem check_heading_numbering_remembers_found
    (last_heading_numbers : gmap nat (list Z)) (number_parts : list Z)
    (p : Paragraph) (i : nat) :
  let updated :=
    (check_heading_numbering last_heading_numbers number_parts p i).2 in
  updated !! length number_parts = Some number_parts
  ∧ (∀ level, length number_parts < level → updated !! level = None)
  ∧ (∀ level, level < length number_parts →
       updated !! level = last_heading_numbers !! level)
  ∧ ∀ (n m : Z) (q : Paragraph) (j : nat),
      number_parts = [n] →
      (check_heading_numbering updated [m] q j).1 []
      = if (m =? n + 1)%Z then []
        else [error_dict
                (U "Нарушена последовательность нумерации заголовка. Ожидалось '"
                 ++ PyStr.of_Z (n + 1) ++ U "'.")
                (ElParagraph q) (Some (Z.of_nat j))
                (Some DocumentElementType.PARAGRAPH)].
Proof.
  intros updated.
  assert (Hat : updated !! length number_parts = Some number_parts).
  { unfold updated, check_heading_numbering. cbv zeta. cbn [snd].
    apply map_lookup_filter_Some. split; [apply lookup_insert_eq|].
    cbn [fst]. lia. }
  split_and!; [done| | |].
  - intros level Hlevel. unfold updated, check_heading_numbering.
    cbv zeta. cbn [snd]. apply map_lookup_filter_None. right.
    intros x _. cbn [fst]. lia.
  - intros level Hlevel. unfold updated, check_heading_numbering.
    cbv zeta. cbn [snd].
    destruct (last_heading_numbers !! level) as [x|] eqn:Hx.
    + apply map_lookup_filter_Some. split; [|cbn [fst]; lia].
      rewrite lookup_insert_ne by lia. done.
    + apply map_lookup_filter_None. left.
      rewrite lookup_insert_ne by lia. done.
  - intros n m q j ->. cbn [length] in Hat.
    unfold check_heading_numbering at 1. cbv zeta. cbn [fst length].
    rewrite Hat. cbn [default seq Nat.sub].
    unfold checks, for_each. cbn [fold_left existsb negb when id].
    unfold init_parts, last_part. cbn [length Nat.sub take last default].
    unfold id. rewrite bool_decide_true by done. cbn [andb negb].
    destruct (m =? n + 1)%Z; cbn [negb when]; [done|].
    unfold report, add_error, join_numbers.
    cbn [app map join]. done.
Qed.

Lemma check_heading_numbering_remembers_found_witness :
  (check_heading_numbering
     (check_heading_numbering
        (hs_last_heading_numbers heading_init) [5%Z] blank_paragraph 0).2
     [7%Z] blank_paragraph 3).1 []
  = [error_dict
       (U "Нарушена последовательность нумерации заголовка. Ожидалось '"
        ++ PyStr.of_Z (5 + 1) ++ U "'.")
       (ElParagraph blank_paragraph) (Some 3%Z)
       (Some DocumentElementType.PARAGRAPH)].
Proof.
  exact (proj2 (proj2 (proj2 (check_heading_numbering_remembers_found
                                (hs_last_heading_numbers heading_init)
                                [5%Z] blank_paragraph 0)))
           5%Z 7%Z blank_paragraph 3 eq_refl).
Defined.

(** ** List extraction: the groups *)

Lemma extract_step_shape doc st i p :
  extract_shape i st (extract_step doc st (i, p)).
Proof.
  unfold extract_step, extract_shape.
  destruct (PyStr.eqb (strip (text p)) [] && is_page_break p); [by auto|].
  destruct (PyStr.eqb (strip (text p)) resources_title).
  { destruct (ex_current st) eqn:Hcur; cbn [ex_groups ex_resource_groups
      ex_current]; [by auto|]. right. split_and!; try done. by left. }
  destruct (numPr p) as [[nid lvl]|].
  - unfold extract_numbered. cbv zeta.
    repeat case_match;
      cbn [ex_groups ex_resource_groups ex_current set_errors_current
           set_counters]; eauto 8.
  - unfold extract_plain.
    destruct (strip (text p)) as [|c s]; [by auto|].
    destruct (Re.match_ re_heading (c :: s)); [by auto|].
    destruct (Re.match_ re_manual_list (c :: s)) as [[g0 caps]|].
    + cbn [ex_groups ex_resource_groups ex_current set_errors_current].
      eauto 8.
    + destruct (ex_current st) eqn:Hcur; [by auto|].
      unfold close_group. rewrite Hcur.
      destruct (ex_is_resource_section st);
        cbn [ex_groups ex_resource_groups ex_current]; right;
        (split_and!; try done); [by right|by left].
Qed.

Lemma extract_inv_step i st st' :
  extract_shape i st st' → extract_inv i st → extract_inv (S i) st'.
Proof.
  unfold extract_inv, extracted_positions.
  intros Hshape (Hne & Hnd & Hlt).
  assert (Hlt' : Forall (λ k, k < S i)
                   (concat (ex_groups st) ++ concat (ex_resource_groups st)
                    ++ ex_current st).*2).
  { eapply Forall_impl; [exact Hlt|]. simpl. lia. }
  destruct Hshape as [(-> & -> & [->|(prefix & content & ->)])
                     |(Hcur & -> & [[-> ->]|[-> ->]])].
  - done.
  - split_and!; [done| |].
    + rewrite !app_assoc, fmap_app. rewrite !app_assoc in Hnd, Hlt.
      apply NoDup_app. split_and!; [done| |by apply NoDup_singleton].
      intros k Hk. cbn. rewrite list_elem_of_singleton. intros ->.
      rewrite Forall_forall in Hlt. apply Hlt in Hk. lia.
    + rewrite !app_assoc, fmap_app. rewrite !app_assoc in Hlt'.
      apply Forall_app. split; [done|]. repeat constructor; simpl; lia.
  - rewrite app_nil_r.
    assert (Hperm : concat (ex_groups st ++ [ex_current st])
                    ++ concat (ex_resource_groups st)
                    ≡ₚ concat (ex_groups st) ++ concat (ex_resource_groups st)
                       ++ ex_current st).
    { rewrite concat_app. simpl. rewrite app_nil_r, <- !app_assoc.
      apply Permutation_app_head, Permutation_app_comm. }
    split_and!.
    + rewrite <- app_assoc. rewrite Forall_app in Hne.
      destruct Hne as [Hg Hr]. rewrite !Forall_app.
      split_and!; [done|by repeat constructor|done].
    + by rewrite Hperm.
    + by rewrite Hperm.
  - rewrite app_nil_r.
    assert (Hperm : concat (ex_groups st)
                    ++ concat (ex_resource_groups st ++ [ex_current st])
                    ≡ₚ concat (ex_groups st) ++ concat (ex_resource_groups st)
                       ++ ex_current st).
    { rewrite concat_app. simpl. by rewrite app_nil_r. }
    split_and!.
    + rewrite app_assoc. apply Forall_app. split; [done|].
      by repeat constructor.
    + by rewrite Hperm.
    + by rewrite Hperm.
Qed.

Lemma extract_scan_inv doc n :
  extract_inv n
    (fold_left (extract_step doc) (take n (enumerate (paragraphs doc)))
       extract_init).
Proof.
  induction n as [|n IH].
  - split_and!; by constructor.
  - destruct (paragraphs doc !! n) as [p|] eqn:Hp.
    + rewrite (take_S_r _ _ _ (enumerate_lookup _ _ _ Hp)), fold_left_app.
      cbn [fold_left]. eapply extract_inv_step; [|exact IH].
      apply extract_step_shape.
    + apply lookup_ge_None in Hp.
      rewrite take_ge by (unfold enumerate; rewrite length_imap; lia).
      rewrite take_ge in IH by (unfold enumerate; rewrite length_imap; lia).
      destruct IH as (Hne & Hnd & Hlt). split_and!; [done|done|].
      eapply Forall_impl; [exact Hlt|]. simpl. lia.
Qed.

(** X13. [extract_list_items] returns no empty group, puts no paragraph
    into two items (of the same or of different groups, ordinary or
    bibliography) and takes every item from a paragraph of the document. *)
Theorem extract_list_items_groups (doc : Document) :
  let groups := (extract_list_items doc).1.1 in
  let resource_groups := (extract_list_items doc).1.2 in
  Forall (λ g, g ≠ []) (groups ++ resource_groups)
  ∧ NoDup (concat (groups ++ resource_groups)).*2
  ∧ Forall (λ item : ListItem, item.2 < length (paragraphs doc))
      (concat (groups ++ resource_groups)).
Proof.
  intros groups resource_groups. unfold groups, resource_groups.
  unfold extract_list_items. cbv zeta.
  pose proof (extract_scan_inv doc (length (paragraphs doc))) as Hinv.
  rewrite take_ge in Hinv by (unfold enumerate; by rewrite length_imap).
  set (st := fold_left _ _ _) in *.
  destruct Hinv as (Hne & Hnd & Hlt). unfold extracted_positions in *.
  assert (Hitems : ∀ l : list ListItem,
            Forall (λ k, k < length (paragraphs doc)) l.*2 →
            Forall (λ item : ListItem, item.2 < length (paragraphs doc)) l).
  { intros l. by rewrite Forall_fmap. }
  destruct (ex_current st) as [|item current] eqn:Hcur.
  - cbn [fst snd ex_groups ex_resource_groups].
    rewrite app_nil_r, <- concat_app in Hnd, Hlt. by auto.
  - rewrite <- Hcur in *.
    destruct (ex_is_resource_section st);
      cbn [fst snd ex_groups ex_resource_groups].
    + assert (Hperm : concat (ex_groups st
                              ++ ex_resource_groups st ++ [ex_current st])
                      ≡ₚ concat (ex_groups st)
                         ++ concat (ex_resource_groups st) ++ ex_current st).
      { rewrite !concat_app. simpl. by rewrite app_nil_r. }
      split_and!.
      * rewrite app_assoc. apply Forall_app. split; [done|].
        repeat constructor. by rewrite Hcur.
      * by rewrite Hperm.
      * apply Hitems. by rewrite Hperm.
    + assert (Hperm : concat ((ex_groups st ++ [ex_current st])
                              ++ ex_resource_groups st)
                      ≡ₚ concat (ex_groups st)
                         ++ concat (ex_resource_groups st) ++ ex_current st).
      { rewrite !concat_app. simpl. rewrite app_nil_r, <- !app_assoc.
        apply Permutation_app_head, Permutation_app_comm. }
      split_and!.
      * rewrite <- app_assoc. rewrite Forall_app in Hne.
        destruct Hne as [Hg Hr]. rewrite !Forall_app.
        split_and!; [done| |done]. repeat constructor. by rewrite Hcur.
      * by rewrite Hperm.
      * apply Hitems. by rewrite Hperm.
Qed.

(** ** The list tree *)












Lemma build_fold_flat (items : list (ListItem * Z)) : ∀ st nodes,
  Forall (λ ik : ListItem * Z, prefix_numbers ik.1.1.1 = [ik.2]) items →
  tr_root st = mkListNode [] (-1) [] None nodes →
  tr_current_parents st !! (-1)%Z = Some [] →
  tr_root (fold_left build_step items.*1 st)
  = mkListNode [] (-1) [] None (nodes ++ map flat_node items).
Proof.
  induction items as [|[[[prefix content] paragraph] n] items IH];
    intros st nodes Hall Hroot Hparents.
  - cbn. by rewrite app_nil_r.
  - apply Forall_cons in Hall as [Hn Hall]. cbn [fst snd] in Hn.
    cbn [fmap list_fmap fold_left fst map].
    rewrite (IH _ (nodes ++ [flat_node (prefix, content, paragraph, n)]));
      [by rewrite <- app_assoc|done| |].
    + unfold build_step. rewrite Hn. cbn [length tr_root].
      change (Z.of_nat 1 - 1 - 1)%Z with (-1)%Z. rewrite Hparents.
      cbn [default append_child]. by rewrite Hroot.
    + unfold build_step. rewrite Hn. cbn [length tr_current_parents].
      apply map_lookup_filter_Some. split; [|cbn [fst]; lia].
      rewrite lookup_insert_ne by (cbn; lia). exact Hparents.
Qed.

Lemma traverse_fold_flat (items : list (ListItem * Z)) : ∀ st,
  default 0%Z (os_level_counters st !! (0%Z, [])) = os_position st →
  ∃ st',
    fold_left
      (λ acc child, st ← acc; traverse child None [] (os_advance st))
      (map flat_node items) (Ok st) = Ok st'
    ∧ os_errors st'
      = os_errors st ++ flat_order_errors (os_position st + 1) items.
Proof.
  induction items as [|[[[prefix content] paragraph] n] items IH];
    intros st Hcount.
  - eexists. split; [done|]. cbn. by rewrite app_nil_r.
  - cbn [map fold_left flat_node fst snd mbind Result_bind traverse].
    change (0 =? -1)%Z with false. change (0 <? 0)%Z with false.
    change (0 =? 0)%Z with true. cbv iota.
    unfold list_get, py_nth. change (0 <? 0)%Z with false. cbv iota.
    change ([n] !! Z.to_nat 0) with (Some n).
    cbn [mbind Result_bind].
    cbn [os_advance os_level_counters os_position]. rewrite Hcount.
    set (st1 := os_count _ _ _).
    destruct (IH st1) as (st' & -> & Herr).
    { unfold st1. cbn [os_count os_level_counters].
      rewrite lookup_insert_eq. cbn [default].
      by destruct (negb _). }
    exists st'. split; [done|]. rewrite Herr. unfold st1.
    cbn [os_count os_errors os_position flat_order_errors].
    destruct (n =? os_position st + 1)%Z;
      cbn [negb os_report os_advance os_errors os_position].
    + done.
    + rewrite <- app_assoc.
      unfold expected_prefix, slice_to, join_numbers.
      cbn [Z.to_nat take app map join]. done.
Qed.

(** X15. In a group whose items carry one number each, the order check
    compares the number of every item with its rank in the group, not with
    the number of the item before it: the entries are exactly those of the
    items whose number is not their rank, each with the rank as the
    expected prefix.  After one skipped number every later item of the
    group is reported as well. *)
Theorem check_numbering_order_flat (items : list (ListItem * Z)) :
  Forall (λ ik : ListItem * Z, prefix_numbers ik.1.1.1 = [ik.2]) items →
  check_numbering_order (build_list_tree items.*1)
  = Ok (flat_order_errors 1 items).
Proof.
  intros Hall. unfold build_list_tree.
  rewrite (build_fold_flat items build_init [] Hall); [|done|done].
  unfold check_numbering_order. cbn [app traverse].
  change (-1 =? -1)%Z with true. cbv iota.
  edestruct (traverse_fold_flat items) as (st' & -> & Herr); [|].
  { cbn [os_level_counters os_position]. by rewrite lookup_empty. }
  cbn [mbind Result_bind]. by rewrite Herr.
Qed.

Lemma check_numbering_order_flat_witness :
  check_numbering_order
    (build_list_tree
       [(U "1.", U "первый,", 4); (U "3.", U "второй,", 5);
        (U "4.", U "третий.", 6)])
  = Ok [(2%Z, U "3.", U "2.", Some 5); (3%Z, U "4.", U "3.", Some 6)].
Proof.
  assert (H : Forall (λ ik : ListItem * Z,
                        prefix_numbers ik.1.1.1 = [ik.2])
                [((U "1.", U "первый,", 4), 1%Z);
                 ((U "3.", U "второй,", 5), 3%Z);
                 ((U "4.", U "третий.", 6), 4%Z)])
    by (repeat constructor).
  exact (check_numbering_order_flat _ H).
Defined.

(** ** Lists: the closing punctuation of a group *)

Lemma endswith_singleton (content : str) (c : N) :
  endswith content [c] = bool_decide (last content = Some c).
Proof.
  unfold endswith. cbn [rev app].
  destruct content as [|x content _] using rev_ind.
  - by rewrite bool_decide_false.
  - rewrite rev_app_distr, last_snoc. cbn [rev app startswith].
    replace (startswith (rev content) []) with true
      by (by destruct (rev content)).
    rewrite andb_true_r.
    destruct (N.eqb_spec x c) as [->|Hne].
    + by rewrite bool_decide_true.
    + rewrite bool_decide_false; [done|]. by intros [= ->].
Qed.

Lemma eqb_nil_false (content : str) :
  content ≠ [] → PyStr.eqb content [] = false.
Proof. intros H. by apply bool_decide_eq_false. Qed.

Lemma punctuation_step_middle doc size errors c ind item :
  regular_item doc item → 0 < ind → ind < size - 1 →
  punctuation_step doc size (errors, Some c) (ind, item)
  = (errors ++ (if decide (last item.1.2 = Some c) then []
                else punctuation_error doc middle_item_message item),
     Some c).
Proof.
  intros (Hcontent & p & Hp & Hph) Hpos Hlast.
  destruct item as [[prefix content] i]. cbn [fst snd] in *.
  unfold punctuation_step, punctuation_error. cbn [fst snd].
  rewrite Hp, Hph.
  rewrite (proj2 (Nat.eqb_neq ind 0)) by lia. cbn [andb].
  rewrite (proj2 (Nat.eqb_neq ind (size - 1))) by lia.
  rewrite eqb_nil_false by done. cbn [negb andb].
  rewrite endswith_singleton.
  destruct (decide (last content = Some c)) as [Hc|Hc].
  - rewrite bool_decide_true by done. cbn [negb when id].
    by rewrite app_nil_r.
  - rewrite bool_decide_false by done. cbn [negb when].
    unfold middle_item_message, report, add_error. reflexivity.
Qed.

Lemma punctuation_fold_middle doc size c (middle : list ListItem) :
  ∀ offset errors,
    Forall (regular_item doc) middle →
    0 < offset → offset + length middle ≤ size - 1 →
    fold_left (punctuation_step doc size)
      (imap (λ k item, (offset + k, item)) middle) (errors, Some c)
    = (errors
       ++ concat
            (map (λ item : ListItem,
                    if decide (last item.1.2 = Some c) then []
                    else punctuation_error doc middle_item_message item)
               middle),
       Some c).
Proof.
  induction middle as [|item middle IH]; intros offset errors Hall Hpos Hlen.
  - cbn. by rewrite app_nil_r.
  - apply Forall_cons in Hall as [Hitem Hall]. cbn [length] in Hlen.
    cbn [imap fold_left map concat]. rewrite Nat.add_0_r.
    rewrite punctuation_step_middle by (done || lia).
    rewrite (imap_ext _ (λ k item, (S offset + k, item)))
      by (intros; cbn; f_equal; lia).
    rewrite IH by (done || lia). by rewrite <- app_assoc.
Qed.

(** X16. The punctuation rule of a list, as [validate_lists] applies it to a
    group of two or more items that all have content and are not formatted
    as potential headings: when the first item ends with a comma or a
    semicolon, the records are exactly one for every middle item that does
    not end with that same character, followed by one for the last item
    when it does not end with a full stop; the first item itself is not
    reported. *)
Theorem check_group_punctuation_law
    (doc : Document) (first : ListItem) (middle : list ListItem)
    (last_item : ListItem) (c : N) :
  Forall (regular_item doc) (first :: middle ++ [last_item]) →
  last first.1.2 = Some c → c ∈ ALLOWED_END_CHARS →
  check_group_punctuation doc (first :: middle ++ [last_item]) []
  = concat
      (map (λ item : ListItem,
              if decide (last item.1.2 = Some c) then []
              else punctuation_error doc middle_item_message item)
         middle)
    ++ (if endswith last_item.1.2 FINAL_END_CHAR then []
        else punctuation_error doc last_item_message last_item).
Proof.
  intros Hall Hc Hallowed.
  apply Forall_cons in Hall as [Hfirst Hall].
  apply Forall_app in Hall as [Hmiddle Hlast].
  rewrite Forall_singleton in Hlast.
  unfold check_group_punctuation, enumerate.
  cbn [imap fold_left length].
  set (size := S (length (middle ++ [last_item]))).
  assert (Hsize : size = S (S (length middle)))
    by (unfold size; rewrite length_app; cbn; lia).
  (* the first item *)
  destruct Hfirst as (Hcontent & p & Hp & Hph).
  destruct first as [[prefix content] i]. cbn [fst snd] in *.
  match goal with
  | |- context [punctuation_step doc size ([], None) ?x] =>
      assert (Hstep1 : punctuation_step doc size ([], None) x
                       = ([], Some c))
  end.
  { unfold punctuation_step. cbn [fst snd]. rewrite Hp, Hph.
    cbn [Nat.eqb andb].
    rewrite (proj2 (Nat.ltb_lt 1 size)) by lia.
    rewrite Hc, bool_decide_true by done.
    by rewrite andb_false_r. }
  rewrite Hstep1.
  (* the middle items and the last one *)
  rewrite imap_app, fold_left_app.
  rewrite (imap_ext (pair ∘ S) (λ k item, (1 + k, item)) middle) by done.
  rewrite punctuation_fold_middle by (done || lia).
  cbn [imap fold_left app fst].
  destruct Hlast as (Hcontent' & q & Hq & Hqh).
  destruct last_item as [[prefix' content'] j]. cbn [fst snd] in *.
  unfold punctuation_step at 1, punctuation_error. cbn [fst snd compose].
  rewrite Hq, Hqh.
  rewrite (proj2 (Nat.eqb_neq (S (length middle + 0)) 0)) by lia.
  cbn [andb].
  rewrite (proj2 (Nat.eqb_eq (S (length middle + 0)) (size - 1))) by lia.
  rewrite eqb_nil_false by done. cbn [negb andb fst].
  destruct (endswith content' FINAL_END_CHAR); cbn [negb when id fst].
  - by rewrite app_nil_r.
  - unfold last_item_message, report, add_error. reflexivity.
Qed.

Lemma check_group_punctuation_law_witness :
  check_group_punctuation punctuation_doc
    [(U "1.", U "первый,", 0); (U "2.", U "второй;", 1);
     (U "3.", U "третий.", 2)] []
  = punctuation_error punctuation_doc middle_item_message
      (U "2.", U "второй;", 1).
Proof.
  assert (Hall : Forall (regular_item punctuation_doc)
                   ((U "1.", U "первый,", 0)
                    :: [(U "2.", U "второй;", 1)]
                    ++ [(U "3.", U "третий.", 2)])).
  { repeat constructor; try done; eexists; split; reflexivity. }
  exact (check_group_punctuation_law punctuation_doc
           (U "1.", U "первый,", 0) [(U "2.", U "второй;", 1)]
           (U "3.", U "третий.", 2) 44%N Hall eq_refl
           ltac:(by apply (bool_decide_unpack _))).
Defined.

Lemma punctuation_step_appends doc size acc ind_item :
  ∃ more, (punctuation_step doc size acc ind_item).1 = acc.1 ++ more.
Proof.
  destruct acc as [errors end_char], ind_item as [ind [[prefix content] i]].
  unfold punctuation_step. cbn [fst snd].
  assert (Hsame : ∃ more : Errors, errors = errors ++ more)
    by (exists []; by rewrite app_nil_r).
  assert (Hwhen : ∀ b msg el idx ety,
            ∃ more, when b (report msg el idx ety) errors = errors ++ more).
  { intros [] msg el idx ety; [by eexists|done]. }
  destruct (paragraphs doc !! i) as [p|]; [|done].
  destruct (is_potential_heading p); [done|].
  destruct ((ind =? 0) && (1 <? size)); [apply Hwhen|].
  destruct (ind =? size - 1); apply Hwhen.
Qed.

Lemma punctuation_fold_appends doc size l : ∀ acc,
  ∃ more, (fold_left (punctuation_step doc size) l acc).1 = acc.1 ++ more.
Proof.
  induction l as [|ind_item l IH]; intros acc; cbn [fold_left].
  - exists []. by rewrite app_nil_r.
  - destruct (IH (punctuation_step doc size acc ind_item)) as [more1 ->].
    destruct (punctuation_step_appends doc size acc ind_item) as [more2 ->].
    exists (more2 ++ more1). by rewrite app_assoc.
Qed.

(** X17. The edges of the punctuation rule.  An item without content, or
    one whose paragraph is formatted as a potential heading (a bold run of
    14 or 16 pt), is never reported, whatever its place in the group.  The
    only item of a group falls under the rule of the last item: it is
    reported unless it ends with a full stop.  In a group of two or more
    items, a first item that does not end with a comma or a semicolon is
    reported first. *)
Theorem check_group_punctuation_edges (doc : Document) :
  (∀ size errors end_char ind item,
     item.1.2 = []
     ∨ (∃ p, paragraphs doc !! item.2 = Some p
             ∧ is_potential_heading p = true) →
     (punctuation_step doc size (errors, end_char) (ind, item)).1 = errors)
  ∧ (∀ item,
       regular_item doc item →
       check_group_punctuation doc [item] []
       = if endswith item.1.2 FINAL_END_CHAR then []
         else punctuation_error doc last_item_message item)
  ∧ (∀ first rest,
       rest ≠ [] → regular_item doc first →
       (∀ c, last first.1.2 = Some c → c ∉ ALLOWED_END_CHARS) →
       ∃ more,
         check_group_punctuation doc (first :: rest) []
         = punctuation_error doc first_item_message first ++ more).
Proof.
  split_and!.
  - intros size errors end_char ind [[prefix content] i] Hexempt.
    unfold punctuation_step. cbn [fst snd] in *.
    destruct (paragraphs doc !! i) as [p|] eqn:Hp; [|done].
    destruct Hexempt as [->|(q & [= <-] & ->)]; [|done].
    destruct (is_potential_heading p); [done|].
    change (PyStr.eqb [] []) with true. cbn [negb andb when id last].
    destruct ((ind =? 0) && (1 <? size)); [done|].
    by destruct (ind =? size - 1), end_char.
  - intros [[prefix content] i] (Hcontent & p & Hp & Hph).
    cbn [fst snd] in *.
    unfold check_group_punctuation, enumerate, punctuation_error.
    cbn [imap fold_left length fst snd]. unfold punctuation_step.
    cbn [fst snd Nat.eqb Nat.ltb Nat.leb Nat.sub andb].
    rewrite Hp, Hph, eqb_nil_false by done. cbn [negb andb fst].
    destruct (endswith content FINAL_END_CHAR); cbn [negb when id].
    + reflexivity.
    + unfold last_item_message, report, add_error. reflexivity.
  - intros [[prefix content] i] rest Hrest (Hcontent & p & Hp & Hph) Hc.
    cbn [fst snd] in *.
    unfold check_group_punctuation, enumerate.
    cbn [imap fold_left length].
    match goal with
    | |- context [fold_left ?f ?l ?acc] =>
        destruct (punctuation_fold_appends doc
                    (S (length rest)) l acc) as [more Hmore]
    end.
    rewrite Hmore. exists more. f_equal.
    unfold punctuation_step, punctuation_error. cbn [fst snd].
    rewrite Hp, Hph. cbn [Nat.eqb andb].
    rewrite (proj2 (Nat.ltb_lt 1 (S (length rest))))
      by (destruct rest; [done|cbn [length]; lia]).
    rewrite eqb_nil_false by done. cbn [negb andb].
    destruct (last content) as [c|] eqn:Hlast.
    + rewrite bool_decide_false by (by apply Hc).
      cbn [negb when fst]. unfold first_item_message, report, add_error.
      reflexivity.
    + exfalso. destruct content as [|x content _] using rev_ind.
      * by apply Hcontent.
      * rewrite last_snoc in Hlast. discriminate Hlast.
Qed.

Lemma check_group_punctuation_edges_witness :
  check_group_punctuation punctuation_doc [(U "1.", U "первый,", 0)] []
  = (if endswith (U "первый,") FINAL_END_CHAR then []
     else punctuation_error punctuation_doc last_item_message
            (U "1.", U "первый,", 0))
  ∧ ∃ more,
      check_group_punctuation punctuation_doc
        [(U "3.", U "третий.", 2); (U "1.", U "первый,", 0)] []
      = punctuation_error punctuation_doc first_item_message
          (U "3.", U "третий.", 2) ++ more.
Proof.
  destruct (check_group_punctuation_edges punctuation_doc)
    as (_ & Hsingle & Hfirst).
  split.
  - apply (Hsingle (U "1.", U "первый,", 0)).
    split; [done|]. eexists. split; reflexivity.
  - apply (Hfirst (U "3.", U "третий.", 2) [(U "1.", U "первый,", 0)]).
    + done.
    + split; [done|]. eexists. split; reflexivity.
    + intros c [= <-]. by apply (bool_decide_unpack _).
Defined.

(** ** Lists: what [validate_lists] returns *)


Section ValidateListsFacts.

Variable doc : Document.
Variables excluded resource_paragraphs : list nat.



End ValidateListsFacts.



(** ** Body text: what [check_general_formatting] accepts *)

Lemma checks_when_report_nil b msg el idx ety cs :
  Forall uniform cs →
  checks (when b (report msg el idx ety) :: cs) [] = []
  ↔ b = false ∧ checks cs [] = [].
Proof.
  intros Hcs. rewrite checks_cons.
  destruct b; cbn [when].
  - rewrite (uniform_checks cs Hcs). unfold report, add_error.
    split; [|by intros [? _]].
    intros H. by apply app_eq_nil in H as [? _].
  - unfold id. naive_solver.
Qed.

Lemma run_flag_false p f :
  run_flag p f = false
  ↔ ∀ run, run ∈ runs p → nonblank run = true → f run = false.
Proof.
  unfold run_flag. induction (runs p) as [|r rs IH]; cbn [existsb].
  - split; [|done]. intros _ run Hin. by apply elem_of_nil in Hin.
  - rewrite orb_false_iff, IH. split.
    + intros [Hr Hrs] run [->|Hin]%elem_of_cons Hnb.
      * by rewrite Hnb in Hr.
      * by apply Hrs.
    + intros H. split.
      * destruct (nonblank r) eqn:Hnb; [|done]. apply H; [by left|done].
      * intros run Hin. apply H. by right.
Qed.

Lemma check_general_paragraph_nil p i :
  check_general_paragraph p i [] = [] ↔ body_paragraph_ok p.
Proof.
  unfold check_general_paragraph, check_double_spaces, body_paragraph_ok.
  repeat (rewrite checks_when_report_nil
            by (repeat constructor; solve_uniform)).
  rewrite !run_flag_false, !negb_false_iff.
  unfold alignment_is, spacing_given, indent_sides, body_run_ok.
  rewrite !bool_decide_eq_true, orb_false_iff.
  split.
  - intros (Hds & Hname & Hsize & Hbold & Hitalic & Hunder & Hls & Hfli
            & Hsides & [Hsb Hsa] & Hal & _).
    split_and!; try done.
    + intros run Hin Hnb. split_and!.
      * by apply Hname.
      * by apply Hsize.
      * specialize (Hbold run Hin Hnb).
        by apply bool_decide_eq_false in Hbold.
      * specialize (Hitalic run Hin Hnb).
        by apply bool_decide_eq_false in Hitalic.
      * specialize (Hunder run Hin Hnb).
        apply bool_decide_eq_false in Hunder.
        destruct (font_underline run); [exfalso; by apply Hunder|done].
    + by destruct (inches_exceed (left_indent p)).
    + destruct (inches_exceed (left_indent p)); [done|].
      by destruct (inches_exceed (right_indent p)).
  - intros (Hds & Hruns & Hls & Hfli & Hleft & Hright & Hsb & Hsa & Hal).
    rewrite Hleft, Hright.
    split_and!; try done;
      intros run Hin Hnb; destruct (Hruns run Hin Hnb)
        as (Hname & Hsize & Hbold & Hitalic & Hunder); try done.
    + by apply bool_decide_eq_false.
    + by apply bool_decide_eq_false.
    + apply bool_decide_eq_false. by rewrite Hunder; intros [].
Qed.

Lemma uniform_check_general_paragraph p i :
  uniform (check_general_paragraph p i).
Proof. unfold check_general_paragraph, check_double_spaces. solve_uniform. Qed.

Lemma general_fold excluded l : ∀ errors code,
  (fold_left (general_step excluded) l (errors, code)).1
  = errors ++ concat (map (general_records excluded) l).
Proof.
  induction l as [|[i p] l IH]; intros errors code; cbn [fold_left map concat].
  - by rewrite app_nil_r.
  - unfold general_step at 2, general_records at 1, is_body_paragraph.
    cbn [fst snd].
    destruct (is_skipped_paragraph excluded i p); cbn [negb andb]; [apply IH|].
    destruct (is_code p); cbn [negb]; [apply IH|].
    rewrite IH, (uniform_check_general_paragraph p i errors).
    by rewrite app_assoc.
Qed.

Lemma enumerate_lookup_elem_of {A} (l : list A) (i : nat) (x : A) :
  l !! i = Some x → (i, x) ∈ enumerate l.
Proof.
  intros Hi. unfold enumerate. apply list_elem_of_lookup. exists i.
  by rewrite list_lookup_imap, Hi.
Qed.

Lemma concat_map_nil {A B} (f : A → list B) (l : list A) :
  concat (map f l) = [] ↔ ∀ x, x ∈ l → f x = [].
Proof.
  induction l as [|a l IH]; cbn [map concat].
  - split; [|done]. intros _ x Hx. by apply elem_of_nil in Hx.
  - split.
    + intros [Ha Hl]%app_eq_nil x [->|Hx]%elem_of_cons; [done|].
      by apply IH.
    + intros H. rewrite (H a) by by left. apply IH.
      intros x Hx. apply H. by right.
Qed.

(** X19. What the check of the body text accepts: [issues_found] is [False]
    exactly when every paragraph the check looks at (one with text, not
    excluded, not starting like a numbered heading, a caption, a structural
    title or an appendix header, and without a run in Courier New) has no
    double space, has in every run with text a font name that is absent or
    holds Times New Roman, a size that is absent or 14 pt, no bold or italic
    set and no underline setting, and has line spacing 1.5, a first-line
    indent of 1.25 cm, no left or right indent, no spacing before or after,
    and justified alignment. *)
Theorem check_general_formatting_accepts (doc : Document)
    (table_and_image_captions heading_and_list_and_structural_paragraphs
     code_paragraphs : list nat) :
  (check_general_formatting doc table_and_image_captions
     heading_and_list_and_structural_paragraphs code_paragraphs).1.1 = false
  ↔ ∀ i paragraph,
      paragraphs doc !! i = Some paragraph →
      is_body_paragraph
        (table_and_image_captions
         ++ heading_and_list_and_structural_paragraphs ++ code_paragraphs)
        i paragraph = true →
      body_paragraph_ok paragraph.
Proof.
  unfold check_general_formatting. cbv zeta. cbn [fst].
  set (excluded := _ ++ _ ++ _).
  rewrite general_fold, app_nil_l.
  transitivity (concat (map (general_records excluded)
                          (enumerate (paragraphs doc))) = []).
  { by destruct (concat _). }
  rewrite concat_map_nil. split.
  - intros H i p Hp Hbody.
    specialize (H (i, p) (enumerate_lookup_elem_of _ _ _ Hp)).
    unfold general_records in H. cbn [fst snd] in H. rewrite Hbody in H.
    by apply check_general_paragraph_nil in H.
  - intros H [i p] Hin. unfold general_records. cbn [fst snd].
    destruct (is_body_paragraph excluded i p) eqn:Hbody; [|done].
    apply check_general_paragraph_nil.
    apply (H i p); [by apply enumerate_elem_of|done].
Qed.

(** ** Body text: one record per defect and paragraph *)

Lemma checks_when_report b msg el idx ety cs :
  Forall uniform cs →
  checks (when b (report msg el idx ety) :: cs) []
  = (if b then [error_dict msg el (Some idx) (Some ety)] else [])
    ++ checks cs [].
Proof.
  intros Hcs. rewrite checks_cons. destruct b; cbn [when]; [|done].
  by rewrite (uniform_checks cs Hcs).
Qed.

Lemma sublist_keyed_cons (b : bool) (e : ErrorRecord) (x : Z * str)
    (l : Errors) (k : list (Z * str)) :
  keyed e = x → keyed <$> l `sublist_of` k →
  keyed <$> ((if b then [e] else []) ++ l) `sublist_of` x :: k.
Proof.
  intros <- Hl. destruct b; cbn [app fmap list_fmap].
  - by apply sublist_skip.
  - by apply sublist_cons.
Qed.

Lemma check_general_paragraph_keys p i :
  keyed <$> check_general_paragraph p i []
  `sublist_of` pair (Z.of_nat i) <$> general_messages p.
Proof.
  unfold check_general_paragraph, check_double_spaces, general_messages.
  repeat (rewrite checks_when_report
            by (repeat constructor; solve_uniform)).
  cbn [fmap list_fmap].
  repeat (apply sublist_keyed_cons; [reflexivity|]).
  apply sublist_nil_l.
Qed.

Lemma NoDup_general_messages p : NoDup (general_messages p).
Proof.
  unfold general_messages, indent_sides.
  destruct (inches_exceed (left_indent p)),
    (inches_exceed (right_indent p));
    apply (bool_decide_unpack _); vm_compute; reflexivity.
Qed.

Lemma general_records_keys excluded i p :
  NoDup (keyed <$> general_records excluded (i, p))
  ∧ ∀ key, key ∈ keyed <$> general_records excluded (i, p) →
           key.1 = Z.of_nat i.
Proof.
  assert (Hsub : keyed <$> general_records excluded (i, p)
                 `sublist_of` pair (Z.of_nat i) <$> general_messages p).
  { unfold general_records. cbn [fst snd].
    destruct (is_body_paragraph excluded i p);
      [apply check_general_paragraph_keys|apply sublist_nil_l]. }
  split.
  - refine (sublist_NoDup _ _ _ Hsub).
    apply NoDup_fmap_2; [|apply NoDup_general_messages].
    by intros m m' [= ->].
  - intros key Hkey.
    apply (elem_of_sublist _ _ _ Hkey) in Hsub.
    by apply list_elem_of_fmap in Hsub as (m & -> & _).
Qed.

Lemma general_concat_keys excluded ps : ∀ k,
  let keys :=
    keyed <$> concat (map (general_records excluded)
                        (imap (λ j p, (k + j, p)) ps)) in
  NoDup keys ∧ ∀ key, key ∈ keys → (Z.of_nat k ≤ key.1)%Z.
Proof.
  induction ps as [|p ps IH]; intros k; cbv zeta.
  - cbn [imap map concat fmap list_fmap]. split; [constructor|].
    intros key Hkey. by apply elem_of_nil in Hkey.
  - cbn [imap map concat]. rewrite fmap_app.
    rewrite (imap_ext _ (λ j p, (S k + j, p)) ps)
      by (intros j x _; cbn [compose]; f_equal; lia).
    destruct (IH (S k)) as [Hnd Hge]. cbv zeta in Hnd, Hge.
    rewrite Nat.add_0_r.
    destruct (general_records_keys excluded k p) as [Hnd0 Hat].
    split.
    + apply NoDup_app. split_and!; [done| |done].
      intros key Hkey Hkey'. apply Hat in Hkey. apply Hge in Hkey'. lia.
    + intros key [Hkey|Hkey]%elem_of_app.
      * apply Hat in Hkey. lia.
      * apply Hge in Hkey. lia.
Qed.

(** X20. The check of the body text reports a defect once for a paragraph,
    however many of its runs show it: no two of its records have the same
    index and message.  So [remove_duplicate_errors] returns its list of
    errors unchanged. *)
Theorem check_general_formatting_no_duplicates (doc : Document)
    (table_and_image_captions heading_and_list_and_structural_paragraphs
     code_paragraphs : list nat) :
  let errors :=
    (check_general_formatting doc table_and_image_captions
       heading_and_list_and_structural_paragraphs code_paragraphs).1.2 in
  NoDup (keyed <$> errors) ∧ remove_duplicate_errors errors = errors.
Proof.
  unfold check_general_formatting. cbv zeta. cbn [fst snd].
  set (excluded := _ ++ _ ++ _).
  rewrite general_fold, app_nil_l.
  assert (Hnd : NoDup (keyed <$> concat (map (general_records excluded)
                                           (enumerate (paragraphs doc)))))
    by apply (general_concat_keys excluded (paragraphs doc) 0).
  split; [done|].
  unfold remove_duplicate_errors.
  rewrite remove_duplicate_errors_loop_nodup; [done| |].
  - apply (NoDup_fmap_1 (λ key : ErrorKey, (key.1.1.1.2, key.1.1.2))).
    by rewrite <- list_fmap_compose.
  - intros e _. apply not_elem_of_empty.
Qed.
